(** * Anthos banking assistant: fetching, filtering and summing transactions

    A shallow embedding of the controller ([testConnection],
    [getTransactionData], [formatDate], [formatCurrency], [getLastFour]) and
    of the post-fetch engine of the chat endpoint ([filterTransactions],
    [processTransactionDataForAI]), with the properties the specification
    states about them.

    JavaScript numbers are IEEE 754 binary64 values; they are modelled with
    the executable specification of binary floating point of the standard
    library ([SpecFloat], precision 53, exponent bound 1024).  JavaScript
    objects are finite maps from property names to values. *)

From Stdlib Require Import ZArith List Bool Ascii String Lia.
From Stdlib Require Import DecimalString DecimalN.
From Stdlib Require Import Floats.SpecFloat.
From stdpp Require Import base option gmap strings list sorting.

Local Open Scope string_scope.
Local Open Scope Z_scope.

(* ===================================================================== *)
(** * The JavaScript values the program handles *)
(* ===================================================================== *)

Module JS.

(** ** Numbers *)

Definition prec : Z := 53.
Definition emax : Z := 1024.

Definition number : Type := spec_float.

Definition NaN : number := S754_nan.
Definition zero : number := S754_zero false.
Definition Infinity : number := S754_infinity false.

Definition num_add : number -> number -> number := SFadd prec emax.
Definition num_neg : number -> number := SFopp.
Definition num_eqb : number -> number -> bool := SFeqb.
Definition num_ltb : number -> number -> bool := SFltb.
Definition num_leb : number -> number -> bool := SFleb.
Definition num_valid : number -> bool := valid_binary prec emax.

(** The Number nearest to an integer (ties to even). *)
Definition num_of_Z (z : Z) : number := binary_normalize prec emax z 0 false.

(** [isNaN] on a Number. *)
Definition num_isNaN (x : number) : bool :=
  match x with S754_nan => true | _ => false end.

(** The Number nearest to [digits * 10 ^ exp10] (ties to even), with the
    sign [neg]; this is the rounding of a decimal numeral. *)
Definition number_of_decimal (neg : bool) (digits : Z) (exp10 : Z) : number :=
  match digits with
  | Z0 => S754_zero neg
  | Zpos _ =>
      match exp10 with
      | Zneg d =>
          let '(q, e, l) :=
            SFdiv_core_binary prec emax digits 0 (10 ^ Zpos d) 0 in
          binary_round_aux prec emax neg q e l
      | _ =>
          binary_normalize prec emax (cond_Zopp neg (digits * 10 ^ exp10))
                           0 neg
      end
  | Zneg _ => S754_nan
  end.

(** ** Strings: sequences of code units, here in the ASCII range *)

Definition code (c : ascii) : Z := Z.of_N (N_of_ascii c).

(** The white space of the ASCII range.  [String.prototype.trim] strips
    other characters too (U+00A0, U+FEFF, the line separators), which a
    string of the ASCII range does not hold. *)
Definition is_space (c : ascii) : bool :=
  let n := code c in
  (n =? 9) || (n =? 10) || (n =? 11) || (n =? 12) || (n =? 13) || (n =? 32).

Definition digit_of (c : ascii) : option Z :=
  let n := code c in
  if (48 <=? n) && (n <=? 57) then Some (n - 48) else None.

Fixpoint skip_spaces (s : string) : string :=
  match s with
  | String c rest => if is_space c then skip_spaces rest else s
  | EmptyString => s
  end.

Fixpoint rev_string_onto (s acc : string) : string :=
  match s with
  | String c rest => rev_string_onto rest (String c acc)
  | EmptyString => acc
  end.

Definition rev_string (s : string) : string := rev_string_onto s "".

(** [String.prototype.trim]. *)
Definition trim (s : string) : string :=
  rev_string (skip_spaces (rev_string (skip_spaces s))).

(** The lower case of a character of the ASCII range; the other
    characters are left as they are. *)
Definition lower_char (c : ascii) : ascii :=
  let n := code c in
  if (65 <=? n) && (n <=? 90) then ascii_of_N (Z.to_N (n + 32)) else c.

(** [String.prototype.toLowerCase]. *)
Fixpoint toLowerCase (s : string) : string :=
  match s with
  | String c rest => String (lower_char c) (toLowerCase rest)
  | EmptyString => EmptyString
  end.

Fixpoint starts_with (p s : string) : bool :=
  match p, s with
  | EmptyString, _ => true
  | String a p', String b s' => Ascii.eqb a b && starts_with p' s'
  | String _ _, EmptyString => false
  end.

(** [String.prototype.includes]. *)
Fixpoint includes (s needle : string) : bool :=
  starts_with needle s ||
  match s with
  | String _ rest => includes rest needle
  | EmptyString => false
  end.

Fixpoint drop_chars (n : nat) (s : string) : string :=
  match n, s with
  | O, _ => s
  | S n', String _ rest => drop_chars n' rest
  | S _, EmptyString => EmptyString
  end.

(** [s.slice(-4)]: from index [max (length - 4) 0] to the end. *)
Definition slice_last4 (s : string) : string :=
  drop_chars (String.length s - 4) s.

(** [s.split("T")[0]]: the part before the first ["T"]. *)
Fixpoint before_T (s : string) : string :=
  match s with
  | String c rest => if Ascii.eqb c "T" then "" else String c (before_T rest)
  | EmptyString => EmptyString
  end.

(** Decimal numeral of a natural number. *)
Definition decimal (n : N) : string := NilZero.string_of_uint (N.to_uint n).

(** ** Reading numerals: the [StrDecimalLiteral] grammar *)

(** Longest run of decimal digits: accumulated value, number of digits read,
    and the rest. *)
Fixpoint scan_digits (s : string) (acc : Z) (count : Z) : Z * Z * string :=
  match s with
  | String c rest =>
      match digit_of c with
      | Some d => scan_digits rest (10 * acc + d) (count + 1)
      | None => (acc, count, s)
      end
  | EmptyString => (acc, count, s)
  end.

(** [ExponentPart]: an exponent indicator, an optional sign and at least one
    digit; when no digit follows, nothing is consumed. *)
Definition scan_exponent (s : string) : Z * string :=
  match s with
  | String c rest =>
      if Ascii.eqb c "e" || Ascii.eqb c "E" then
        let '(sg, rest1) :=
          match rest with
          | String s1 r =>
              if Ascii.eqb s1 "+" then (false, r)
              else if Ascii.eqb s1 "-" then (true, r)
              else (false, rest)
          | EmptyString => (false, rest)
          end in
        let '(v, n, rest2) := scan_digits rest1 0 0 in
        if n =? 0 then (0, s) else (cond_Zopp sg v, rest2)
      else (0, s)
  | EmptyString => (0, s)
  end.

(** Longest prefix that is a [StrUnsignedDecimalLiteral], with its value and
    what follows it; [None] when there is no such prefix. *)
Definition scan_unsigned (neg : bool) (s : string) : option (number * string) :=
  if starts_with "Infinity" s then Some (S754_infinity neg, drop_chars 8 s)
  else
    let '(ip, ni, r1) := scan_digits s 0 0 in
    match r1 with
    | String c r2 =>
        if Ascii.eqb c "." then
          let '(fp, nf, r3) := scan_digits r2 ip 0 in
          if (ni =? 0) && (nf =? 0) then None
          else
            let '(e, r4) := scan_exponent r3 in
            Some (number_of_decimal neg fp (e - nf), r4)
        else if ni =? 0 then None
        else
          let '(e, r4) := scan_exponent r1 in
          Some (number_of_decimal neg ip e, r4)
    | EmptyString =>
        if ni =? 0 then None else Some (number_of_decimal neg ip 0, r1)
    end.

Definition scan_signed (s : string) : option (number * string) :=
  match s with
  | String c rest =>
      if Ascii.eqb c "+" then scan_unsigned false rest
      else if Ascii.eqb c "-" then scan_unsigned true rest
      else scan_unsigned false s
  | EmptyString => None
  end.

(** [parseFloat] on a string: leading white space is skipped, the longest
    numeral prefix is read, anything after it is ignored. *)
Definition parseFloat_string (s : string) : number :=
  match scan_signed (skip_spaces s) with
  | Some (x, _) => x
  | None => NaN
  end.

(** ** Printing numbers *)

Definition num_same (x y : number) : bool :=
  match x, y with
  | S754_nan, S754_nan => true
  | S754_zero a, S754_zero b => Bool.eqb a b
  | S754_infinity a, S754_infinity b => Bool.eqb a b
  | S754_finite a m e, S754_finite b m' e' =>
      Bool.eqb a b && Pos.eqb m m' && Z.eqb e e'
  | _, _ => false
  end.

Fixpoint zeros (n : nat) : string :=
  match n with O => "" | S n' => String "0" (zeros n') end.

Fixpoint take_chars (n : nat) (s : string) : string :=
  match n, s with
  | S n', String c rest => String c (take_chars n' rest)
  | _, _ => EmptyString
  end.

(** The exact value [m * 2 ^ e] of a finite number, as a fraction. *)
Definition fraction (m : positive) (e : Z) : Z * Z :=
  match e with
  | Zneg k => (Zpos m, 2 ^ Zpos k)
  | _ => (Zpos m * 2 ^ e, 1)
  end.

Fixpoint small_exponent (fuel : nat) (num den j : Z) : Z :=
  match fuel with
  | O => j
  | S fuel' =>
      if den <=? num * 10 then j
      else small_exponent fuel' (num * 10) den (j + 1)
  end.

(** The [n] with [10 ^ (n - 1) <= num / den < 10 ^ n]. *)
Definition decimal_exponent (num den : Z) : Z :=
  if den <=? num
  then Z.of_nat (String.length (decimal (Z.to_N (num / den))))
  else 1 - small_exponent 400 num den 1.

(** [num / den] scaled by [10 ^ (k - n)]: integer part, remainder and
    divisor. *)
Definition scaled (num den n k : Z) : Z * Z * Z :=
  let sh := k - n in
  if 0 <=? sh
  then (num * 10 ^ sh / den, (num * 10 ^ sh) mod den, den)
  else (num / (den * 10 ^ (- sh)), num mod (den * 10 ^ (- sh)),
        den * 10 ^ (- sh)).

(** The shortest digit string [s] (with [k] digits) and exponent [n] such
    that [s * 10 ^ (n - k)] reads back as [x]; among the candidates with [k]
    digits, the one nearest to [x]. *)
Fixpoint shortest_digits (fuel : nat) (x : number) (num den n k : Z)
  : Z * Z * Z :=
  let '(lo, r, d) := scaled num den n k in
  let hi := lo + 1 in
  let ok s := (0 <? s) && num_same (number_of_decimal false s (n - k)) x in
  let pick s := if s =? 10 ^ k then (10 ^ (k - 1), n + 1, k) else (s, n, k) in
  let nearest :=
    if (2 * r <? d) || ((2 * r =? d) && Z.even lo) then lo else hi in
  let other := if nearest =? lo then hi else lo in
  if ok nearest then pick nearest
  else if ok other then pick other
  else
    match fuel with
    | O => pick nearest
    | S fuel' => shortest_digits fuel' x num den n (k + 1)
    end.

(** [Number::toString] of a finite positive number. *)
Definition positive_to_string (m : positive) (e : Z) : string :=
  let '(num, den) := fraction m e in
  let '(s, n, k) :=
    shortest_digits 16 (S754_finite false m e) num den
                    (decimal_exponent num den) 1 in
  let ds := decimal (Z.to_N s) in
  if (k <=? n) && (n <=? 21) then ds ++ zeros (Z.to_nat (n - k))
  else if (0 <? n) && (n <=? 21)
  then take_chars (Z.to_nat n) ds ++ "." ++ drop_chars (Z.to_nat n) ds
  else if (-6 <? n) && (n <=? 0) then "0." ++ zeros (Z.to_nat (- n)) ++ ds
  else
    let ex := n - 1 in
    let sg := if ex <? 0 then "-" else "+" in
    let mant :=
      if k =? 1 then ds else take_chars 1 ds ++ "." ++ drop_chars 1 ds in
    mant ++ "e" ++ sg ++ decimal (Z.to_N (Z.abs ex)).

(** [Number::toString] (radix 10). *)
Definition num_to_string (x : number) : string :=
  match x with
  | S754_nan => "NaN"
  | S754_zero _ => "0"
  | S754_infinity false => "Infinity"
  | S754_infinity true => "-Infinity"
  | S754_finite false m e => positive_to_string m e
  | S754_finite true m e => "-" ++ positive_to_string m e
  end.

(** ** [Number.prototype.toFixed(2)] *)

(** The integer [n] for which [n / 100] is nearest to [m * 2 ^ e]; of two
    such integers, the larger. *)
Definition hundredths (m : positive) (e : Z) : Z :=
  match e with
  | Zneg k => (200 * Zpos m + 2 ^ Zpos k) / 2 ^ (Zpos k + 1)
  | _ => Zpos m * 2 ^ e * 100
  end.

(** [10 ^ 21 <= m * 2 ^ e]. *)
Definition at_least_1e21 (m : positive) (e : Z) : bool :=
  match e with
  | Zneg k => 10 ^ 21 * 2 ^ Zpos k <=? Zpos m
  | _ => 10 ^ 21 <=? Zpos m * 2 ^ e
  end.

(** The digits of [n], padded on the left to at least three, with a point
    before the last two. *)
Definition fixed2_digits (n : Z) : string :=
  let m := decimal (Z.to_N n) in
  let m := zeros (3 - String.length m) ++ m in
  let k := String.length m in
  take_chars (k - 2) m ++ "." ++ drop_chars (k - 2) m.

Definition toFixed2 (x : number) : string :=
  match x with
  | S754_finite s m e =>
      (if s then "-" else "") ++
      (if at_least_1e21 m e then positive_to_string m e
       else fixed2_digits (hundredths m e))
  | S754_zero _ => "0.00"
  | _ => num_to_string x
  end.

(** ** Values *)

(** The values that reach the program: the scalars of a database row or of
    the arguments of a tool call, and [Date] objects, given by their time
    value in milliseconds ([None] for an invalid date). *)
Inductive value : Type :=
| VUndef
| VNull
| VBool (b : bool)
| VNum (x : number)
| VStr (s : string)
| VDate (t : option Z).

(** An object: its own properties.  Reading a property that is not there
    gives [undefined]. *)
Abbreviation obj := (gmap string value).

Definition get (o : obj) (k : string) : value := default VUndef (o !! k).

(** [ToBoolean]. *)
Definition truthy (v : value) : bool :=
  match v with
  | VUndef | VNull => false
  | VBool b => b
  | VNum (S754_zero _) | VNum S754_nan => false
  | VNum _ => true
  | VStr s => negb (String.eqb s "")
  | VDate _ => true
  end.

(** [a || b]. *)
Definition or_else (a b : value) : value := if truthy a then a else b.

(** [v === s] for a string [s]. *)
Definition is_string (v : value) (s : string) : bool :=
  match v with VStr t => String.eqb t s | _ => false end.

(** Digits of a numeral in base 2, 8 or 16, all of the string. *)
Definition digit_in (base : Z) (c : ascii) : option Z :=
  let n := code c in
  let d :=
    if (48 <=? n) && (n <=? 57) then n - 48
    else if (97 <=? n) && (n <=? 102) then n - 87
    else if (65 <=? n) && (n <=? 70) then n - 55
    else base in
  if d <? base then Some d else None.

Fixpoint read_base (base : Z) (s : string) (acc : Z) : option Z :=
  match s with
  | String c rest =>
      match digit_in base c with
      | Some d => read_base base rest (base * acc + d)
      | None => None
      end
  | EmptyString => Some acc
  end.

Definition non_decimal (s : string) : option Z :=
  match s with
  | String z (String b (String c rest)) =>
      if Ascii.eqb z "0" then
        let digits := String c rest in
        if Ascii.eqb b "x" || Ascii.eqb b "X" then read_base 16 digits 0
        else if Ascii.eqb b "o" || Ascii.eqb b "O" then read_base 8 digits 0
        else if Ascii.eqb b "b" || Ascii.eqb b "B" then read_base 2 digits 0
        else None
      else None
  | _ => None
  end.

(** [StringToNumber]: the whole trimmed string must be a numeral. *)
Definition string_to_number (s : string) : number :=
  let t := trim s in
  if String.eqb t "" then zero
  else
    match non_decimal t with
    | Some z => num_of_Z z
    | None =>
        match scan_signed t with
        | Some (x, EmptyString) => x
        | _ => NaN
        end
    end.

(** [ToNumber]. *)
Definition to_number (v : value) : number :=
  match v with
  | VUndef => NaN
  | VNull => zero
  | VBool b => if b then num_of_Z 1 else zero
  | VNum x => x
  | VStr s => string_to_number s
  | VDate (Some t) => num_of_Z t
  | VDate None => NaN
  end.

(** What the run-time environment decides about dates: the parser of date
    strings, the rendering of a date in the local time zone, and
    [setHours(h, m, s, ms)], which works in the local time zone. *)
Record Runtime : Type := {
  Date_parse : string -> option Z;
  Date_toString : option Z -> string;
  Date_setHours : Z -> Z -> Z -> Z -> Z -> option Z
}.

(** [ToString], as a template literal applies it. *)
Definition to_string (rt : Runtime) (v : value) : string :=
  match v with
  | VUndef => "undefined"
  | VNull => "null"
  | VBool b => if b then "true" else "false"
  | VNum x => num_to_string x
  | VStr s => s
  | VDate t => Date_toString rt t
  end.

(** [parseFloat]: the argument is converted to a string, then read.  The
    string of a [Date] starts with the name of a week day and that of an
    invalid one is ["Invalid Date"], so neither starts with a numeral. *)
Definition parseFloat (v : value) : number :=
  match v with
  | VUndef => parseFloat_string "undefined"
  | VNull => parseFloat_string "null"
  | VBool b => parseFloat_string (if b then "true" else "false")
  | VNum x => parseFloat_string (num_to_string x)
  | VStr s => parseFloat_string s
  | VDate _ => NaN
  end.

(** [isNaN]. *)
Definition isNaN (v : value) : bool := num_isNaN (to_number v).

(** ** Dates *)

(** Truncation of a finite number toward zero. *)
Definition num_trunc (x : number) : option Z :=
  match x with
  | S754_zero _ => Some 0
  | S754_finite s m e =>
      let '(num, den) := fraction m e in Some (cond_Zopp s (num / den))
  | _ => None
  end.

(** [TimeClip]. *)
Definition time_clip (x : number) : option Z :=
  match num_trunc x with
  | Some t => if Z.abs t <=? 8640000000000000 then Some t else None
  | None => None
  end.

(** [new Date(v)]: the time value of the new date. *)
Definition Date_new (rt : Runtime) (v : value) : option Z :=
  match v with
  | VDate t => t
  | VStr s => Date_parse rt s
  | _ => time_clip (to_number v)
  end.

(** [a < b] and [a > b] on two dates: a comparison with an invalid date is
    false. *)
Definition date_lt (a b : option Z) : bool :=
  match a, b with
  | Some x, Some y => x <? y
  | _, _ => false
  end.

Definition pad2 (n : Z) : string :=
  let d := decimal (Z.to_N n) in zeros (2 - String.length d) ++ d.

Definition pad_to (w : nat) (n : Z) : string :=
  let d := decimal (Z.to_N n) in zeros (w - String.length d) ++ d.

(** The civil date (year, month, day) of a day number counted from
    1970-01-01, in the proleptic Gregorian calendar. *)
Definition civil_of_days (days : Z) : Z * Z * Z :=
  let z := days + 719468 in
  let era := z / 146097 in
  let doe := z - era * 146097 in
  let yoe := (doe - doe / 1460 + doe / 36524 - doe / 146096) / 365 in
  let doy := doe - (365 * yoe + yoe / 4 - yoe / 100) in
  let mp := (5 * doy + 2) / 153 in
  let d := doy - (153 * mp + 2) / 5 + 1 in
  let m := if mp <? 10 then mp + 3 else mp - 9 in
  let y := yoe + era * 400 + (if m <=? 2 then 1 else 0) in
  (y, m, d).

(** [Date.prototype.toISOString] of a valid time value. *)
Definition toISOString (t : Z) : string :=
  let days := t / 86400000 in
  let ms := t mod 86400000 in
  let '(y, m, d) := civil_of_days days in
  let year :=
    if (0 <=? y) && (y <=? 9999) then pad_to 4 y
    else (if y <? 0 then "-" else "+") ++ pad_to 6 (Z.abs y) in
  year ++ "-" ++ pad2 m ++ "-" ++ pad2 d ++ "T" ++
  pad2 (ms / 3600000) ++ ":" ++ pad2 (ms / 60000 mod 60) ++ ":" ++
  pad2 (ms / 1000 mod 60) ++ "." ++ pad_to 3 (ms mod 1000) ++ "Z".

(** ** Exceptions *)

(** A thrown error, with its message.  A thrown value that has no message
    is not described. *)
Inductive exn : Type :=
| TypeError (message : string)
| RangeError (message : string)
| Error (message : string).

Definition exn_message (e : exn) : string :=
  match e with TypeError m | RangeError m | Error m => m end.

Inductive res (A : Type) : Type :=
| Ok (a : A)
| Throw (e : exn).
Arguments Ok {A} a.
Arguments Throw {A} e.

Definition res_bind {A B} (m : res A) (f : A -> res B) : res B :=
  match m with
  | Ok a => f a
  | Throw e => Throw e
  end.

Notation "'check' x <- m ;; k" := (res_bind m (fun x => k))
  (at level 10, x name, m at level 99, k at level 200).

(** [v.toLowerCase()]: only a string has the method. *)
Definition toLowerCase_of (v : value) : res string :=
  match v with
  | VStr s => Ok (toLowerCase s)
  | _ => Throw (TypeError "toLowerCase is not a function")
  end.

(** [new Date(v).toISOString()]. *)
Definition Date_toISOString (rt : Runtime) (v : value) : res string :=
  match Date_new rt v with
  | Some t => Ok (toISOString t)
  | None => Throw (RangeError "Invalid time value")
  end.

End JS.

(* ===================================================================== *)
(** * The controller: connection probe and transaction fetcher *)
(* ===================================================================== *)

Module Controller.
Import JS.

(** ** Asynchronous code: a result or an exception, and what was done *)

Inductive event : Type :=
| Connecting (name : string)
| Released (name : string)
| Failed (name : string) (attempts : nat)
| Sleeping (delay : Z).

Definition IO (A : Type) : Type := res A * list event.

Definition ret {A} (a : A) : IO A := (Ok a, []).
Definition throw {A} (e : exn) : IO A := (Throw e, []).
Definition emit (e : event) : IO unit := (Ok tt, [e]).

Definition bind {A B} (m : IO A) (f : A -> IO B) : IO B :=
  match m with
  | (Ok a, t) => let '(r, t') := f a in (r, (t ++ t')%list)
  | (Throw e, t) => (Throw e, t)
  end.

(** [try { m } catch (err) { h err }]. *)
Definition try_catch {A} (m : IO A) (h : exn -> IO A) : IO A :=
  match m with
  | (Ok a, t) => (Ok a, t)
  | (Throw e, t) => let '(r, t') := h e in (r, (t ++ t')%list)
  end.

(** [try { m } finally { f }], for an [f] that does not throw. *)
Definition finally {A} (m : IO A) (f : IO unit) : IO A :=
  let '(r, t) := m in (r, (t ++ snd f)%list).

Notation "'do' x <- m ;; k" := (bind m (fun x => k))
  (at level 10, x name, m at level 99, k at level 200).

(** ** [retryOptions] *)

Record RetryOptions : Type := {
  maxRetries : nat;
  retryDelay : Z;
  timeout : Z
}.

Definition retryOptions : RetryOptions :=
  {| maxRetries := 3; retryDelay := 1000; timeout := 5000 |}.

(** ** [testConnection] *)

(** What one attempt on a pool meets: [pool.connect()] rejects, the timer of
    the race fires first, the client is obtained and [SELECT 1] rejects, or
    the client is obtained and the query answers.  These are the attempts
    that settle: an attempt whose [SELECT 1] never settles is not
    described. *)
Inductive attempt : Type :=
| ConnectRejects (message : string)
| TimerFires
| QueryRejects (message : string)
| Answers.

(** A pool, as the probe sees it: what its successive attempts meet. *)
Definition Pool : Type := nat -> attempt.

(** [Promise.race([pool.connect(), timer])]: the client, or the rejection. *)
Definition race_connect (opts : RetryOptions) (pool : Pool) (name : string)
    (n : nat) : IO attempt :=
  do _ <- emit (Connecting name) ;;
  match pool n with
  | ConnectRejects m => throw (Error m)
  | TimerFires =>
      throw (Error ("Connection timeout after " ++
                    decimal (Z.to_N (timeout opts)) ++ "ms"))
  | a => ret a
  end.

(** [client.query("SELECT 1")] on the client of an attempt. *)
Definition select_1 (client : attempt) : IO unit :=
  match client with
  | QueryRejects m => throw (Error m)
  | _ => ret tt
  end.

(** The [while] loop of [testConnection]; [attempts] is its counter.  Every
    turn either returns or adds one to [attempts], so [fuel] counts the
    turns that are left before [attempts] reaches [maxRetries]. *)
Fixpoint testConnection_loop (opts : RetryOptions) (pool : Pool)
    (name : string) (fuel attempts : nat) : IO bool :=
  match fuel with
  | O => ret false
  | S fuel' =>
      if (attempts <? maxRetries opts)%nat then
        try_catch
          (do client <- race_connect opts pool name attempts ;;
           finally
             (try_catch (do _ <- select_1 client ;; ret true)
                        (fun queryError => throw queryError))
             (emit (Released name)))
          (fun err =>
             let attempts := S attempts in
             do _ <- emit (Failed name attempts) ;;
             do _ <- (if (attempts <? maxRetries opts)%nat
                   then
                     let delay := retryDelay opts * Z.of_nat attempts in
                     emit (Sleeping delay)
                   else ret tt) ;;
             testConnection_loop opts pool name fuel' attempts)
      else ret false
  end.

Definition testConnection_with (opts : RetryOptions) (pool : Pool)
    (name : string) : IO bool :=
  testConnection_loop opts pool name (maxRetries opts) 0.

Definition testConnection : Pool -> string -> IO bool :=
  testConnection_with retryOptions.

(** ** Formatting utilities *)

(** [formatCurrency]. *)
Definition formatCurrency (amount : value) : string :=
  let parsedAmount := parseFloat amount in
  if num_isNaN parsedAmount then "0.00" else toFixed2 parsedAmount.

(** [getLastFour]. *)
Definition getLastFour (accountNumber : value) : string :=
  match accountNumber with
  | VStr s => if negb (truthy accountNumber) then "****" else slice_last4 s
  | _ => "****"
  end.

(** [formatDate]. *)
Definition formatDate (rt : Runtime) (date : value) : string :=
  if negb (truthy date) then ""
  else
    match Date_toISOString rt date with
    | Ok iso => before_T iso
    | Throw _ => ""
    end.

(** ** [getTransactionData] *)

(** A row of [SELECT timestamp, amount, from_acct, to_acct FROM
    transactions]. *)
Record row : Type := {
  timestamp : value;
  amount : value;
  from_acct : value;
  to_acct : value
}.

(** A row of [SELECT firstname, lastname FROM users]. *)
Record user_row : Type := {
  firstname : value;
  lastname : value
}.

(** An entry of [Promise.allSettled]. *)
Inductive settled (A : Type) : Type :=
| Fulfilled (rows : A)
| Rejected (message : string).
Arguments Fulfilled {A} rows.
Arguments Rejected {A} message.

(** The two stores and the clock, as one call of [getTransactionData] meets
    them. *)
Record World : Type := {
  ledgerPool : Pool;
  accountsPool : Pool;
  ledger_query : string -> settled (list row);
  users_query : string -> settled (list user_row);
  now : Z
}.

Record response : Type := {
  accountOwner : string;
  accountNumber : string;
  transactions : list obj;
  response_timestamp : string
}.

Section WithRuntime.
Variable rt : Runtime.

(** The callback of [transactions.map]. *)
Definition processRow (accountId : string) (r : row) : obj :=
  let amount := parseFloat (or_else (amount r) (VNum zero)) in
  let isDebit := is_string (from_acct r) accountId in
  <[ "transactionDate" := timestamp r ]> (
  <[ "formattedDate" := VStr (formatDate rt (timestamp r)) ]> (
  <[ "amount" := VNum (if num_isNaN amount then zero else amount) ]> (
  <[ "fromAccount" := or_else (from_acct r) (VStr "") ]> (
  <[ "toAccount" := or_else (to_acct r) (VStr "") ]> (
  <[ "type" := VStr (if isDebit then "Debit" else "Credit") ]> (
  <[ "fromAccountLastFour" := VStr (getLastFour (from_acct r)) ]> (
  <[ "toAccountLastFour" := VStr (getLastFour (to_acct r)) ]> (
  <[ "formattedAmount" := VStr (formatCurrency (VNum amount)) ]> ∅)))))))).

(** The signed amount the balance loop adds for one transaction.  The
    [amount] property holds a Number (it is stored by [processRow]), so the
    [+=] is the addition of numbers. *)
Definition signedAmount (accountId : string) (transaction : obj) : number :=
  let isDebit := is_string (get transaction "fromAccount") accountId in
  if isDebit then num_neg (to_number (get transaction "amount"))
  else to_number (get transaction "amount").

(** The [forEach] that assigns the running balance; [balance] is the
    variable it updates. *)
Fixpoint assignBalances (accountId : string) (balance : number)
    (processedTransactions : list obj) : list obj :=
  match processedTransactions with
  | [] => []
  | transaction :: rest =>
      let balance := num_add balance (signedAmount accountId transaction) in
      <[ "formattedBalance" := VStr (formatCurrency (VNum balance)) ]>
        (<[ "balance" := VNum balance ]> transaction)
      :: assignBalances accountId balance rest
  end.

Definition ownerName (userData : user_row) : string :=
  let name :=
    trim (to_string rt (firstname userData) ++ " " ++
          to_string rt (lastname userData)) in
  if String.eqb name "" then "Unknown" else name.

(** [accountId] is a string: the chat endpoint checks that it is a
    non-blank string before the call.  The two probes run concurrently and
    do not depend on each other; the trace lists the events of the ledger
    probe, then those of the accounts probe. *)
Definition getTransactionData (w : World) (accountId : string)
  : IO response :=
  if String.eqb accountId "" then throw (Error "'accountId' is required")
  else
    do ledgerConnected <- testConnection (ledgerPool w) "ledger" ;;
    do accountsConnected <- testConnection (accountsPool w) "accounts" ;;
    if negb ledgerConnected then
      throw (Error "Database connection failed after multiple attempts. Please try again later.")
    else
      try_catch
        (let transactionResult := ledger_query w accountId in
         let userResult :=
           if accountsConnected then users_query w accountId
           else Rejected "Accounts database not available" in
         match transactionResult with
         | Rejected message =>
             throw (Error ("Transaction query failed: " ++ message))
         | Fulfilled transactions =>
             let userData :=
               match userResult with
               | Fulfilled (first :: _) => first
               | _ => {| firstname := VStr ""; lastname := VStr "" |}
               end in
             match transactions with
             | [] =>
                 ret {| accountOwner := ownerName userData;
                        accountNumber := getLastFour (VStr accountId);
                        transactions := [];
                        response_timestamp := toISOString (now w) |}
             | _ =>
                 let processedTransactions :=
                   map (processRow accountId) transactions in
                 let processedTransactions :=
                   assignBalances accountId zero processedTransactions in
                 ret {| accountOwner := ownerName userData;
                        accountNumber := getLastFour (VStr accountId);
                        transactions := processedTransactions;
                        response_timestamp := toISOString (now w) |}
             end
         end)
        (fun error =>
           throw (Error ("Failed to retrieve transaction data: " ++
                         exn_message error))).

End WithRuntime.

End Controller.

(* ===================================================================== *)
(** * The post-fetch engine of the chat endpoint *)
(* ===================================================================== *)

Module Engine.
Import JS.

(** The [result] property of a summary: an array of objects, or a scalar. *)
Inductive payload : Type :=
| PList (items : list obj)
| PValue (v : value).

(** The object [processTransactionDataForAI] returns; a property that the
    object literal does not have is [None]. *)
Record summary : Type := {
  result : payload;
  message : option string;
  unit : option string;
  description : option string
}.

(** The object [findLargestTransaction] returns; [result] is [null] or the
    redacted view of a transaction. *)
Record largest : Type := {
  largest_result : option obj;
  largest_message : string
}.

(** [array.length]. *)
Definition length_of {A} (l : list A) : number :=
  num_of_Z (Z.of_nat (length l)).

Section WithRuntime.
Variable rt : Runtime.

(** ** [filterTransactions] *)

(** [params.p && tx.f && tx.f.toLowerCase() !== params.p.toLowerCase()]. *)
Definition differs (params : obj) (p : string) (tx : obj) (f : string)
  : res bool :=
  if truthy (get params p) && truthy (get tx f) then
    check a <- toLowerCase_of (get tx f) ;;
    check b <- toLowerCase_of (get params p) ;;
    Ok (negb (String.eqb a b))
  else Ok false.

(** [tx.f && tx.f.toLowerCase().includes(needle)]. *)
Definition mentions (tx : obj) (f : string) (needle : string) : res bool :=
  if truthy (get tx f) then
    check a <- toLowerCase_of (get tx f) ;;
    Ok (includes a needle)
  else Ok false.

Definition excluded_by_recipient (params tx : obj) : res bool :=
  differs params "recipient" tx "toAccount".

Definition excluded_by_sender (params tx : obj) : res bool :=
  differs params "sender" tx "fromAccount".

Definition excluded_by_merchantName (params tx : obj) : res bool :=
  if truthy (get params "merchantName") then
    check merchantNameLower <- toLowerCase_of (get params "merchantName") ;;
    check inFrom <- mentions tx "fromAccount" merchantNameLower ;;
    if inFrom then Ok false
    else
      check inTo <- mentions tx "toAccount" merchantNameLower ;;
      Ok (negb inTo)
  else Ok false.

(** [date.setHours(h, m, s, ms)] on a date that may be invalid. *)
Definition setHours (date : option Z) (h m s ms : Z) : option Z :=
  match date with
  | Some t => Date_setHours rt t h m s ms
  | None => None
  end.

Definition excluded_by_startDate (params tx : obj) : bool :=
  if truthy (get params "startDate") then
    let startDate := Date_new rt (get params "startDate") in
    let startDate := setHours startDate 0 0 0 0 in
    let txDate := Date_new rt (get tx "transactionDate") in
    date_lt txDate startDate
  else false.

Definition excluded_by_endDate (params tx : obj) : bool :=
  if truthy (get params "endDate") then
    let endDate := Date_new rt (get params "endDate") in
    let endDate := setHours endDate 23 59 59 999 in
    let txDate := Date_new rt (get tx "transactionDate") in
    date_lt endDate txDate
  else false.

Definition excluded_by_category (params tx : obj) : res bool :=
  differs params "category" tx "category".

Definition excluded_by_transactionType (params tx : obj) : res bool :=
  differs params "transactionType" tx "transactionType".

(** The callback of [transactions.filter]: the tests in the order the
    source makes them; the first that excludes the transaction, or throws,
    ends it. *)
Definition keeps (params tx : obj) : res bool :=
  check out <- excluded_by_recipient params tx ;;
  if out then Ok false else
  check out <- excluded_by_sender params tx ;;
  if out then Ok false else
  check out <- excluded_by_merchantName params tx ;;
  if out then Ok false else
  if excluded_by_startDate params tx then Ok false else
  if excluded_by_endDate params tx then Ok false else
  check out <- excluded_by_category params tx ;;
  if out then Ok false else
  check out <- excluded_by_transactionType params tx ;;
  if out then Ok false else
  Ok true.

(** [Array.prototype.filter] with a callback that may throw. *)
Fixpoint filter_with (keep : obj -> res bool) (l : list obj)
  : res (list obj) :=
  match l with
  | [] => Ok []
  | tx :: rest =>
      check k <- keep tx ;;
      check rest' <- filter_with keep rest ;;
      Ok (if k then tx :: rest' else rest')
  end.

Definition filterTransactions (transactions : list obj) (userId : string)
    (params : obj) : res (list obj) :=
  filter_with (keeps params) transactions.

(** ** [processTransactionDataForAI] *)

(** The message of the empty result: each test that passes overwrites the
    message of the tests before it. *)
Definition emptyMessage (params : obj) : string :=
  let message := "No transactions found matching your criteria." in
  let message :=
    if truthy (get params "category")
    then "No transactions found in the '" ++
         to_string rt (get params "category") ++ "' category."
    else message in
  let message :=
    if truthy (get params "merchantName")
    then "No transactions found with '" ++
         to_string rt (get params "merchantName") ++ "'."
    else message in
  let message :=
    if truthy (get params "startDate") && truthy (get params "endDate")
    then "No transactions found between " ++
         to_string rt (get params "startDate") ++ " and " ++
         to_string rt (get params "endDate") ++ "."
    else message in
  message.

(** The callback of the [reduce] of [total_amount]. *)
Definition addAmount (userId : string) (params : obj) (sum : number)
    (tx : obj) : number :=
  let amount := parseFloat (or_else (get tx "amount") (VNum zero)) in
  if is_string (get tx "fromAccount") userId then num_add sum amount
  else if is_string (get tx "toAccount") userId then num_add sum amount
  else if truthy (get params "transactionType") then
    if is_string (get params "transactionType") "debit" &&
       is_string (get tx "transactionType") "debit" &&
       is_string (get tx "fromAccount") userId
    then num_add sum amount
    else if is_string (get params "transactionType") "credit" &&
            is_string (get tx "transactionType") "credit" &&
            is_string (get tx "toAccount") userId
    then num_add sum amount
    else sum
  else sum.

(** The redacted view of a transaction in a list. *)
Definition formatTx (tx : obj) : obj :=
  <[ "date" := get tx "formattedDate" ]> (
  <[ "description" := get tx "description" ]> (
  <[ "amount" := get tx "formattedAmount" ]> (
  <[ "type" := get tx "transactionType" ]> (
  <[ "from" := get tx "fromAccountLastFour" ]> (
  <[ "to" := get tx "toAccountLastFour" ]> ∅))))).

Definition foundMessage (formattedTx : list obj) : string :=
  "Found " ++ num_to_string (length_of formattedTx) ++
  " matching transactions.".

Definition processTransactionDataForAI (transactions : list obj)
    (userId : string) (params : obj) : res summary :=
  check filteredTx <- filterTransactions transactions userId params ;;
  match filteredTx with
  | [] =>
      Ok {| result := PList []; message := Some (emptyMessage params);
            unit := None; description := None |}
  | _ =>
      if is_string (get params "summaryType") "count" then
        let count := length_of filteredTx in
        Ok {| result := PValue (VNum count); message := None;
              unit := Some "count";
              description := Some "Number of transactions" |}
      else if is_string (get params "summaryType") "total_amount" then
        let total := fold_left (addAmount userId params) filteredTx zero in
        Ok {| result := PValue (VNum total); message := None;
              unit := Some "currency";
              description := Some "Total amount" |}
      else if is_string (get params "summaryType") "list" then
        let formattedTx := map formatTx filteredTx in
        Ok {| result := PList formattedTx;
              message := Some (foundMessage formattedTx);
              unit := None; description := None |}
      else
        let formattedTx := map formatTx filteredTx in
        Ok {| result := PList formattedTx;
              message := Some (foundMessage formattedTx);
              unit := None; description := None |}
  end.

(** ** [findLargestTransaction] *)

(** [Math.abs(parseFloat(tx.amount || 0))]. *)
Definition absAmount (tx : obj) : number :=
  SFabs (parseFloat (or_else (get tx "amount") (VNum zero))).

(** The callback of the [reduce]: the current transaction replaces the
    largest so far only when its amount is strictly greater. *)
Definition larger (maxTx currentTx : obj) : obj :=
  let maxAmount := absAmount maxTx in
  let currentAmount := absAmount currentTx in
  if num_ltb maxAmount currentAmount then currentTx else maxTx.

Definition findLargestTransaction (transactions : list obj)
    (userId : string) (params : obj) : res largest :=
  check filteredTx <- filterTransactions transactions userId params ;;
  match filteredTx with
  | [] =>
      Ok {| largest_result := None;
            largest_message :=
              "No transactions found for the given criteria." |}
  | first :: _ =>
      let largestTx := fold_left larger filteredTx first in
      Ok {| largest_result := Some (formatTx largestTx);
            largest_message := "Largest transaction found." |}
  end.

End WithRuntime.

End Engine.

(* ===================================================================== *)
(** * The chat endpoint *)
(* ===================================================================== *)

Module Endpoint.
Import JS Controller Engine.

(** ** What the reasoning service returns *)

Record functionCall : Type := {
  name : string;
  args : option obj
}.

(** A part of a candidate: a function call, when it has one, and its text
    (empty when it has none). *)
Record part : Type := {
  part_functionCall : option functionCall;
  part_text : string
}.

Record candidate : Type := {
  content_parts : option (list part)
}.

Record modelResponse : Type := {
  candidates : option (list candidate)
}.

(** ** What the endpoint sends *)

(** The object sent back to the service as the response of the function. *)
Inductive toolPayload : Type :=
| NotImplemented (error : string)
| NoTransactions (message accountOwner accountNumber : string)
| Summarized (s : summary) (accountOwner accountNumber : string)
             (requestParams : option obj).

(** The HTTP reply: [200 {answer}] or a status with [{error}]. *)
Inductive httpReply : Type :=
| Answer (answer : string)
| Failure (status : nat) (error : string).

Definition status_of (r : httpReply) : nat :=
  match r with
  | Answer _ => 200%nat
  | Failure status _ => status
  end.

(** The service and the stores, as one request meets them: whether the
    model was initialised, what [chat.sendMessage] returns for the question,
    and what it returns for the response of a function.  Both calls
    settle, and what they reject with is an error with a message. *)
Record Service : Type := {
  modelReady : bool;
  stores : World;
  firstTurn : string -> res modelResponse;
  secondTurn : string -> toolPayload -> res modelResponse
}.

(** A computation that returns or throws, without events. *)
Definition lift {A} (r : res A) : IO A := (r, []).

(** The double quote. *)
Definition quote : string := String (ascii_of_N 34) "".

(** [!v || typeof v !== "string" || v.trim() === ""] fails: the string. *)
Definition nonblank (v : value) : option string :=
  match v with
  | VStr s =>
      if negb (truthy v) || String.eqb (trim s) "" then None else Some s
  | _ => None
  end.

(** The loop over the parts of the first response: it stops at the first
    function call; before it, it collects the texts. *)
Fixpoint scanParts (parts : list part) (directTextResponse : string)
  : option functionCall * string :=
  match parts with
  | [] => (None, directTextResponse)
  | p :: rest =>
      match part_functionCall p with
      | Some fc => (Some fc, directTextResponse)
      | None =>
          scanParts rest
            (if String.eqb (part_text p) "" then directTextResponse
             else directTextResponse ++ part_text p)
      end
  end.

Definition extract (response : modelResponse)
  : option functionCall * string :=
  match candidates response with
  | Some (first :: _) =>
      match content_parts first with
      | Some parts => scanParts parts ""
      | None => (None, "")
      end
  | _ => (None, "")
  end.

(** The loop over the parts of the second response: all the texts. *)
Fixpoint collectText (parts : list part) (finalAnswer : string) : string :=
  match parts with
  | [] => finalAnswer
  | p :: rest =>
      collectText rest
        (if String.eqb (part_text p) "" then finalAnswer
         else finalAnswer ++ part_text p)
  end.

Definition finalText (response : modelResponse) : string :=
  match candidates response with
  | Some (first :: _) =>
      match content_parts first with
      | Some parts => collectText parts ""
      | None => ""
      end
  | _ => ""
  end.

Section WithRuntime.
Variable rt : Runtime.

(** [processTransactionDataForAI(transactions, userId, functionArgs)]: with
    no arguments in the call, reading [params.summaryType] throws. *)
Definition processArgs (transactions : list obj) (userId : string)
    (functionArgs : option obj) : res summary :=
  match functionArgs with
  | Some params => processTransactionDataForAI rt transactions userId params
  | None =>
      Throw (TypeError "Cannot read properties of undefined (reading 'summaryType')")
  end.

(** The execution of the function the service asked for.  The answer of
    [getTransactionData] has no [error] and no [message] property, so the
    test on [error] fails and the message is the default one. *)
Definition executeTool (svc : Service) (userId : string)
    (fc : functionCall) : IO toolPayload :=
  if String.eqb (name fc) "getTransactionSummary" then
    do transactionDataResult <- getTransactionData rt (stores svc) userId ;;
    match transactions transactionDataResult with
    | [] =>
        ret (NoTransactions "No transactions found for your account."
               (accountOwner transactionDataResult)
               (accountNumber transactionDataResult))
    | _ =>
        do s <- lift (processArgs (transactions transactionDataResult)
                                  userId (args fc)) ;;
        ret (Summarized s (accountOwner transactionDataResult)
               (accountNumber transactionDataResult) (args fc))
    end
  else
    ret (NotImplemented ("Function " ++ quote ++ name fc ++ quote ++
                         " is not implemented in the backend.")).

(** The handler of [POST /chat]; [body] is the parsed body of the
    request. *)
Definition chat (svc : Service) (body : obj) : IO httpReply :=
  match nonblank (get body "userId") with
  | None => ret (Failure 400 "Invalid or missing userId in request body.")
  | Some userId =>
  match nonblank (get body "question") with
  | None => ret (Failure 400 "Invalid or missing question in request body.")
  | Some question =>
  if negb (modelReady svc) then ret (Failure 500 "Chat service is not ready.")
  else
    try_catch
      (do response <- lift (firstTurn svc question) ;;
       let '(functionCall, directTextResponse) := extract response in
       match functionCall with
       | Some fc =>
           do functionResponsePayload <- executeTool svc userId fc ;;
           do apiResponse <-
             lift (secondTurn svc (name fc) functionResponsePayload) ;;
           let finalAnswer := finalText apiResponse in
           if String.eqb finalAnswer "" then
             ret (Failure 500
                    "Could not generate a final answer based on the data.")
           else ret (Answer finalAnswer)
       | None =>
           if String.eqb directTextResponse "" then
             ret (Failure 500
                    "Could not understand your request or retrieve relevant information.")
           else ret (Answer directTextResponse)
       end)
      (fun error =>
         if includes (exn_message error) "Database connection failed" then
           ret (Failure 503
                  "The service is temporarily unavailable. Please try again in a few minutes.")
         else
           ret (Failure 500
                  "An internal error occurred while processing your request."))
  end
  end.

End WithRuntime.

End Endpoint.

(* ===================================================================== *)
(** * A host in the UTC time zone *)
(* ===================================================================== *)

(** One run-time environment, used to run the definitions on examples: the
    local time zone is UTC and the date parser reads the calendar form
    [YYYY-MM-DD]. *)
Module UtcHost.
Import JS.

(** The day number, counted from 1970-01-01, of a civil date. *)
Definition days_of_civil (y m d : Z) : Z :=
  let y := if m <=? 2 then y - 1 else y in
  let era := y / 400 in
  let yoe := y - era * 400 in
  let doy := (153 * (if 2 <? m then m - 3 else m + 9) + 2) / 5 + d - 1 in
  let doe := yoe * 365 + yoe / 4 - yoe / 100 + doy in
  era * 146097 + doe - 719468.

Definition read_field (s : string) : option Z :=
  match scan_digits s 0 0 with
  | (v, n, EmptyString) => if n =? 0 then None else Some v
  | _ => None
  end.

Definition parse (s : string) : option Z :=
  if (String.length s =? 10)%nat &&
     String.eqb (take_chars 1 (drop_chars 4 s)) "-" &&
     String.eqb (take_chars 1 (drop_chars 7 s)) "-"
  then
    match read_field (take_chars 4 s),
          read_field (take_chars 2 (drop_chars 5 s)),
          read_field (drop_chars 8 s) with
    | Some y, Some m, Some d =>
        if (1 <=? m) && (m <=? 12) && (1 <=? d) && (d <=? 31)
        then Some (days_of_civil y m d * 86400000)
        else None
    | _, _, _ => None
    end
  else None.

Definition day_name (n : Z) : string :=
  nth (Z.to_nat n) ["Sun"; "Mon"; "Tue"; "Wed"; "Thu"; "Fri"; "Sat"] "".

Definition month_name (n : Z) : string :=
  nth (Z.to_nat (n - 1))
      ["Jan"; "Feb"; "Mar"; "Apr"; "May"; "Jun";
       "Jul"; "Aug"; "Sep"; "Oct"; "Nov"; "Dec"] "".

Definition render (t : option Z) : string :=
  match t with
  | None => "Invalid Date"
  | Some t =>
      let days := t / 86400000 in
      let ms := t mod 86400000 in
      let '(y, m, d) := civil_of_days days in
      day_name ((days + 4) mod 7) ++ " " ++ month_name m ++ " " ++
      pad2 d ++ " " ++ pad_to 4 y ++ " " ++
      pad2 (ms / 3600000) ++ ":" ++ pad2 (ms / 60000 mod 60) ++ ":" ++
      pad2 (ms / 1000 mod 60) ++ " GMT+0000 (Coordinated Universal Time)"
  end.

Definition set_hours (t h m s ms : Z) : option Z :=
  let t' := t - t mod 86400000 + ((h * 60 + m) * 60 + s) * 1000 + ms in
  if Z.abs t' <=? 8640000000000000 then Some t' else None.

Definition runtime : Runtime :=
  {| Date_parse := parse; Date_toString := render;
     Date_setHours := set_hours |}.

End UtcHost.

(* ===================================================================== *)
(** * Notions used to state the properties *)
(* ===================================================================== *)

Module Spec.
Import JS Controller.

(** ** Reading the trace of a probe *)

(** Number of connection attempts. *)
Fixpoint connections (t : list event) : nat :=
  match t with
  | Connecting _ :: rest => S (connections rest)
  | _ :: rest => connections rest
  | [] => O
  end.

(** The attempt numbers reported as failed, in order. *)
Fixpoint failures (t : list event) : list nat :=
  match t with
  | Failed _ k :: rest => k :: failures rest
  | _ :: rest => failures rest
  | [] => []
  end.

(** The delays slept, in order. *)
Fixpoint delays (t : list event) : list Z :=
  match t with
  | Sleeping d :: rest => d :: delays rest
  | _ :: rest => delays rest
  | [] => []
  end.

(** The pacing of the retries: a pause comes only right after the report of
    a failed attempt; after failure number [k] it lasts [retryDelay * k]
    when [k] is below [maxRetries], and there is none otherwise. *)
Fixpoint paced (opts : RetryOptions) (t : list event) : Prop :=
  match t with
  | Failed _ k :: rest =>
      if (k <? maxRetries opts)%nat then
        match rest with
        | Sleeping d :: rest' =>
            d = retryDelay opts * Z.of_nat k /\ paced opts rest'
        | _ => False
        end
      else paced opts rest
  | Sleeping _ :: _ => False
  | _ :: rest => paced opts rest
  | [] => True
  end.

(** Number of clients released. *)
Fixpoint releases (t : list event) : nat :=
  match t with
  | Released _ :: rest => S (releases rest)
  | _ :: rest => releases rest
  | [] => O
  end.

(** The attempt obtains a client: the connection won the race. *)
Definition obtains (a : attempt) : bool :=
  match a with
  | QueryRejects _ | Answers => true
  | ConnectRejects _ | TimerFires => false
  end.

(** Among the attempts number [from], ..., [from + count - 1] on a pool,
    those that obtain a client. *)
Definition obtained (pool : Pool) (from count : nat) : nat :=
  length (List.filter obtains (map pool (seq from count))).

(** An attempt that does not end with an answer to [SELECT 1]. *)
Definition fails (a : attempt) : Prop := a <> Answers.

(** What holds of a run of the loop started with [attempts] failures
    behind it. *)
Definition probe_invariant (opts : RetryOptions) (pool : Pool)
    (attempts : nat) (connected : bool) (t : list event) : Prop :=
  (connections t <= maxRetries opts - attempts)%nat /\
  failures t = seq (S attempts) (length (failures t)) /\
  delays t = map (fun k => retryDelay opts * Z.of_nat k)
                 (seq (S attempts) (length (delays t))) /\
  (length (delays t) <= maxRetries opts - S attempts)%nat /\
  paced opts t /\
  ((forall n, (attempts <= n < maxRetries opts)%nat -> fails (pool n)) ->
   connected = false /\
   connections t = (maxRetries opts - attempts)%nat /\
   failures t = seq (S attempts) (maxRetries opts - attempts)) /\
  (connected = true ->
   exists n, (attempts <= n < maxRetries opts)%nat /\ pool n = Answers).

(** ** The order of the ledger rows *)

(** The time value of a timestamp; a row without one has none. *)
Definition time_of (v : value) : option Z :=
  match v with VDate t => t | _ => None end.

(** [ORDER BY timestamp DESC] between two neighbours: the first is not
    earlier than the second; rows without a timestamp come first. *)
Definition not_before (a b : value) : bool :=
  match time_of a, time_of b with
  | None, _ => true
  | Some _, None => false
  | Some x, Some y => y <=? x
  end.

Definition descending (l : list value) : Prop :=
  Sorted (fun a b => not_before a b = true) l.

(** ** The identity store *)

(** The name the answer carries, by what the identity store gave. *)
Definition resolvedOwner (rt : Runtime) (w : World) (accountId : string)
    (accountsConnected : bool) : string :=
  ownerName rt
    match (if accountsConnected then users_query w accountId
           else Rejected "Accounts database not available") with
    | Fulfilled (first :: _) => first
    | _ => {| firstname := VStr ""; lastname := VStr "" |}
    end.

(** The identity store gives no name for the account: its probe failed, its
    query was rejected, it returned no row, or the names of the first row
    are empty. *)
Definition identity_unavailable (w : World) (accountId : string) : Prop :=
  (exists t, testConnection (accountsPool w) "accounts" = (Ok false, t)) \/
  (exists m, users_query w accountId = Rejected m) \/
  users_query w accountId = Fulfilled [] \/
  (exists first others,
      users_query w accountId = Fulfilled (first :: others) /\
      firstname first = VStr "" /\ lastname first = VStr "").

(** ** Amounts written with two decimals *)

Definition is_digit (c : ascii) : bool :=
  match digit_of c with Some _ => true | None => false end.

Fixpoint all_digits (s : string) : bool :=
  match s with
  | String c rest => is_digit c && all_digits rest
  | EmptyString => true
  end.

(** Digits, then a point and exactly two digits. *)
Fixpoint fixed2_tail (s : string) : bool :=
  match s with
  | String c rest =>
      if Ascii.eqb c "."
      then (String.length rest =? 2)%nat && all_digits rest
      else is_digit c && fixed2_tail rest
  | EmptyString => false
  end.

Definition unsigned_fixed2 (s : string) : bool :=
  match s with
  | String c _ => is_digit c && fixed2_tail s
  | EmptyString => false
  end.

(** The string is an optional minus sign, one digit or more, a point and
    exactly two digits. *)
Definition two_decimals (s : string) : bool :=
  match s with
  | String c rest =>
      if Ascii.eqb c "-" then unsigned_fixed2 rest else unsigned_fixed2 s
  | EmptyString => false
  end.

Fixpoint read_fixed2 (s : string) (acc : Z) : option Z :=
  match s with
  | String c rest =>
      if Ascii.eqb c "." then
        let '(v, n, r) := scan_digits rest acc 0 in
        if (n =? 2) && String.eqb r "" then Some v else None
      else
        match digit_of c with
        | Some d => read_fixed2 rest (10 * acc + d)
        | None => None
        end
  | EmptyString => None
  end.

(** The number a string of digits writes, continuing from [acc]. *)
Fixpoint digits_val (s : string) (acc : Z) : Z :=
  match s with
  | String c rest =>
      match digit_of c with
      | Some d => digits_val rest (10 * acc + d)
      | None => acc
      end
  | EmptyString => acc
  end.

(** The number a decimal numeral of the standard library writes, continuing
    from [acc]. *)
Fixpoint uint_val (d : Decimal.uint) (acc : Z) : Z :=
  match d with
  | Decimal.Nil => acc
  | Decimal.D0 d => uint_val d (10 * acc + 0)
  | Decimal.D1 d => uint_val d (10 * acc + 1)
  | Decimal.D2 d => uint_val d (10 * acc + 2)
  | Decimal.D3 d => uint_val d (10 * acc + 3)
  | Decimal.D4 d => uint_val d (10 * acc + 4)
  | Decimal.D5 d => uint_val d (10 * acc + 5)
  | Decimal.D6 d => uint_val d (10 * acc + 6)
  | Decimal.D7 d => uint_val d (10 * acc + 7)
  | Decimal.D8 d => uint_val d (10 * acc + 8)
  | Decimal.D9 d => uint_val d (10 * acc + 9)
  end.

(** The amount, in hundredths, that a string with two decimals denotes. *)
Definition amount_of (s : string) : option Z :=
  match s with
  | String c rest =>
      if Ascii.eqb c "-" then Z.opp <$> read_fixed2 rest 0
      else read_fixed2 s 0
  | EmptyString => None
  end.

(** [a <= b] on two strings: the order of their code units. *)
Fixpoint str_leb (a b : string) : bool :=
  match a, b with
  | EmptyString, _ => true
  | String _ _, EmptyString => false
  | String x a', String y b' =>
      if code x <? code y then true
      else if code y <? code x then false
      else str_leb a' b'
  end.

(** The numbers [toFixed(2)] writes in fixed notation: the finite ones
    below [10 ^ 21] in magnitude. *)
Definition below_1e21 (x : number) : bool :=
  match x with
  | S754_zero _ => true
  | S754_finite _ m e => negb (at_least_1e21 m e)
  | _ => false
  end.

(** The amount [x], rounded to hundredths (ties away from zero), in
    hundredths. *)
Definition cents (x : number) : Z :=
  match x with
  | S754_finite s m e => cond_Zopp s (hundredths m e)
  | _ => 0
  end.

(** ** Ends of strings *)




(** The properties of a transaction returned by [getTransactionData]. *)
Definition fetched_keys : gset string :=
  list_to_set
    ["transactionDate"; "formattedDate"; "amount"; "fromAccount";
     "toAccount"; "type"; "fromAccountLastFour"; "toAccountLastFour";
     "formattedAmount"; "balance"; "formattedBalance"].

(** The properties of the redacted view of a transaction. *)
Definition redacted_keys : gset string :=
  list_to_set ["date"; "description"; "amount"; "type"; "from"; "to"].

(** ** Signed amounts *)

(** The signed amount of a transaction for an account, in the words of the
    specification: the amount of the transaction, negative when its
    [fromAccount] is the account, positive otherwise. *)
Definition amount_held (tx : obj) : number := to_number (get tx "amount").

Definition signed (accountId : string) (tx : obj) : number :=
  if is_string (get tx "fromAccount") accountId
  then num_neg (amount_held tx)
  else amount_held tx.

(** ** Totals *)

(** The amount of a transaction as the total reads it. *)
Definition parsedAmount (tx : obj) : number :=
  parseFloat (or_else (get tx "amount") (VNum zero)).

(** The transaction has the account on one of its two sides. *)
Definition involves (userId : string) (tx : obj) : bool :=
  is_string (get tx "fromAccount") userId ||
  is_string (get tx "toAccount") userId.

(** The sum of a list of numbers, taken from the left, starting at zero. *)
Definition sum_of (l : list number) : number := fold_left num_add l zero.

(** ** Filters *)

(** A value that is falsy or a string: what a text column, and a text
    argument of the tool, holds. *)
Definition textual (v : value) : Prop :=
  truthy v = false \/ exists s, v = VStr s.

(** ** The endpoint *)

(** A character of the ASCII range that shows: neither a control
    character nor a space. *)
Definition is_visible (c : ascii) : bool :=
  (33 <=? code c) && (code c <=? 126).

Fixpoint has_visible (s : string) : bool :=
  match s with
  | String c rest => is_visible c || has_visible rest
  | EmptyString => false
  end.


(** A string made of ASCII white space only (tab, line feed, vertical tab,
    form feed, carriage return, space); the empty string is one. *)
Fixpoint all_spaces (s : string) : bool :=
  match s with
  | String c rest => is_space c && all_spaces rest
  | EmptyString => true
  end.

(** A value that is not a string, or is a string of ASCII white space
    only. *)
Definition blank (v : value) : Prop :=
  match v with
  | VStr s => all_spaces s = true
  | _ => True
  end.

(** A body whose [userId] and [question] are strings that each show a
    character. *)
Definition legible (body : obj) (userId question : string) : Prop :=
  get body "userId" = VStr userId /\ has_visible userId = true /\
  get body "question" = VStr question /\ has_visible question = true.

(** A body that passes the validation of the endpoint: [userId] and
    [question] are strings with a character that is not a space. *)
Definition well_formed (body : obj) (userId question : string) : Prop :=
  get body "userId" = VStr userId /\ trim userId <> "" /\
  get body "question" = VStr question /\ trim question <> "".

(** The replies of the endpoint that do not come from the service. *)
Definition unavailable : Endpoint.httpReply :=
  Endpoint.Failure 503
    "The service is temporarily unavailable. Please try again in a few minutes.".

Definition internal_error : Endpoint.httpReply :=
  Endpoint.Failure 500
    "An internal error occurred while processing your request.".

(** The reply made from the response of the second turn. *)
Definition final_reply (response : res Endpoint.modelResponse)
  : Endpoint.httpReply :=
  match response with
  | Ok r =>
      if String.eqb (Endpoint.finalText r) ""
      then Endpoint.Failure 500
             "Could not generate a final answer based on the data."
      else Endpoint.Answer (Endpoint.finalText r)
  | Throw e =>
      if includes (exn_message e) "Database connection failed"
      then unavailable else internal_error
  end.

(** The texts of the parts, in order. *)
Definition texts (parts : list Endpoint.part) : string :=
  fold_right (fun p acc => Endpoint.part_text p ++ acc) "" parts.

(** A response whose first candidate has these parts. *)
Definition responding (parts : list Endpoint.part)
    (others : list Endpoint.candidate) : Endpoint.modelResponse :=
  {| Endpoint.candidates :=
       Some ({| Endpoint.content_parts := Some parts |} :: others) |}.

(** The payload without the echo of the arguments. *)
Definition without_echo (p : Endpoint.toolPayload) : Endpoint.toolPayload :=
  match p with
  | Endpoint.Summarized s owner number _ =>
      Endpoint.Summarized s owner number None
  | _ => p
  end.

(** The outcome of an asynchronous call, seen through [f]. *)
Definition outcome {A B} (f : A -> B) (m : Controller.IO A)
  : Controller.IO B :=
  match m with
  | (Ok a, t) => (Ok (f a), t)
  | (Throw e, t) => (Throw e, t)
  end.

(** The arguments of the tool that the processing reads. *)
Definition tool_arguments : list string :=
  ["summaryType"; "recipient"; "sender"; "merchantName"; "startDate";
   "endDate"; "category"; "transactionType"].

(** The message of an answer, when there is an answer. *)
Definition message_of (r : res Engine.summary) : option (option string) :=
  match r with
  | Ok s => Some (Engine.message s)
  | Throw _ => None
  end.

(** The answers to a [count] and to a [list] request fit together: both
    are empty, or the number counts the items; and both throw alike. *)
Definition count_fits_list (counted listed : res Engine.summary) : Prop :=
  match counted, listed with
  | Ok c, Ok l =>
      match Engine.result l with
      | Engine.PList [] => Engine.result c = Engine.PList []
      | Engine.PList items =>
          Engine.result c = Engine.PValue (VNum (Engine.length_of items)) /\
          Engine.unit c = Some "count"
      | Engine.PValue _ => False
      end
  | Throw e, Throw e' => e = e'
  | _, _ => False
  end.

(** The arguments of the tool compared as text. *)
Definition text_filters : list string :=
  ["recipient"; "sender"; "merchantName"; "category"; "transactionType"].

(** A parameter that is absent, or present with a value that counts as
    absent ([undefined], [null], the empty string, ...). *)
Definition not_supplied (params : obj) (p : string) : Prop :=
  truthy (get params p) = false.

Definition supplied (params : obj) (p : string) : bool :=
  truthy (get params p).

End Spec.

(* ===================================================================== *)
(** * A worked scenario *)
(* ===================================================================== *)

(** Account [A1] on a host in UTC: the ledger returns a credit of 50 dated
    2024-01-02 and then a debit of 100 dated 2024-01-01; the ledger answers
    at its second attempt and the identity store is down. *)
Module Scenario.
Import JS Controller.

Definition rows : list row :=
  [ {| timestamp := VDate (Some 1704153600000); amount := VStr "50.00";
       from_acct := VStr "B"; to_acct := VStr "A1" |};
    {| timestamp := VDate (Some 1704067200000); amount := VStr "100.00";
       from_acct := VStr "A1"; to_acct := VStr "B" |} ].

Definition world : World :=
  {| ledgerPool := fun n => match n with O => TimerFires | _ => Answers end;
     accountsPool := fun _ => ConnectRejects "connection refused";
     ledger_query := fun _ => Fulfilled rows;
     users_query := fun _ => Fulfilled [];
     now := 1704153600123 |}.

Definition run : IO response :=
  getTransactionData UtcHost.runtime world "A1".

Definition no_answer : response :=
  {| accountOwner := ""; accountNumber := ""; transactions := [];
     response_timestamp := "" |}.

(** What the run returns. *)
Definition answer : response :=
  Eval vm_compute in
    match fst run with
    | Ok r => r
    | Throw _ => no_answer
    end.

Definition trace : list event := Eval vm_compute in snd run.

Definition fetched : list obj := transactions answer.

Definition params (l : list (string * value)) : obj := list_to_map l.

(** A transaction that names no account, and a call that names a
    recipient. *)
Definition anonymous : obj := params [("amount", VStr "5")].

Definition to_bob : obj :=
  params [("summaryType", VStr "list"); ("recipient", VStr "bob")].

(** Arguments of tool calls. *)
Definition by_category : obj :=
  params [("summaryType", VStr "list"); ("category", VStr "groceries");
          ("transactionType", VStr "debit")].

Definition by_category_and_merchant : obj :=
  params [("summaryType", VStr "count"); ("category", VStr "groceries");
          ("merchantName", VStr "Shoprite")].

Definition total : obj := params [("summaryType", VStr "total_amount")].

Definition unknown_kind : obj := params [("summaryType", VStr "average")].

(** A request, and services that answer it with a call of the tool. *)
Definition request : obj :=
  params [("userId", VStr "A1"); ("question", VStr "How much did I spend?")].

Definition asks (fc : Endpoint.functionCall) : Endpoint.modelResponse :=
  Spec.responding
    [{| Endpoint.part_functionCall := Some fc; Endpoint.part_text := "" |}] [].

Definition says (text : string) : Endpoint.modelResponse :=
  Spec.responding
    [{| Endpoint.part_functionCall := None; Endpoint.part_text := text |}] [].

Definition summary_call (args : option obj) : Endpoint.functionCall :=
  {| Endpoint.name := "getTransactionSummary"; Endpoint.args := args |}.

Definition service (w : World) (fc : Endpoint.functionCall)
  : Endpoint.Service :=
  {| Endpoint.modelReady := true;
     Endpoint.stores := w;
     Endpoint.firstTurn := fun _ => Ok (asks fc);
     Endpoint.secondTurn := fun _ _ => Ok (says "Done.") |}.

(** Stores whose ledger cannot be reached. *)
Definition down : World :=
  {| ledgerPool := fun _ => ConnectRejects "connection refused";
     accountsPool := fun _ => Answers;
     ledger_query := fun _ => Fulfilled rows;
     users_query := fun _ => Fulfilled [];
     now := 1704153600123 |}.

End Scenario.

(* ===================================================================== *)
(** * Properties *)
(* ===================================================================== *)

Import JS.

(** ** The run-time model on known values *)

Example parseFloat_samples :
  map parseFloat_string
      ["0.1"; "  -12.50abc"; ".5e1"; "5."; "1e"; "abc"; "-0";
       "9007199254740993"; "1e400"; "5e-324"]
  = [S754_finite false 7205759403792794 (-56);
     S754_finite true 7036874417766400 (-49);
     S754_finite false 5629499534213120 (-50);
     S754_finite false 5629499534213120 (-50);
     S754_finite false 4503599627370496 (-52);
     S754_nan; S754_zero true;
     S754_finite false 4503599627370496 1;
     S754_infinity false;
     S754_finite false 1 (-1074)].
Proof. vm_compute. reflexivity. Qed.

Example num_add_sample :
  num_to_string (num_add (parseFloat_string "0.1") (parseFloat_string "0.2"))
  = "0.30000000000000004".
Proof. vm_compute. reflexivity. Qed.

Example num_to_string_samples :
  map (fun s => num_to_string (parseFloat_string s))
      ["5"; "123.456"; "1e21"; "123456789012345680000"; "1e-7"; "0.000001";
       "-0.5"; "1.7976931348623157e308"; "4.35"]
  = ["5"; "123.456"; "1e+21"; "123456789012345680000"; "1e-7"; "0.000001";
     "-0.5"; "1.7976931348623157e+308"; "4.35"].
Proof. vm_compute. reflexivity. Qed.

Example toFixed2_samples :
  map (fun s => toFixed2 (parseFloat_string s))
      ["1.005"; "0.125"; "2.5"; "10.235"; "1234.5678"; "-0.001"; "-0";
       "999999999999999900000"; "1e21"; "-Infinity"]
  = ["1.00"; "0.13"; "2.50"; "10.23"; "1234.57"; "-0.00"; "0.00";
     "999999999999999868928.00"; "1e+21"; "-Infinity"].
Proof. vm_compute. reflexivity. Qed.

Example toISOString_samples :
  map toISOString [0; 1704153600123; -1; 951782400000]
  = ["1970-01-01T00:00:00.000Z"; "2024-01-02T00:00:00.123Z";
     "1969-12-31T23:59:59.999Z"; "2000-02-29T00:00:00.000Z"].
Proof. vm_compute. reflexivity. Qed.

Example truthy_samples :
  map truthy [VUndef; VNull; VStr ""; VStr "0"; VNum zero; VNum NaN;
              VNum (num_of_Z 1); VBool false; VDate None]
  = [false; false; false; true; false; false; true; false; true].
Proof. reflexivity. Qed.

(** ** Strings *)

Section StringFacts.

Lemma append_cons (c : ascii) (a b : string) :
  String c a ++ b = String c (a ++ b).
Proof. reflexivity. Qed.

Lemma append_nil (b : string) : "" ++ b = b.
Proof. reflexivity. Qed.

Lemma length_append (a b : string) :
  String.length (a ++ b) = (String.length a + String.length b)%nat.
Proof. induction a as [|c a IH]; simpl; [reflexivity | now rewrite IH]. Qed.

Lemma drop_chars_suffix (n : nat) (s : string) :
  (n <= String.length s)%nat ->
  exists front,
    s = front ++ drop_chars n s /\
    String.length front = n /\
    String.length (drop_chars n s) = (String.length s - n)%nat.
Proof.
  revert s; induction n as [|n IH]; intros s Hn.
  - exists ""; simpl. repeat split. lia.
  - destruct s as [|c s]; simpl in Hn; [lia|].
    destruct (IH s) as (front & Hs & Hl & Hd); [lia|].
    exists (String c front).
    split; [rewrite append_cons; simpl; f_equal; exact Hs|].
    split; [simpl; now rewrite Hl | exact Hd].
Qed.

Lemma drop_chars_0 (s : string) : drop_chars 0 s = s.
Proof. now destruct s. Qed.

End StringFacts.

(** ** Redaction *)

(** C9: [getLastFour] returns the last four characters of a string of at
    least four characters (["1234567890"] gives ["7890"]); the mask
    ["****"] for a missing, empty or non-string argument; and a non-empty
    string of fewer than four characters whole, unmasked. *)
Theorem getLastFour_cases :
  (forall s : string,
      (4 <= String.length s)%nat ->
      exists front,
        s = front ++ Controller.getLastFour (VStr s) /\
        String.length (Controller.getLastFour (VStr s)) = 4%nat) /\
  Controller.getLastFour (VStr "1234567890") = "7890" /\
  Controller.getLastFour VUndef = "****" /\
  (forall v : value,
      (forall s, v = VStr s -> s = "") ->
      Controller.getLastFour v = "****") /\
  (forall s : string,
      (0 < String.length s < 4)%nat ->
      Controller.getLastFour (VStr s) = s).
Proof.
  split; [|split; [reflexivity|split; [reflexivity|split]]].
  - intros s Hs.
    assert (Hne : negb (truthy (VStr s)) = false).
    { destruct s; [simpl in Hs; lia | reflexivity]. }
    unfold Controller.getLastFour; rewrite Hne; unfold slice_last4.
    destruct (drop_chars_suffix (String.length s - 4) s) as (f & H1 & _ & H3);
      [lia|].
    exists f; split; [exact H1 | rewrite H3; lia].
  - intros v Hv; destruct v as [| |b|x|s|t]; try reflexivity.
    now rewrite (Hv s eq_refl).
  - intros s Hs.
    assert (Hne : negb (truthy (VStr s)) = false).
    { destruct s; [simpl in Hs; lia | reflexivity]. }
    unfold Controller.getLastFour; rewrite Hne; unfold slice_last4.
    replace (String.length s - 4)%nat with 0%nat by lia.
    apply drop_chars_0.
Qed.

Lemma getLastFour_cases_witness :
  (exists front,
      "00112233" = front ++ Controller.getLastFour (VStr "00112233") /\
      String.length (Controller.getLastFour (VStr "00112233")) = 4%nat) /\
  Controller.getLastFour (VNum zero) = "****" /\
  Controller.getLastFour (VStr "") = "****" /\
  Controller.getLastFour (VStr "A1") = "A1".
Proof.
  destruct getLastFour_cases as (H1 & _ & _ & H4 & H5).
  split; [apply H1; simpl; lia|].
  split; [apply H4; intros s Hs; discriminate|].
  split; [apply H4; intros s Hs; now inversion Hs|].
  apply H5; simpl; lia.
Defined.

(** ** The connection probe *)

Section Probe.
Import Controller Spec.

Variable opts : RetryOptions.
Variable pool : Pool.
Variable name : string.

(** One turn of the loop that meets a failure: the report, the pause when
    attempts are left, and the rest of the loop. *)
Lemma retry_after_failure (fuel attempts : nat) (r : res bool)
    (t : list event) :
  testConnection_loop opts pool name fuel (S attempts) = (r, t) ->
  (do _ <- emit (Failed name (S attempts)) ;;
   do _ <- (if (S attempts <? maxRetries opts)%nat
            then emit (Sleeping (retryDelay opts * Z.of_nat (S attempts)))
            else ret tt) ;;
   testConnection_loop opts pool name fuel (S attempts))
  = (r, Failed name (S attempts) ::
        (if (S attempts <? maxRetries opts)%nat
         then [Sleeping (retryDelay opts * Z.of_nat (S attempts))]
         else []) ++ t).
Proof.
  intros H. unfold bind, emit, ret.
  destruct (S attempts <? maxRetries opts)%nat; rewrite H; reflexivity.
Qed.

(** What one turn does, by what the attempt meets. *)
Lemma testConnection_loop_step (fuel attempts : nat) (r : res bool)
    (t : list event) :
  (attempts < maxRetries opts)%nat ->
  testConnection_loop opts pool name fuel (S attempts) = (r, t) ->
  testConnection_loop opts pool name (S fuel) attempts =
  match pool attempts with
  | Answers => (Ok true, [Connecting name; Released name])
  | QueryRejects _ =>
      (r, Connecting name :: Released name :: Failed name (S attempts) ::
          (if (S attempts <? maxRetries opts)%nat
           then [Sleeping (retryDelay opts * Z.of_nat (S attempts))]
           else []) ++ t)
  | _ =>
      (r, Connecting name :: Failed name (S attempts) ::
          (if (S attempts <? maxRetries opts)%nat
           then [Sleeping (retryDelay opts * Z.of_nat (S attempts))]
           else []) ++ t)
  end.
Proof.
  intros Hlt H.
  pose proof (retry_after_failure fuel attempts r t H) as Hr.
  cbn [testConnection_loop].
  apply Nat.ltb_lt in Hlt; rewrite Hlt, Hr.
  unfold race_connect.
  destruct (pool attempts) as [m| |m|];
    cbn -[Nat.ltb Z.mul Z.of_nat]; reflexivity.
Qed.

(** The loop always returns a boolean; it never throws. *)
Lemma testConnection_loop_returns (fuel attempts : nat) :
  exists (connected : bool) (t : list event),
    testConnection_loop opts pool name fuel attempts = (Ok connected, t).
Proof.
  revert attempts; induction fuel as [|fuel IH]; intros attempts.
  - exists false, []; reflexivity.
  - destruct (Nat.ltb_spec attempts (maxRetries opts)) as [Hlt|Hge].
    + destruct (IH (S attempts)) as (b & t & H).
      rewrite (testConnection_loop_step fuel attempts _ _ Hlt H).
      destruct (pool attempts); eauto.
    + exists false, []. cbn [testConnection_loop].
      apply Nat.ltb_ge in Hge; rewrite Hge; reflexivity.
Qed.

(** The fuel of [testConnection] is enough: the loop ends because
    [attempts] reaches [maxRetries], and any larger fuel gives the same
    run. *)
Lemma testConnection_loop_fuel (fuel fuel' attempts : nat) :
  (maxRetries opts <= fuel + attempts)%nat ->
  (maxRetries opts <= fuel' + attempts)%nat ->
  testConnection_loop opts pool name fuel attempts
  = testConnection_loop opts pool name fuel' attempts.
Proof.
  revert fuel' attempts; induction fuel as [|fuel IH];
    intros fuel' attempts H1 H2.
  - destruct fuel' as [|fuel']; [reflexivity|].
    cbn [testConnection_loop].
    replace (attempts <? maxRetries opts)%nat with false
      by (symmetry; apply Nat.ltb_ge; lia).
    reflexivity.
  - destruct (Nat.ltb_spec attempts (maxRetries opts)) as [Hlt|Hge].
    + destruct fuel' as [|fuel']; [lia|].
      destruct (testConnection_loop_returns fuel (S attempts))
        as (b & t & Hrun).
      pose proof Hrun as Hrun'.
      rewrite (IH fuel' (S attempts)) in Hrun' by lia.
      rewrite (testConnection_loop_step fuel attempts _ _ Hlt Hrun).
      rewrite (testConnection_loop_step fuel' attempts _ _ Hlt Hrun').
      reflexivity.
    + assert (Hf : (attempts <? maxRetries opts)%nat = false)
        by (apply Nat.ltb_ge; lia).
      destruct fuel' as [|fuel']; cbn [testConnection_loop]; rewrite Hf;
        reflexivity.
Qed.

Lemma connections_app (a c : list event) :
  connections (a ++ c)%list = (connections a + connections c)%nat.
Proof. induction a as [|[] a IHa]; cbn; auto. Qed.

Lemma failures_app (a c : list event) :
  failures (a ++ c)%list = (failures a ++ failures c)%list.
Proof. induction a as [|[] a IHa]; cbn; auto. now rewrite IHa. Qed.

Lemma delays_app (a c : list event) :
  delays (a ++ c)%list = (delays a ++ delays c)%list.
Proof. induction a as [|[] a IHa]; cbn; auto. now rewrite IHa. Qed.

Lemma probe_invariant_done (attempts : nat) :
  (maxRetries opts <= attempts)%nat ->
  probe_invariant opts pool attempts false [].
Proof.
  intros Hge; unfold probe_invariant; cbn.
  replace (maxRetries opts - attempts)%nat with 0%nat by lia.
  split_and!; try reflexivity; try lia; try discriminate.
  intros _; split_and!; reflexivity.
Qed.

Lemma probe_invariant_answer (attempts : nat) :
  (attempts < maxRetries opts)%nat ->
  pool attempts = Answers ->
  probe_invariant opts pool attempts true [Connecting name; Released name].
Proof.
  intros Hlt Hpa; unfold probe_invariant; cbn.
  split_and!; try lia; try reflexivity.
  - intros Hall; exfalso; apply (Hall attempts); [lia | exact Hpa].
  - intros _; exists attempts; split; [lia | exact Hpa].
Qed.

(** A failed attempt (whose own events are [pre]), then the rest of the
    loop. *)
Lemma probe_invariant_retry (attempts : nat) (b : bool)
    (pre t' : list event) :
  (attempts < maxRetries opts)%nat ->
  fails (pool attempts) ->
  connections pre = 1%nat -> failures pre = [] -> delays pre = [] ->
  (forall rest, paced opts (pre ++ rest)%list <-> paced opts rest) ->
  probe_invariant opts pool (S attempts) b t' ->
  probe_invariant opts pool attempts b
    (pre ++ Failed name (S attempts) ::
       (if (S attempts <? maxRetries opts)%nat
        then [Sleeping (retryDelay opts * Z.of_nat (S attempts))]
        else []) ++ t')%list.
Proof.
  intros Hlt Hfail Hpc Hpf Hpd Hpp (Hc & Hf & Hd & Hl & Hp & Hall & Hsome).
  unfold probe_invariant.
  rewrite connections_app, failures_app, delays_app, Hpc, Hpf, Hpd, Hpp.
  cbn [app].
  destruct (S attempts <? maxRetries opts)%nat eqn:Hs'.
  - assert (Hs : (S attempts < maxRetries opts)%nat)
      by (apply Nat.ltb_lt; exact Hs').
    cbn -[Nat.ltb Z.mul Z.of_nat]. rewrite ?Hs'.
    split_and!; try lia; try reflexivity; try exact Hp;
      try (f_equal; first [exact Hf | exact Hd]).
    + intros H.
      destruct Hall as (Hb & Hc' & Hf'); [intros n Hn; apply H; lia|].
      split_and!; [exact Hb | lia |].
      replace (maxRetries opts - attempts)%nat
        with (S (maxRetries opts - S attempts)) by lia.
      cbn; f_equal; exact Hf'.
    + intros Hb; destruct (Hsome Hb) as (n & Hn & Hpn).
      exists n; split; [lia | exact Hpn].
  - assert (Hs : (maxRetries opts <= S attempts)%nat)
      by (apply Nat.ltb_ge; exact Hs').
    assert (Hz : delays t' = []).
    { destruct (delays t'); [reflexivity | cbn in Hl; lia]. }
    cbn -[Nat.ltb Z.mul Z.of_nat]. rewrite ?Hs', ?Hz.
    split_and!; try (cbn; lia); try reflexivity; try exact Hp;
      try (f_equal; exact Hf).
    + intros H.
      destruct Hall as (Hb & Hc' & Hf'); [intros n Hn; lia|].
      split_and!; [exact Hb | lia |].
      replace (maxRetries opts - attempts)%nat
        with (S (maxRetries opts - S attempts)) by lia.
      cbn; f_equal; exact Hf'.
    + intros Hb; destruct (Hsome Hb) as (n & Hn & Hpn); lia.
Qed.

(** The trace of the loop started with [attempts] failures behind it. *)
Lemma testConnection_loop_trace (fuel attempts : nat) (connected : bool)
    (t : list event) :
  (maxRetries opts <= fuel + attempts)%nat ->
  testConnection_loop opts pool name fuel attempts = (Ok connected, t) ->
  probe_invariant opts pool attempts connected t.
Proof.
  revert attempts connected t; induction fuel as [|fuel IH];
    intros attempts connected t Hfuel H.
  - cbn in H; inversion H; subst.
    apply probe_invariant_done; lia.
  - destruct (Nat.ltb_spec attempts (maxRetries opts)) as [Hlt|Hge].
    2:{ cbn [testConnection_loop] in H.
        apply Nat.ltb_ge in Hge as Hge'; rewrite Hge' in H.
        inversion H; subst; now apply probe_invariant_done. }
    destruct (testConnection_loop_returns fuel (S attempts)) as (b & t' & H').
    rewrite (testConnection_loop_step fuel attempts _ _ Hlt H') in H.
    assert (Hfuel' : (maxRetries opts <= fuel + S attempts)%nat) by lia.
    pose proof (IH (S attempts) b t' Hfuel' H') as Hinv.
    destruct (pool attempts) as [m| |m|] eqn:Hpa;
      inversion H; subst t connected.
    + apply (probe_invariant_retry attempts b [Connecting name] t');
        try reflexivity; try assumption;
        try (unfold fails; rewrite Hpa; discriminate);
        try (intros rest; cbn; tauto).
    + apply (probe_invariant_retry attempts b [Connecting name] t');
        try reflexivity; try assumption;
        try (unfold fails; rewrite Hpa; discriminate);
        try (intros rest; cbn; tauto).
    + apply (probe_invariant_retry attempts b
               [Connecting name; Released name] t');
        try reflexivity; try assumption;
        try (unfold fails; rewrite Hpa; discriminate);
        try (intros rest; cbn; tauto).
    + now apply probe_invariant_answer.
Qed.

End Probe.

Section Pacing.
Import Controller Spec.

(** Under the pacing rule the pauses are determined by the failures: one
    pause of [retryDelay * k] for each failure number [k] below
    [maxRetries]. *)
Lemma paced_delays (opts : RetryOptions) (t : list event) :
  paced opts t ->
  delays t =
  map (fun k => retryDelay opts * Z.of_nat k)
      (List.filter (fun k => (k <? maxRetries opts)%nat) (failures t)).
Proof.
  remember (length t) as n eqn:Hn.
  revert t Hn; induction n as [n IH] using lt_wf_ind; intros t Hn Hp.
  destruct t as [|e rest]; [reflexivity|].
  destruct e as [nm|nm|nm k|d]; cbn -[Nat.ltb Z.mul Z.of_nat] in Hp |- *.
  - apply (IH (length rest)); [subst; cbn; lia | reflexivity | exact Hp].
  - apply (IH (length rest)); [subst; cbn; lia | reflexivity | exact Hp].
  - destruct (k <? maxRetries opts)%nat.
    + destruct rest as [|[nm'|nm'|nm' k'|d] rest']; cbn in Hp;
        try contradiction.
      destruct Hp as [-> Hp]. cbn -[Nat.ltb Z.mul Z.of_nat]. f_equal.
      apply (IH (length rest')); [subst; cbn; lia | reflexivity | exact Hp].
    + apply (IH (length rest)); [subst; cbn; lia | reflexivity | exact Hp].
  - contradiction.
Qed.

End Pacing.

(** C10: [testConnection] returns a boolean and never throws; it makes at
    most 3 attempts; failed attempts are numbered 1, 2, 3 and the pause
    after failure number [k] lasts [1000 * k] milliseconds (there is a
    pause only when an attempt is left); when all three attempts fail it
    returns [false] after exactly three attempts. *)
Theorem testConnection_retries (pool : Controller.Pool) (name : string) :
  exists (connected : bool) (t : list Controller.event),
    Controller.testConnection pool name = (Ok connected, t) /\
    (Spec.connections t <= 3)%nat /\
    Spec.failures t = seq 1 (length (Spec.failures t)) /\
    Spec.paced Controller.retryOptions t /\
    Spec.delays t =
      map (fun k => 1000 * Z.of_nat k) (seq 1 (length (Spec.delays t))) /\
    ((forall n, (n < 3)%nat -> Spec.fails (pool n)) ->
     connected = false /\
     Spec.connections t = 3%nat /\
     Spec.failures t = [1; 2; 3]%nat /\
     Spec.delays t = [1000; 2000]).
Proof.
  destruct (testConnection_loop_returns Controller.retryOptions pool name 3 0)
    as (connected & t & H).
  exists connected, t.
  split; [exact H|].
  destruct (testConnection_loop_trace Controller.retryOptions pool name
              3 0 connected t) as (Hc & Hf & Hd & _ & Hp & Hall & _);
    [cbn; lia | exact H |].
  split_and!; try assumption.
  intros Hfail.
  destruct Hall as (Hb & Hc' & Hf');
    [intros n Hn; apply Hfail; cbn in Hn; lia|].
  split_and!; try assumption.
  rewrite (paced_delays _ _ Hp), Hf'. reflexivity.
Qed.

Lemma testConnection_retries_witness :
  exists t : list Controller.event,
    Controller.testConnection (fun _ => Controller.TimerFires) "ledger"
      = (Ok false, t) /\
    Spec.connections t = 3%nat /\
    Spec.delays t = [1000; 2000].
Proof.
  destruct (testConnection_retries (fun _ => Controller.TimerFires) "ledger")
    as (connected & t & H & _ & _ & _ & _ & Hall).
  destruct Hall as (Hb & Hc & _ & Hd); [intros n _; discriminate|].
  exists t; subst connected; split_and!; assumption.
Defined.

(** ** The transaction fetcher *)

Section Fetcher.
Import Controller Spec.

Variable rt : Runtime.

Lemma testConnection_returns (pool : Pool) (name : string) :
  exists (connected : bool) (t : list event),
    testConnection pool name = (Ok connected, t).
Proof. apply testConnection_loop_returns. Qed.

(** The whole of [getTransactionData], once the two probes have run. *)
Lemma getTransactionData_run (w : World) (accountId : string)
    (ledgerConnected accountsConnected : bool) (t1 t2 : list event) :
  accountId <> "" ->
  testConnection (ledgerPool w) "ledger" = (Ok ledgerConnected, t1) ->
  testConnection (accountsPool w) "accounts" = (Ok accountsConnected, t2) ->
  getTransactionData rt w accountId =
  (if ledgerConnected then
     match ledger_query w accountId with
     | Fulfilled rows =>
         Ok {| accountOwner := resolvedOwner rt w accountId accountsConnected;
               accountNumber := getLastFour (VStr accountId);
               transactions :=
                 assignBalances accountId zero
                   (map (processRow rt accountId) rows);
               response_timestamp := toISOString (now w) |}
     | Rejected m =>
         Throw (Error ("Failed to retrieve transaction data: " ++
                       ("Transaction query failed: " ++ m)))
     end
   else
     Throw (Error "Database connection failed after multiple attempts. Please try again later."),
   (t1 ++ t2)%list).
Proof.
  intros Hid H1 H2. unfold getTransactionData.
  apply String.eqb_neq in Hid; rewrite Hid.
  unfold bind; rewrite H1, H2.
  destruct ledgerConnected; cbn [negb]; [|cbn; now rewrite app_nil_r].
  unfold resolvedOwner.
  destruct (ledger_query w accountId) as [rows|m];
    [|cbn; now rewrite app_nil_r].
  destruct rows as [|r rows]; cbn; now rewrite app_nil_r.
Qed.

(** When [getTransactionData] returns, the ledger was reachable and
    answered, and the transactions are its rows, processed in their
    order. *)
Lemma getTransactionData_returned (w : World) (accountId : string)
    (r : response) (t : list event) :
  getTransactionData rt w accountId = (Ok r, t) ->
  accountId <> "" /\
  exists rows,
    ledger_query w accountId = Fulfilled rows /\
    transactions r =
      assignBalances accountId zero (map (processRow rt accountId) rows).
Proof.
  intros H.
  assert (Hid : accountId <> "").
  { intros ->. unfold getTransactionData in H; cbn in H. discriminate. }
  split; [exact Hid|].
  destruct (testConnection_returns (ledgerPool w) "ledger") as (lc & t1 & H1).
  destruct (testConnection_returns (accountsPool w) "accounts")
    as (ac & t2 & H2).
  rewrite (getTransactionData_run w accountId lc ac t1 t2 Hid H1 H2) in H.
  destruct lc; [|discriminate].
  destruct (ledger_query w accountId) as [rows|m]; [|discriminate].
  exists rows; split; [reflexivity|].
  inversion H; reflexivity.
Qed.

(** *** Processed rows *)

Lemma processRow_fields (accountId : string) (r : row) :
  let tx := processRow rt accountId r in
  get tx "transactionDate" = timestamp r /\
  get tx "fromAccount" = or_else (from_acct r) (VStr "") /\
  get tx "type" =
    VStr (if is_string (from_acct r) accountId then "Debit" else "Credit") /\
  (exists a, get tx "amount" = VNum a /\ num_isNaN a = false) /\
  tx !! "category" = None /\
  tx !! "transactionType" = None /\
  tx !! "description" = None.
Proof.
  cbv zeta. unfold processRow, get.
  split_and!; try (simplify_map_eq; reflexivity).
  simplify_map_eq. cbn [default].
  eexists; split; [reflexivity|].
  destruct (parseFloat (or_else (amount r) (VNum zero))); reflexivity.
Qed.

Lemma is_string_true (v : value) (s : string) :
  is_string v s = true <-> v = VStr s.
Proof.
  destruct v as [| |b|x|s'|t]; cbn; try (split; intros; discriminate).
  rewrite String.eqb_eq. split; [now intros -> | now intros [= ->]].
Qed.

Lemma is_string_or_else (v : value) (s : string) :
  s <> "" -> is_string (or_else v (VStr "")) s = is_string v s.
Proof.
  intros Hs. unfold or_else.
  destruct (truthy v) eqn:Hv; [reflexivity|].
  destruct v as [| |b|x|s'|t]; cbn in Hv; cbn [is_string];
    try discriminate;
    try (apply String.eqb_neq; congruence).
  apply negb_false_iff, String.eqb_eq in Hv; subst s'.
  reflexivity.
Qed.

(** The signed amount of a processed row: the parsed amount (zero when it
    does not parse), negated when the row leaves the requested account. *)
Lemma signedAmount_processRow (accountId : string) (r : row) :
  accountId <> "" ->
  signedAmount accountId (processRow rt accountId r) =
  let a := parseFloat (or_else (amount r) (VNum zero)) in
  let a := if num_isNaN a then zero else a in
  if is_string (from_acct r) accountId then num_neg a else a.
Proof.
  intros Hid. unfold signedAmount.
  destruct (processRow_fields accountId r) as (_ & Hf & _ & _).
  rewrite Hf, (is_string_or_else _ _ Hid).
  unfold processRow, get. simplify_map_eq. reflexivity.
Qed.

(** *** The running balance *)

(** The balance loop leaves the properties it does not assign as they
    were. *)
Lemma assigned_other (balance : number) (tx : obj) (k : string) :
  k <> "balance" -> k <> "formattedBalance" ->
  (<[ "formattedBalance" := VStr (formatCurrency (VNum balance)) ]>
     (<[ "balance" := VNum balance ]> tx)) !! k = tx !! k.
Proof. intros H1 H2. now rewrite !lookup_insert_ne by congruence. Qed.

Lemma assignBalances_length (accountId : string) (balance : number)
    (txs : list obj) :
  length (assignBalances accountId balance txs) = length txs.
Proof.
  revert balance; induction txs as [|tx txs IH]; intros balance; cbn;
    [reflexivity | now rewrite IH].
Qed.

(** Entry [i] of the result is entry [i] of the input with its two new
    properties, the balance being the sum so far. *)
Lemma assignBalances_lookup (accountId : string) (txs : list obj) :
  forall (balance : number) (i : nat) (tx : obj),
    assignBalances accountId balance txs !! i = Some tx ->
    exists p,
      txs !! i = Some p /\
      let b := fold_left num_add
                 (map (signedAmount accountId) (take (S i) txs)) balance in
      tx = <[ "formattedBalance" := VStr (formatCurrency (VNum b)) ]>
             (<[ "balance" := VNum b ]> p).
Proof.
  induction txs as [|p txs IH]; intros balance i tx H; [discriminate|].
  destruct i as [|i]; cbn in H.
  - inversion H; subst. exists p; split; reflexivity.
  - destruct (IH _ _ _ H) as (q & Hq & Htx).
    exists q; split; [exact Hq | exact Htx].
Qed.

Lemma signedAmount_assigned (accountId : string) (balance : number)
    (tx : obj) :
  signedAmount accountId
    (<[ "formattedBalance" := VStr (formatCurrency (VNum balance)) ]>
       (<[ "balance" := VNum balance ]> tx))
  = signedAmount accountId tx.
Proof.
  unfold signedAmount, get.
  now rewrite !assigned_other by discriminate.
Qed.

Lemma signedAmount_assignBalances (accountId : string) (txs : list obj) :
  forall balance : number,
    map (signedAmount accountId) (assignBalances accountId balance txs)
    = map (signedAmount accountId) txs.
Proof.
  induction txs as [|p txs IH]; intros balance; cbn; [reflexivity|].
  now rewrite signedAmount_assigned, IH.
Qed.

Lemma balance_assigned (balance : number) (tx : obj) :
  get (<[ "formattedBalance" := VStr (formatCurrency (VNum balance)) ]>
         (<[ "balance" := VNum balance ]> tx)) "balance" = VNum balance.
Proof. unfold get. now simplify_map_eq. Qed.

End Fetcher.

Section Balance.
Import Controller Spec.

Lemma num_add_zero_l (s : number) :
  num_isNaN s = false -> num_eqb (num_add zero s) s = true.
Proof.
  destruct s as [sg|sg| |sg m e]; cbn; intros H; try discriminate.
  - destruct sg; reflexivity.
  - destruct sg; reflexivity.
  - unfold num_eqb, SFeqb, SFcompare.
    destruct sg; rewrite Z.compare_refl, Pos.compare_cont_refl; reflexivity.
Qed.

Lemma num_add_zero_l_same (s : number) :
  s <> S754_zero true -> num_add zero s = s.
Proof.
  destruct s as [sg|sg| |sg m e]; cbn; intros H; try reflexivity.
  destruct sg; [congruence | reflexivity].
Qed.

Lemma num_neg_isNaN (s : number) : num_isNaN (num_neg s) = num_isNaN s.
Proof. destruct s; reflexivity. Qed.

(** The signed amount of a processed row is a number. *)
Lemma signedAmount_not_NaN (rt : Runtime) (accountId : string) (r : row) :
  num_isNaN (signedAmount accountId (processRow rt accountId r)) = false.
Proof.
  destruct (processRow_fields rt accountId r)
    as (_ & _ & _ & (a & Ha & Hn) & _).
  unfold signedAmount. rewrite Ha. cbn [to_number].
  destruct (is_string _ _); [now rewrite num_neg_isNaN | exact Hn].
Qed.

Lemma fold_left_snoc {A B} (f : A -> B -> A) (l : list B) (x : B) (a : A) :
  fold_left f (l ++ [x])%list a = f (fold_left f l a) x.
Proof. now rewrite fold_left_app. Qed.

End Balance.

(** C1: in a non-empty answer of [getTransactionData], the balance attached
    to the transaction at position [i] of the returned list is the sum,
    taken from the first position in the order of the list, of the signed
    amounts of the transactions at positions 0 to [i]; the signed amount
    is the one of the specification, [Spec.signed]: the amount, negative
    when [fromAccount] is the requested account and positive otherwise.  So
    the first balance equals the first signed amount, as numbers, and each
    later balance is the balance before it plus the signed amount of its
    transaction.  (The first balance is [0 + s] for the first signed amount
    [s]: the same number as [s], except that for [s] the negative zero it
    is the positive zero, which is equal to it as a number.) *)
Theorem running_balance_prefix_sum (rt : Runtime) (w : Controller.World)
    (accountId : string) (r : Controller.response)
    (t : list Controller.event) :
  Controller.getTransactionData rt w accountId = (Ok r, t) ->
  Controller.transactions r <> [] ->
  forall (i : nat) (tx : obj),
    Controller.transactions r !! i = Some tx ->
    get tx "balance" =
      VNum (fold_left num_add
              (map (Spec.signed accountId)
                   (take (S i) (Controller.transactions r))) zero) /\
    (i = 0%nat ->
     num_eqb (to_number (get tx "balance"))
             (Spec.signed accountId tx) = true /\
     (Spec.signed accountId tx <> S754_zero true ->
      get tx "balance" = VNum (Spec.signed accountId tx))) /\
    (forall (j : nat) (prev : obj),
        i = S j ->
        Controller.transactions r !! j = Some prev ->
        get tx "balance" =
          VNum (num_add (to_number (get prev "balance"))
                        (Spec.signed accountId tx))).
Proof.
  intros H _ i tx Hi.
  change Spec.signed with Controller.signedAmount.
  destruct (getTransactionData_returned rt w accountId r t H)
    as (Hid & rows & _ & Htxs).
  set (P := map (Controller.processRow rt accountId) rows) in *.
  assert (Hsum : forall n,
             map (Controller.signedAmount accountId)
                 (take n (Controller.transactions r))
             = map (Controller.signedAmount accountId) (take n P)).
  { intros n. rewrite <- !firstn_map, Htxs.
    now rewrite signedAmount_assignBalances. }
  rewrite Htxs in Hi.
  destruct (assignBalances_lookup accountId P zero i tx Hi) as (p & Hp & Htx).
  cbv zeta in Htx.
  split_and!.
  - rewrite Hsum, Htx. apply balance_assigned.
  - intros ->. rewrite Htx, balance_assigned, signedAmount_assigned.
    cbn [to_number].
    destruct P as [|p0 P'] eqn:HP; [discriminate|].
    cbn in Hp; inversion Hp; subst p0. cbn.
    split; [|intros Hz; f_equal; now apply num_add_zero_l_same].
    apply num_add_zero_l.
    assert (Hin : In p (map (Controller.processRow rt accountId) rows)).
    { fold P. rewrite HP. now left. }
    apply in_map_iff in Hin as (row0 & <- & _).
    apply signedAmount_not_NaN.
  - intros j prev -> Hj. rewrite Htxs in Hj.
    destruct (assignBalances_lookup accountId P zero j prev Hj)
      as (q & Hq & Hprev).
    cbv zeta in Hprev.
    rewrite Htx, Hprev, !balance_assigned, signedAmount_assigned.
    cbn [to_number]. f_equal.
    rewrite (take_S_r P (S j) p Hp), map_app. cbn [map].
    rewrite fold_left_snoc. reflexivity.
Qed.

Lemma scenario_run :
  Controller.getTransactionData UtcHost.runtime Scenario.world "A1"
  = (Ok Scenario.answer, Scenario.trace).
Proof. vm_compute. reflexivity. Qed.

Lemma scenario_fetched_nonempty : Scenario.fetched <> [].
Proof.
  intros H. apply (f_equal (@length obj)) in H. revert H.
  vm_compute. discriminate.
Qed.

Lemma running_balance_prefix_sum_witness :
  Controller.getTransactionData UtcHost.runtime Scenario.world "A1"
    = (Ok Scenario.answer, Scenario.trace) /\
  Controller.transactions Scenario.answer <> [] /\
  forall (i : nat) (tx : obj),
    Controller.transactions Scenario.answer !! i = Some tx ->
    get tx "balance" =
      VNum (fold_left num_add
              (map (Spec.signed "A1")
                   (take (S i) (Controller.transactions Scenario.answer)))
              zero) /\
    (i = 0%nat ->
     num_eqb (to_number (get tx "balance"))
             (Spec.signed "A1" tx) = true /\
     (Spec.signed "A1" tx <> S754_zero true ->
      get tx "balance" = VNum (Spec.signed "A1" tx))) /\
    (forall (j : nat) (prev : obj),
        i = S j ->
        Controller.transactions Scenario.answer !! j = Some prev ->
        get tx "balance" =
          VNum (num_add (to_number (get prev "balance"))
                        (Spec.signed "A1" tx))).
Proof.
  pose proof scenario_fetched_nonempty as Hne.
  split; [exact scenario_run|].
  split; [exact Hne|].
  exact (running_balance_prefix_sum UtcHost.runtime Scenario.world "A1"
           Scenario.answer Scenario.trace scenario_run Hne).
Defined.

(** The balances of the scenario: +50 after the credit, then -50. *)
Example scenario_balances :
  map (fun tx => get tx "balance") Scenario.fetched
  = [VNum (parseFloat_string "50"); VNum (parseFloat_string "-50")] /\
  map (fun tx => get tx "formattedBalance") Scenario.fetched
  = [VStr "50.00"; VStr "-50.00"].
Proof. split; vm_compute; reflexivity. Qed.

Section Order.
Import Controller Spec.

Variable rt : Runtime.

Lemma lookup_map {A B} (f : A -> B) (l : list A) (i : nat) :
  map f l !! i = f <$> (l !! i).
Proof.
  revert i; induction l as [|x l IH]; intros [|i]; cbn; auto.
Qed.

Lemma assignBalances_get (accountId k : string) (txs : list obj) :
  k <> "balance" -> k <> "formattedBalance" ->
  forall balance : number,
    map (fun tx => get tx k) (assignBalances accountId balance txs)
    = map (fun tx => get tx k) txs.
Proof.
  intros H1 H2.
  induction txs as [|p txs IH]; intros balance; cbn; [reflexivity|].
  rewrite IH. f_equal. unfold get. now rewrite assigned_other.
Qed.

(** Every property of a processed row other than the two balance
    properties, read on the returned transactions, row by row. *)
Lemma fetched_property (accountId k : string) (rows : list row) :
  k <> "balance" -> k <> "formattedBalance" ->
  map (fun tx => get tx k)
      (assignBalances accountId zero (map (processRow rt accountId) rows))
  = map (fun r => get (processRow rt accountId r) k) rows.
Proof.
  intros H1 H2. rewrite assignBalances_get by assumption.
  now rewrite map_map.
Qed.

Lemma direction_of_row (accountId : string) (r : row) (v : value) :
  v = VStr (if is_string (from_acct r) accountId
            then "Debit" else "Credit") ->
  (v = VStr "Debit" <-> from_acct r = VStr accountId) /\
  (v = VStr "Credit" <-> from_acct r <> VStr accountId).
Proof.
  intros ->.
  destruct (is_string (from_acct r) accountId) eqn:Hd.
  - apply is_string_true in Hd.
    split; split; intros; try congruence; try reflexivity.
  - assert (Hne : from_acct r <> VStr accountId).
    { intros Heq. apply is_string_true in Heq. congruence. }
    split; split; intros; try congruence; try reflexivity.
Qed.

End Order.

(** C3: when the ledger is reachable and answers with rows for the account,
    in descending order of timestamp as the query asks,
    [getTransactionData] returns one transaction per row, in the order of
    the rows, hence in descending order of timestamp; and the [type] of an
    entry is ["Debit"] exactly when the source account of its row is the
    requested account, as the same string, and ["Credit"] otherwise. *)
Theorem fetched_order_and_direction (rt : Runtime) (w : Controller.World)
    (accountId : string) (rows : list Controller.row)
    (t1 : list Controller.event) :
  accountId <> "" ->
  Controller.testConnection (Controller.ledgerPool w) "ledger"
    = (Ok true, t1) ->
  Controller.ledger_query w accountId = Controller.Fulfilled rows ->
  rows <> [] ->
  Spec.descending (map Controller.timestamp rows) ->
  exists (r : Controller.response) (t : list Controller.event),
    Controller.getTransactionData rt w accountId = (Ok r, t) /\
    map (fun tx => get tx "transactionDate") (Controller.transactions r)
      = map Controller.timestamp rows /\
    Spec.descending
      (map (fun tx => get tx "transactionDate") (Controller.transactions r)) /\
    Forall2
      (fun row tx =>
         (get tx "type" = VStr "Debit"
          <-> Controller.from_acct row = VStr accountId) /\
         (get tx "type" = VStr "Credit"
          <-> Controller.from_acct row <> VStr accountId))
      rows (Controller.transactions r).
Proof.
  intros Hid H1 Hq _ Hsorted.
  destruct (testConnection_returns (Controller.accountsPool w) "accounts")
    as (ac & t2 & H2).
  pose proof (getTransactionData_run rt w accountId true ac t1 t2 Hid H1 H2)
    as Hrun.
  rewrite Hq in Hrun.
  eexists _, _; split; [exact Hrun|]. cbn [Controller.transactions].
  assert (Hdates :
    map (fun tx => get tx "transactionDate")
        (Controller.assignBalances accountId zero
           (map (Controller.processRow rt accountId) rows))
    = map Controller.timestamp rows).
  { rewrite fetched_property by discriminate.
    apply map_ext; intros r.
    now destruct (processRow_fields rt accountId r) as (Hd & _). }
  split; [exact Hdates|]. split; [now rewrite Hdates|].
  apply Forall2_same_length_lookup_2.
  - now rewrite assignBalances_length, length_map.
  - intros i row tx Hrow Htx.
    assert (Hty : get tx "type"
                  = get (Controller.processRow rt accountId row) "type").
    { pose proof (fetched_property rt accountId "type" rows
                    ltac:(discriminate) ltac:(discriminate)) as Hm.
      apply (f_equal (fun l => l !! i)) in Hm.
      rewrite !lookup_map in Hm. rewrite Htx, Hrow in Hm.
      cbn in Hm. now inversion Hm. }
    apply direction_of_row. rewrite Hty.
    now destruct (processRow_fields rt accountId row) as (_ & _ & Hd & _).
Qed.

Lemma scenario_descending :
  Spec.descending (map Controller.timestamp Scenario.rows).
Proof. repeat constructor. Qed.

Lemma scenario_ledger_probe :
  Controller.testConnection (Controller.ledgerPool Scenario.world) "ledger"
  = (Ok true,
     [Controller.Connecting "ledger"; Controller.Failed "ledger" 1;
      Controller.Sleeping 1000; Controller.Connecting "ledger";
      Controller.Released "ledger"]).
Proof. reflexivity. Qed.

Lemma fetched_order_and_direction_witness :
  "A1" <> "" /\
  Scenario.rows <> [] /\
  Spec.descending (map Controller.timestamp Scenario.rows) /\
  exists (r : Controller.response) (t : list Controller.event),
    Controller.getTransactionData UtcHost.runtime Scenario.world "A1"
      = (Ok r, t) /\
    map (fun tx => get tx "transactionDate") (Controller.transactions r)
      = map Controller.timestamp Scenario.rows /\
    Spec.descending
      (map (fun tx => get tx "transactionDate") (Controller.transactions r)) /\
    Forall2
      (fun row tx =>
         (get tx "type" = VStr "Debit"
          <-> Controller.from_acct row = VStr "A1") /\
         (get tx "type" = VStr "Credit"
          <-> Controller.from_acct row <> VStr "A1"))
      Scenario.rows (Controller.transactions r).
Proof.
  assert (Hid : "A1" <> "") by discriminate.
  assert (Hne : Scenario.rows <> []) by discriminate.
  split; [exact Hid|]. split; [exact Hne|].
  split; [exact scenario_descending|].
  exact (fetched_order_and_direction UtcHost.runtime Scenario.world "A1"
           Scenario.rows _ Hid scenario_ledger_probe eq_refl Hne
           scenario_descending).
Defined.

(** The directions of the scenario: a credit, then a debit. *)
Example scenario_directions :
  map (fun tx => get tx "type") Scenario.fetched
  = [VStr "Credit"; VStr "Debit"].
Proof. vm_compute. reflexivity. Qed.

(** ** Degradation of the identity lookup *)

Section Identity.
Import Controller Spec.

Variable rt : Runtime.

Lemma ownerName_empty (u : user_row) :
  firstname u = VStr "" -> lastname u = VStr "" ->
  ownerName rt u = "Unknown".
Proof. intros Hf Hl. unfold ownerName. rewrite Hf, Hl. reflexivity. Qed.

Lemma resolvedOwner_unavailable (w : World) (accountId : string)
    (accountsConnected : bool) (t2 : list event) :
  testConnection (accountsPool w) "accounts" = (Ok accountsConnected, t2) ->
  identity_unavailable w accountId ->
  resolvedOwner rt w accountId accountsConnected = "Unknown".
Proof.
  intros H2 Hu. unfold resolvedOwner.
  destruct accountsConnected; [|now apply ownerName_empty].
  destruct Hu as [(t & Ht)|[(m & Hm)|[Hnil|(u & others & Hq & Hf & Hl)]]].
  - rewrite Ht in H2. discriminate.
  - rewrite Hm. now apply ownerName_empty.
  - rewrite Hnil. now apply ownerName_empty.
  - rewrite Hq. now apply ownerName_empty.
Qed.

End Identity.

(** C6: when the ledger is reachable and its query succeeds, and the
    identity store gives no name (its probe fails, its query is rejected,
    it returns no row, or the stored names are empty),
    [getTransactionData] still returns: the owner is ["Unknown"] and the
    transactions are all the rows of the ledger, processed, the same list
    as any run on the same ledger returns. *)
Theorem identity_failure_degrades (rt : Runtime) (w : Controller.World)
    (accountId : string) (rows : list Controller.row)
    (t1 : list Controller.event) :
  accountId <> "" ->
  Controller.testConnection (Controller.ledgerPool w) "ledger"
    = (Ok true, t1) ->
  Controller.ledger_query w accountId = Controller.Fulfilled rows ->
  Spec.identity_unavailable w accountId ->
  exists (r : Controller.response) (t : list Controller.event),
    Controller.getTransactionData rt w accountId = (Ok r, t) /\
    Controller.accountOwner r = "Unknown" /\
    Controller.transactions r =
      Controller.assignBalances accountId zero
        (map (Controller.processRow rt accountId) rows) /\
    length (Controller.transactions r) = length rows /\
    (forall (w' : Controller.World) (r' : Controller.response)
            (t' : list Controller.event),
        Controller.ledger_query w' accountId = Controller.Fulfilled rows ->
        Controller.getTransactionData rt w' accountId = (Ok r', t') ->
        Controller.transactions r' = Controller.transactions r).
Proof.
  intros Hid H1 Hq Hu.
  destruct (testConnection_returns (Controller.accountsPool w) "accounts")
    as (ac & t2 & H2).
  pose proof (getTransactionData_run rt w accountId true ac t1 t2 Hid H1 H2)
    as Hrun.
  rewrite Hq in Hrun.
  eexists _, _; split; [exact Hrun|].
  cbn [Controller.transactions Controller.accountOwner].
  split_and!.
  - exact (resolvedOwner_unavailable rt w accountId ac t2 H2 Hu).
  - reflexivity.
  - now rewrite assignBalances_length, length_map.
  - intros w' r' t' Hq' Hrun'.
    destruct (getTransactionData_returned rt w' accountId r' t' Hrun')
      as (_ & rows' & Hrows' & Htx').
    rewrite Hq' in Hrows'. inversion Hrows'; subst rows'. exact Htx'.
Qed.

Lemma scenario_identity_unavailable :
  Spec.identity_unavailable Scenario.world "A1".
Proof. left. eexists. reflexivity. Qed.

Lemma identity_failure_degrades_witness :
  "A1" <> "" /\
  Spec.identity_unavailable Scenario.world "A1" /\
  exists (r : Controller.response) (t : list Controller.event),
    Controller.getTransactionData UtcHost.runtime Scenario.world "A1"
      = (Ok r, t) /\
    Controller.accountOwner r = "Unknown" /\
    Controller.transactions r =
      Controller.assignBalances "A1" zero
        (map (Controller.processRow UtcHost.runtime "A1") Scenario.rows) /\
    length (Controller.transactions r) = length Scenario.rows /\
    (forall (w' : Controller.World) (r' : Controller.response)
            (t' : list Controller.event),
        Controller.ledger_query w' "A1"
          = Controller.Fulfilled Scenario.rows ->
        Controller.getTransactionData UtcHost.runtime w' "A1" = (Ok r', t') ->
        Controller.transactions r' = Controller.transactions r).
Proof.
  assert (Hid : "A1" <> "") by discriminate.
  split; [exact Hid|]. split; [exact scenario_identity_unavailable|].
  exact (identity_failure_degrades UtcHost.runtime Scenario.world "A1"
           Scenario.rows _ Hid scenario_ledger_probe eq_refl
           scenario_identity_unavailable).
Defined.

(** The scenario of the specification: identity store down, two rows. *)
Example scenario_owner :
  Controller.accountOwner Scenario.answer = "Unknown" /\
  length (Controller.transactions Scenario.answer) = 2%nat.
Proof. split; reflexivity. Qed.

(** ** The filter *)

Section Filter.
Import Controller Engine Spec.

Variable rt : Runtime.

Lemma differs_absent_param (params : obj) (p : string) (tx : obj)
    (f : string) :
  not_supplied params p -> differs params p tx f = Ok false.
Proof. unfold differs, not_supplied; now intros ->. Qed.

Lemma differs_absent_field (params : obj) (p : string) (tx : obj)
    (f : string) :
  tx !! f = None -> differs params p tx f = Ok false.
Proof.
  intros H. unfold differs, get. rewrite H. cbn [default truthy].
  now rewrite andb_false_r.
Qed.

Lemma filter_with_all (keep : obj -> res bool) (l : list obj) :
  (forall tx, In tx l -> keep tx = Ok true) -> filter_with keep l = Ok l.
Proof.
  induction l as [|tx l IH]; intros H; [reflexivity|].
  cbn. rewrite (H tx) by now left. cbn.
  rewrite IH by (intros tx' Hin; apply H; now right). reflexivity.
Qed.

(** A fetched transaction is a processed row with its two balance
    properties. *)
Lemma fetched_transaction (accountId : string) (rows : list row) (tx : obj) :
  In tx (assignBalances accountId zero (map (processRow rt accountId) rows)) ->
  exists (r : row) (b : number),
    In r rows /\
    tx = <[ "formattedBalance" := VStr (formatCurrency (VNum b)) ]>
           (<[ "balance" := VNum b ]> (processRow rt accountId r)).
Proof.
  intros Hin. apply list_elem_of_In, list_elem_of_lookup in Hin as (i & Hi).
  destruct (assignBalances_lookup accountId _ zero i tx Hi) as (p & Hp & ->).
  rewrite lookup_map in Hp.
  destruct (rows !! i) as [r|] eqn:Hr; [|discriminate].
  cbn in Hp; inversion Hp; subst p.
  exists r; eexists; split; [|reflexivity].
  apply list_elem_of_In, list_elem_of_lookup; eauto.
Qed.

(** The properties a fetched transaction has and has not. *)
Lemma fetched_shape (w : World) (accountId : string) (r : response)
    (t : list event) (tx : obj) :
  getTransactionData rt w accountId = (Ok r, t) ->
  In tx (transactions r) ->
  tx !! "category" = None /\
  tx !! "transactionType" = None /\
  (tx !! "type" = Some (VStr "Debit") \/ tx !! "type" = Some (VStr "Credit")).
Proof.
  intros H Hin.
  destruct (getTransactionData_returned rt w accountId r t H)
    as (_ & rows & _ & Htxs).
  rewrite Htxs in Hin.
  destruct (fetched_transaction accountId rows tx Hin) as (row0 & b & _ & ->).
  rewrite !assigned_other by discriminate.
  destruct (processRow_fields rt accountId row0)
    as (_ & _ & _ & _ & Hc & Ht & _).
  split; [exact Hc|]. split; [exact Ht|].
  unfold processRow. simplify_map_eq.
  destruct (is_string (from_acct row0) accountId); [now left | now right].
Qed.

End Filter.

(** C4: on every record returned by [getTransactionData], the category test
    and the transaction-type test of [filterTransactions] exclude nothing,
    whatever the parameters: the record keeps its direction under [type]
    and has neither a [category] nor a [transactionType] property.  So a
    fetched list filtered with no other parameter than [category] and
    [transactionType] comes back whole. *)
Theorem category_and_type_never_exclude (rt : Runtime)
    (w : Controller.World) (accountId : string) (r : Controller.response)
    (t : list Controller.event) :
  Controller.getTransactionData rt w accountId = (Ok r, t) ->
  (forall (params tx : obj),
      In tx (Controller.transactions r) ->
      tx !! "category" = None /\
      tx !! "transactionType" = None /\
      (tx !! "type" = Some (VStr "Debit") \/
       tx !! "type" = Some (VStr "Credit")) /\
      Engine.excluded_by_category params tx = Ok false /\
      Engine.excluded_by_transactionType params tx = Ok false) /\
  (forall (userId : string) (params : obj),
      Spec.not_supplied params "recipient" ->
      Spec.not_supplied params "sender" ->
      Spec.not_supplied params "merchantName" ->
      Spec.not_supplied params "startDate" ->
      Spec.not_supplied params "endDate" ->
      Engine.filterTransactions rt (Controller.transactions r) userId params
      = Ok (Controller.transactions r)).
Proof.
  intros H.
  assert (Hshape : forall (params tx : obj),
      In tx (Controller.transactions r) ->
      tx !! "category" = None /\
      tx !! "transactionType" = None /\
      (tx !! "type" = Some (VStr "Debit") \/
       tx !! "type" = Some (VStr "Credit")) /\
      Engine.excluded_by_category params tx = Ok false /\
      Engine.excluded_by_transactionType params tx = Ok false).
  { intros params tx Hin.
    destruct (fetched_shape rt w accountId r t tx H Hin) as (Hc & Ht & Hd).
    split_and!; try assumption.
    - now apply differs_absent_field.
    - now apply differs_absent_field. }
  split; [exact Hshape|].
  intros userId params Hr Hs Hm Hsd Hed.
  apply filter_with_all. intros tx Hin.
  destruct (Hshape params tx Hin) as (_ & _ & _ & Hc & Ht).
  unfold Engine.keeps.
  unfold Engine.excluded_by_recipient, Engine.excluded_by_sender.
  rewrite !differs_absent_param by assumption. cbn [res_bind].
  unfold Engine.excluded_by_merchantName; rewrite Hm. cbn [res_bind].
  unfold Engine.excluded_by_startDate; rewrite Hsd.
  unfold Engine.excluded_by_endDate; rewrite Hed.
  rewrite Hc, Ht. reflexivity.
Qed.

Lemma category_and_type_never_exclude_witness :
  Controller.getTransactionData UtcHost.runtime Scenario.world "A1"
    = (Ok Scenario.answer, Scenario.trace) /\
  Engine.filterTransactions UtcHost.runtime
    (Controller.transactions Scenario.answer) "A1" Scenario.by_category
  = Ok (Controller.transactions Scenario.answer).
Proof.
  split; [exact scenario_run|].
  destruct (category_and_type_never_exclude UtcHost.runtime Scenario.world
              "A1" Scenario.answer Scenario.trace scenario_run) as (_ & Hall).
  apply Hall; reflexivity.
Defined.

(** ** The summaries *)

Section Summaries.
Import Controller Engine Spec.

Variable rt : Runtime.

(** The filter does not read [summaryType]. *)
Lemma get_other (params : obj) (k : string) (v : value) :
  k <> "summaryType" -> get (<[ "summaryType" := v ]> params) k = get params k.
Proof. intros Hk. unfold get. now rewrite lookup_insert_ne by congruence. Qed.

Lemma keeps_summaryType (params tx : obj) (v : value) :
  keeps rt (<[ "summaryType" := v ]> params) tx = keeps rt params tx.
Proof.
  unfold keeps, excluded_by_recipient, excluded_by_sender,
    excluded_by_merchantName, excluded_by_startDate, excluded_by_endDate,
    excluded_by_category, excluded_by_transactionType, differs.
  now rewrite !get_other by discriminate.
Qed.

Lemma filterTransactions_summaryType (transactions : list obj)
    (userId : string) (params : obj) (v : value) :
  filterTransactions rt transactions userId (<[ "summaryType" := v ]> params)
  = filterTransactions rt transactions userId params.
Proof.
  unfold filterTransactions.
  induction transactions as [|tx l IH]; [reflexivity|].
  cbn. now rewrite keeps_summaryType, IH.
Qed.

Lemma emptyMessage_summaryType (params : obj) (v : value) :
  emptyMessage rt (<[ "summaryType" := v ]> params) = emptyMessage rt params.
Proof. unfold emptyMessage. now rewrite !get_other by discriminate. Qed.

(** The total adds the amount of a transaction exactly when the account is
    on one of its sides: the tests on [transactionType] that follow are
    reached only when it is on neither, and then they fail. *)
Lemma addAmount_involves (userId : string) (params : obj) (sum : number)
    (tx : obj) :
  addAmount userId params sum tx =
  if involves userId tx then num_add sum (parsedAmount tx) else sum.
Proof.
  unfold addAmount, involves, parsedAmount.
  destruct (is_string (get tx "fromAccount") userId); [reflexivity|].
  destruct (is_string (get tx "toAccount") userId); [reflexivity|].
  cbn [orb]. rewrite !andb_false_r.
  now destruct (truthy (get params "transactionType")).
Qed.

Lemma total_is_sum (userId : string) (params : obj) (l : list obj) :
  forall acc : number,
    fold_left (addAmount userId params) l acc =
    fold_left num_add (map parsedAmount (List.filter (involves userId) l)) acc.
Proof.
  induction l as [|tx l IH]; intros acc; [reflexivity|].
  cbn [fold_left List.filter]. rewrite addAmount_involves.
  destruct (involves userId tx); cbn [map fold_left]; apply IH.
Qed.

End Summaries.

(** C8: when the filtered set is not empty and [summaryType] is none of
    ["count"], ["total_amount"] and ["list"],
    [processTransactionDataForAI] returns what it returns for the same
    inputs with [summaryType] set to ["list"]: the redacted view of every
    filtered transaction and the message that counts them. *)
Theorem unknown_summaryType_as_list (rt : Runtime) (transactions : list obj)
    (userId : string) (params : obj) (filteredTx : list obj) :
  Engine.filterTransactions rt transactions userId params = Ok filteredTx ->
  filteredTx <> [] ->
  is_string (get params "summaryType") "count" = false ->
  is_string (get params "summaryType") "total_amount" = false ->
  is_string (get params "summaryType") "list" = false ->
  Engine.processTransactionDataForAI rt transactions userId params
  = Engine.processTransactionDataForAI rt transactions userId
      (<[ "summaryType" := VStr "list" ]> params) /\
  Engine.processTransactionDataForAI rt transactions userId params
  = Ok {| Engine.result := Engine.PList (map Engine.formatTx filteredTx);
          Engine.message :=
            Some (Engine.foundMessage (map Engine.formatTx filteredTx));
          Engine.unit := None;
          Engine.description := None |}.
Proof.
  intros Hf Hne Hc Ht Hl.
  unfold Engine.processTransactionDataForAI.
  rewrite filterTransactions_summaryType, Hf. cbn [res_bind].
  destruct filteredTx as [|tx l]; [congruence|].
  rewrite Hc, Ht, Hl.
  unfold get at 1 2 3. rewrite lookup_insert_eq. cbn.
  split; reflexivity.
Qed.

Lemma scenario_unknown_kind_filter :
  Engine.filterTransactions UtcHost.runtime Scenario.fetched "A1"
    Scenario.unknown_kind = Ok Scenario.fetched.
Proof. vm_cast_no_check (eq_refl (Ok Scenario.fetched)). Qed.

Lemma unknown_summaryType_as_list_witness :
  Scenario.fetched <> [] /\
  Engine.processTransactionDataForAI UtcHost.runtime Scenario.fetched "A1"
    Scenario.unknown_kind
  = Engine.processTransactionDataForAI UtcHost.runtime Scenario.fetched "A1"
      (<[ "summaryType" := VStr "list" ]> Scenario.unknown_kind) /\
  Engine.processTransactionDataForAI UtcHost.runtime Scenario.fetched "A1"
    Scenario.unknown_kind
  = Ok {| Engine.result :=
            Engine.PList (map Engine.formatTx Scenario.fetched);
          Engine.message :=
            Some (Engine.foundMessage (map Engine.formatTx Scenario.fetched));
          Engine.unit := None;
          Engine.description := None |}.
Proof.
  pose proof scenario_fetched_nonempty as Hne.
  split; [exact Hne|].
  apply (unknown_summaryType_as_list UtcHost.runtime Scenario.fetched "A1"
           Scenario.unknown_kind Scenario.fetched
           scenario_unknown_kind_filter Hne); reflexivity.
Defined.

(** The message of the scenario's list. *)
Example scenario_found_message :
  Engine.foundMessage (map Engine.formatTx Scenario.fetched)
  = "Found 2 matching transactions.".
Proof. vm_compute. reflexivity. Qed.

(** *** The empty result *)

(** The claim C5 as the specification states it fails: with a category and
    a merchant both supplied and nothing left by the filter, the message
    names the merchant, not the category. *)
Lemma empty_message_prefers_merchant :
  Engine.processTransactionDataForAI UtcHost.runtime Scenario.fetched "A1"
    Scenario.by_category_and_merchant
  = Ok {| Engine.result := Engine.PList [];
          Engine.message := Some "No transactions found with 'Shoprite'.";
          Engine.unit := None;
          Engine.description := None |} /\
  Spec.supplied Scenario.by_category_and_merchant "category" = true /\
  "No transactions found with 'Shoprite'."
  <> "No transactions found in the 'groceries' category.".
Proof. split_and!; [vm_compute; reflexivity | reflexivity | discriminate]. Qed.

(** C5, amended: when the filtered set is empty,
    [processTransactionDataForAI] returns an empty list as [result], never
    a number, and a message chosen among the supplied filters in this
    order of preference: the date range, when both [startDate] and
    [endDate] are supplied; else the merchant; else the category; and the
    generic message when none of these is supplied. *)
Theorem empty_result_message (rt : Runtime) (transactions : list obj)
    (userId : string) (params : obj) :
  Engine.filterTransactions rt transactions userId params = Ok [] ->
  exists s : Engine.summary,
    Engine.processTransactionDataForAI rt transactions userId params = Ok s /\
    Engine.result s = Engine.PList [] /\
    Engine.result s <> Engine.PValue (VNum zero) /\
    Engine.unit s = None /\
    Engine.message s =
      Some (if Spec.supplied params "startDate" &&
               Spec.supplied params "endDate"
            then "No transactions found between " ++
                 to_string rt (get params "startDate") ++ " and " ++
                 to_string rt (get params "endDate") ++ "."
            else if Spec.supplied params "merchantName"
            then "No transactions found with '" ++
                 to_string rt (get params "merchantName") ++ "'."
            else if Spec.supplied params "category"
            then "No transactions found in the '" ++
                 to_string rt (get params "category") ++ "' category."
            else "No transactions found matching your criteria.").
Proof.
  intros Hf. unfold Engine.processTransactionDataForAI.
  rewrite Hf. cbn [res_bind].
  eexists; split; [reflexivity|]. cbn.
  split_and!; try reflexivity; discriminate.
Qed.

Lemma scenario_merchant_filter :
  Engine.filterTransactions UtcHost.runtime Scenario.fetched "A1"
    Scenario.by_category_and_merchant = Ok [].
Proof. vm_compute. reflexivity. Qed.

Lemma empty_result_message_witness :
  exists s : Engine.summary,
    Engine.processTransactionDataForAI UtcHost.runtime Scenario.fetched "A1"
      Scenario.by_category_and_merchant = Ok s /\
    Engine.result s = Engine.PList [] /\
    Engine.message s = Some "No transactions found with 'Shoprite'.".
Proof.
  destruct (empty_result_message UtcHost.runtime Scenario.fetched "A1"
              Scenario.by_category_and_merchant scenario_merchant_filter)
    as (s & Hs & Hr & _ & _ & Hm).
  exists s; split_and!; [exact Hs | exact Hr | exact Hm].
Defined.

(** *** The total *)

(** The claim C2 as the specification states it fails: the total is
    returned as a number, not as a string with two decimal places. *)
Lemma total_is_not_formatted :
  exists x : number,
    Engine.processTransactionDataForAI UtcHost.runtime Scenario.fetched "A1"
      Scenario.total
    = Ok {| Engine.result := Engine.PValue (VNum x);
            Engine.message := None;
            Engine.unit := Some "currency";
            Engine.description := Some "Total amount" |} /\
    toFixed2 x = "150.00" /\
    Engine.PValue (VNum x) <> Engine.PValue (VStr "150.00") /\
    num_to_string x = "150" /\
    Spec.two_decimals (num_to_string x) = false.
Proof.
  eexists; split_and!;
    [vm_compute; reflexivity | reflexivity | discriminate
    | vm_compute; reflexivity | vm_compute; reflexivity].
Qed.

(** C2, amended: with [summaryType] ["total_amount"] and a non-empty
    filtered set, [processTransactionDataForAI] returns as [result] the
    number that is the sum, from the left, of the parsed amounts of the
    filtered transactions whose [fromAccount] or [toAccount] is the
    requesting account, each at face value, debits not negated; the number
    is returned as it is, with the unit ["currency"]. *)
Theorem total_amount_is_gross_sum (rt : Runtime) (transactions : list obj)
    (userId : string) (params : obj) (filteredTx : list obj) :
  Engine.filterTransactions rt transactions userId params = Ok filteredTx ->
  filteredTx <> [] ->
  is_string (get params "summaryType") "total_amount" = true ->
  Engine.processTransactionDataForAI rt transactions userId params
  = Ok {| Engine.result :=
            Engine.PValue
              (VNum (Spec.sum_of
                       (map Spec.parsedAmount
                            (List.filter (Spec.involves userId) filteredTx))));
          Engine.message := None;
          Engine.unit := Some "currency";
          Engine.description := Some "Total amount" |}.
Proof.
  intros Hf Hne Ht. unfold Engine.processTransactionDataForAI.
  rewrite Hf. cbn [res_bind].
  destruct filteredTx as [|tx l]; [congruence|].
  apply is_string_true in Ht as Hs. rewrite Hs.
  change (is_string (VStr "total_amount") "count") with false.
  change (is_string (VStr "total_amount") "total_amount") with true.
  cbv iota. now rewrite total_is_sum.
Qed.

Lemma scenario_total_filter :
  Engine.filterTransactions UtcHost.runtime Scenario.fetched "A1"
    Scenario.total = Ok Scenario.fetched.
Proof. vm_cast_no_check (eq_refl (Ok Scenario.fetched)). Qed.

Lemma total_amount_is_gross_sum_witness :
  Scenario.fetched <> [] /\
  Engine.processTransactionDataForAI UtcHost.runtime Scenario.fetched "A1"
    Scenario.total
  = Ok {| Engine.result :=
            Engine.PValue
              (VNum (Spec.sum_of
                       (map Spec.parsedAmount
                            (List.filter (Spec.involves "A1")
                                         Scenario.fetched))));
          Engine.message := None;
          Engine.unit := Some "currency";
          Engine.description := Some "Total amount" |}.
Proof.
  pose proof scenario_fetched_nonempty as Hne.
  split; [exact Hne|].
  apply (total_amount_is_gross_sum UtcHost.runtime Scenario.fetched "A1"
           Scenario.total Scenario.fetched scenario_total_filter Hne).
  reflexivity.
Defined.

(** The total of the scenario: 50 received and 100 sent make 150. *)
Example scenario_total :
  Spec.sum_of (map Spec.parsedAmount
                   (List.filter (Spec.involves "A1") Scenario.fetched))
  = parseFloat_string "150".
Proof. vm_compute. reflexivity. Qed.

(** ** Currency formatting *)

Section Digits.
Import Spec.

Lemma all_digits_app (a b : string) :
  all_digits (a ++ b) = all_digits a && all_digits b.
Proof.
  induction a as [|c a IH]; [reflexivity|].
  rewrite append_cons. cbn. now rewrite IH, andb_assoc.
Qed.

Lemma all_digits_zeros (n : nat) : all_digits (zeros n) = true.
Proof. induction n; [reflexivity | exact IHn]. Qed.

Lemma take_drop_chars (n : nat) (s : string) :
  take_chars n s ++ drop_chars n s = s.
Proof.
  revert s; induction n as [|n IH]; intros [|c s]; try reflexivity.
  cbn [take_chars drop_chars]. rewrite append_cons. now rewrite IH.
Qed.

Lemma length_drop_chars (n : nat) (s : string) :
  String.length (drop_chars n s) = (String.length s - n)%nat.
Proof.
  revert s; induction n as [|n IH]; intros [|c s]; try reflexivity.
  cbn. apply IH.
Qed.

Lemma length_take_chars (n : nat) (s : string) :
  (n <= String.length s)%nat -> String.length (take_chars n s) = n.
Proof.
  revert s; induction n as [|n IH]; intros [|c s] H; try reflexivity;
    cbn in H |- *; [lia|].
  rewrite IH; [reflexivity | lia].
Qed.

Lemma scan_all_digits (b : string) :
  all_digits b = true ->
  forall acc count,
    scan_digits b acc count
    = (digits_val b acc, count + Z.of_nat (String.length b), "").
Proof.
  induction b as [|c b IH]; intros H acc count.
  - cbn. now rewrite Z.add_0_r.
  - cbn in H. apply andb_true_iff in H as [Hc Hb].
    unfold is_digit in Hc. cbn [scan_digits digits_val String.length].
    destruct (digit_of c) as [d|]; [|discriminate].
    rewrite IH by exact Hb. f_equal. f_equal. lia.
Qed.

Lemma digits_val_app (a b : string) :
  all_digits a = true ->
  forall acc, digits_val (a ++ b) acc = digits_val b (digits_val a acc).
Proof.
  induction a as [|c a IH]; intros H acc; [reflexivity|].
  cbn in H. apply andb_true_iff in H as [Hc Ha].
  unfold is_digit in Hc. rewrite append_cons. cbn [digits_val].
  destruct (digit_of c) as [d|]; [|discriminate].
  now apply IH.
Qed.

Lemma digits_val_zeros (n : nat) : digits_val (zeros n) 0 = 0.
Proof. induction n; [reflexivity | exact IHn]. Qed.

Lemma digit_not_point (c : ascii) :
  is_digit c = true -> Ascii.eqb c "." = false.
Proof.
  intros H. destruct (Ascii.eqb c ".") eqn:E; [|reflexivity].
  apply Ascii.eqb_eq in E; subst c. discriminate.
Qed.

Lemma digit_not_minus (c : ascii) :
  is_digit c = true -> Ascii.eqb c "-" = false.
Proof.
  intros H. destruct (Ascii.eqb c "-") eqn:E; [|reflexivity].
  apply Ascii.eqb_eq in E; subst c. discriminate.
Qed.

(** Digits, a point, two digits: the string has two decimals and reads as
    the number its digits write. *)
Lemma fixed2_tail_intro (a b : string) :
  all_digits a = true -> all_digits b = true -> String.length b = 2%nat ->
  fixed2_tail (a ++ "." ++ b) = true.
Proof.
  intros Ha Hb Hl. induction a as [|c a IH].
  - change (fixed2_tail ("" ++ "." ++ b))
      with ((String.length b =? 2)%nat && all_digits b).
    now rewrite Hl, Hb.
  - cbn in Ha. apply andb_true_iff in Ha as [Hc Ha].
    rewrite append_cons. cbn [fixed2_tail].
    rewrite (digit_not_point c Hc), Hc. now apply IH.
Qed.

Lemma read_fixed2_intro (a b : string) :
  all_digits a = true -> all_digits b = true -> String.length b = 2%nat ->
  forall acc,
    read_fixed2 (a ++ "." ++ b) acc = Some (digits_val (a ++ b) acc).
Proof.
  intros Ha Hb Hl. induction a as [|c a IH]; intros acc.
  - change (read_fixed2 ("" ++ "." ++ b) acc)
      with (let '(v, n, r) := scan_digits b acc 0 in
            if (n =? 2) && String.eqb r "" then Some v else None).
    rewrite (scan_all_digits b Hb), Hl. reflexivity.
  - cbn in Ha. apply andb_true_iff in Ha as [Hc Ha].
    rewrite !append_cons. cbn [read_fixed2 digits_val].
    rewrite (digit_not_point c Hc).
    unfold is_digit in Hc. destruct (digit_of c) as [d|]; [|discriminate].
    now apply IH.
Qed.

(** *** The decimal numeral of a natural number *)

Lemma string_of_uint_digits (d : Decimal.uint) :
  all_digits (NilEmpty.string_of_uint d) = true /\
  forall acc, digits_val (NilEmpty.string_of_uint d) acc = uint_val d acc.
Proof.
  induction d as [|d [IH1 IH2]|d [IH1 IH2]|d [IH1 IH2]|d [IH1 IH2]
                  |d [IH1 IH2]|d [IH1 IH2]|d [IH1 IH2]|d [IH1 IH2]
                  |d [IH1 IH2]|d [IH1 IH2]];
    (split; [try reflexivity; exact IH1 |
             intros acc; try reflexivity; exact (IH2 _)]).
Qed.

Lemma uint_val_acc (d : Decimal.uint) (p : positive) :
  uint_val d (Zpos p) = Zpos (Pos.of_uint_acc d p).
Proof.
  revert p; induction d; intros p; cbn [uint_val Pos.of_uint_acc];
    try reflexivity;
    match goal with
    | |- uint_val _ ?z = Zpos (Pos.of_uint_acc _ ?q) =>
        replace z with (Zpos q) by (cbn; lia)
    end; apply IHd.
Qed.

Lemma uint_val_0 (d : Decimal.uint) :
  uint_val d 0 = Z.of_N (Pos.of_uint d).
Proof.
  induction d; cbn [uint_val Pos.of_uint]; try reflexivity;
    try exact IHd;
    match goal with
    | |- uint_val _ ?z = _ => change z with (Zpos (Z.to_pos z))
    end; rewrite uint_val_acc; reflexivity.
Qed.

Lemma decimal_digits (n : N) :
  all_digits (decimal n) = true /\
  digits_val (decimal n) 0 = Z.of_N n /\
  (1 <= String.length (decimal n))%nat.
Proof.
  unfold decimal, NilZero.string_of_uint.
  pose proof (DecimalN.Unsigned.of_to n) as Hn.
  destruct (N.to_uint n) as [|d|d|d|d|d|d|d|d|d|d] eqn:E.
  - cbn in Hn. subst n. now split_and!.
  - destruct (string_of_uint_digits (Decimal.D0 d)) as [H1 H2].
    split_and!; [exact H1 | rewrite H2, uint_val_0; now rewrite <- Hn
                | cbn; lia].
  - destruct (string_of_uint_digits (Decimal.D1 d)) as [H1 H2].
    split_and!; [exact H1 | rewrite H2, uint_val_0; now rewrite <- Hn
                | cbn; lia].
  - destruct (string_of_uint_digits (Decimal.D2 d)) as [H1 H2].
    split_and!; [exact H1 | rewrite H2, uint_val_0; now rewrite <- Hn
                | cbn; lia].
  - destruct (string_of_uint_digits (Decimal.D3 d)) as [H1 H2].
    split_and!; [exact H1 | rewrite H2, uint_val_0; now rewrite <- Hn
                | cbn; lia].
  - destruct (string_of_uint_digits (Decimal.D4 d)) as [H1 H2].
    split_and!; [exact H1 | rewrite H2, uint_val_0; now rewrite <- Hn
                | cbn; lia].
  - destruct (string_of_uint_digits (Decimal.D5 d)) as [H1 H2].
    split_and!; [exact H1 | rewrite H2, uint_val_0; now rewrite <- Hn
                | cbn; lia].
  - destruct (string_of_uint_digits (Decimal.D6 d)) as [H1 H2].
    split_and!; [exact H1 | rewrite H2, uint_val_0; now rewrite <- Hn
                | cbn; lia].
  - destruct (string_of_uint_digits (Decimal.D7 d)) as [H1 H2].
    split_and!; [exact H1 | rewrite H2, uint_val_0; now rewrite <- Hn
                | cbn; lia].
  - destruct (string_of_uint_digits (Decimal.D8 d)) as [H1 H2].
    split_and!; [exact H1 | rewrite H2, uint_val_0; now rewrite <- Hn
                | cbn; lia].
  - destruct (string_of_uint_digits (Decimal.D9 d)) as [H1 H2].
    split_and!; [exact H1 | rewrite H2, uint_val_0; now rewrite <- Hn
                | cbn; lia].
Qed.

End Digits.

Section Fixed.
Import Spec.

Lemma length_zeros (n : nat) : String.length (zeros n) = n.
Proof. induction n; [reflexivity | cbn; now rewrite IHn]. Qed.

(** What [toFixed(2)] writes for the integer [n] of hundredths. *)
Lemma fixed2_digits_shape (n : Z) :
  0 <= n ->
  exists (c : ascii) (a b : string),
    fixed2_digits n = String c a ++ "." ++ b /\
    is_digit c = true /\ all_digits a = true /\ all_digits b = true /\
    String.length b = 2%nat /\
    digits_val (String c a ++ b) 0 = n.
Proof.
  intros Hn. unfold fixed2_digits.
  destruct (decimal_digits (Z.to_N n)) as (Hd & Hv & Hl).
  rewrite Z2N.id in Hv by exact Hn.
  set (m0 := decimal (Z.to_N n)) in *.
  set (m := zeros (3 - String.length m0) ++ m0).
  assert (Hm : all_digits m = true).
  { unfold m. now rewrite all_digits_app, all_digits_zeros, Hd. }
  assert (Hk : (3 <= String.length m)%nat).
  { unfold m. rewrite length_append, length_zeros. lia. }
  assert (Hval : digits_val m 0 = n).
  { unfold m. rewrite digits_val_app by apply all_digits_zeros.
    now rewrite digits_val_zeros. }
  pose proof (take_drop_chars (String.length m - 2) m) as Hsplit.
  set (a := take_chars (String.length m - 2) m) in *.
  set (b := drop_chars (String.length m - 2) m) in *.
  assert (Hab : all_digits a = true /\ all_digits b = true).
  { apply andb_true_iff. rewrite <- all_digits_app, Hsplit. exact Hm. }
  destruct Hab as [Ha Hb].
  assert (Hlb : String.length b = 2%nat).
  { unfold b. rewrite length_drop_chars. lia. }
  assert (Hla : String.length a = (String.length m - 2)%nat).
  { unfold a. apply length_take_chars. lia. }
  destruct a as [|c a'] eqn:Ea; [cbn in Hla; lia|].
  exists c, a', b. cbn in Ha. apply andb_true_iff in Ha as [Hc Ha].
  split_and!; try assumption; try reflexivity.
  now rewrite Hsplit.
Qed.

Lemma fixed2_digits_reads (n : Z) (neg : bool) :
  0 <= n ->
  two_decimals ((if neg then "-" else "") ++ fixed2_digits n) = true /\
  amount_of ((if neg then "-" else "") ++ fixed2_digits n)
  = Some (cond_Zopp neg n).
Proof.
  intros Hn.
  destruct (fixed2_digits_shape n Hn)
    as (c & a & b & -> & Hc & Ha & Hb & Hl & Hv).
  assert (Hall : all_digits (String c a) = true) by (cbn; now rewrite Hc, Ha).
  pose proof (fixed2_tail_intro (String c a) b Hall Hb Hl) as Ht.
  pose proof (read_fixed2_intro (String c a) b Hall Hb Hl 0) as Hr.
  rewrite Hv in Hr.
  assert (Hu : unsigned_fixed2 (String c a ++ "." ++ b) = true).
  { rewrite append_cons in Ht |- *. cbn [unsigned_fixed2]. now rewrite Hc, Ht. }
  destruct neg.
  - change ("-" ++ (String c a ++ "." ++ b))
      with (String "-" (String c a ++ "." ++ b)).
    cbn [two_decimals amount_of]. change (Ascii.eqb "-" "-") with true.
    cbv iota. rewrite Hu, Hr. split; reflexivity.
  - rewrite append_nil.
    rewrite append_cons in Hu, Hr |- *.
    cbn [two_decimals amount_of]. rewrite (digit_not_minus c Hc).
    rewrite Hu, Hr. split; reflexivity.
Qed.

Lemma hundredths_nonneg (m : positive) (e : Z) : 0 <= hundredths m e.
Proof.
  unfold hundredths. destruct e as [|p|p].
  - lia.
  - assert (0 < 2 ^ Zpos p) by (apply Z.pow_pos_nonneg; lia). nia.
  - apply Z.div_pos.
    + assert (0 < 2 ^ Zpos p) by (apply Z.pow_pos_nonneg; lia). lia.
    + apply Z.pow_pos_nonneg; lia.
Qed.

(** [formatCurrency], by the number its argument parses to. *)
Lemma formatCurrency_below_1e21 (v : value) :
  below_1e21 (parseFloat v) = true ->
  two_decimals (Controller.formatCurrency v) = true /\
  amount_of (Controller.formatCurrency v) = Some (cents (parseFloat v)).
Proof.
  unfold Controller.formatCurrency.
  destruct (parseFloat v) as [s|s| |s m e]; cbn [below_1e21 num_isNaN];
    intros H; try discriminate.
  - split; reflexivity.
  - apply negb_true_iff in H. cbn [toFixed2 cents]. rewrite H.
    apply fixed2_digits_reads, hundredths_nonneg.
Qed.

End Fixed.

Section FloatOrder.
Import Spec.

Lemma digits2_bounds (m : positive) :
  2 ^ (Zpos (digits2_pos m) - 1) <= Zpos m < 2 ^ Zpos (digits2_pos m).
Proof.
  induction m as [m IH|m IH|]; cbn [digits2_pos].
  - rewrite Pos2Z.inj_succ, (Pos2Z.inj_xI m).
    replace (Z.succ (Zpos (digits2_pos m)) - 1)
      with (Z.succ (Zpos (digits2_pos m) - 1)) by lia.
    rewrite !Z.pow_succ_r by lia. lia.
  - rewrite Pos2Z.inj_succ, (Pos2Z.inj_xO m).
    replace (Z.succ (Zpos (digits2_pos m)) - 1)
      with (Z.succ (Zpos (digits2_pos m) - 1)) by lia.
    rewrite !Z.pow_succ_r by lia. lia.
  - cbn. lia.
Qed.

(** A valid finite number has at most 53 digits, and exactly 53 unless its
    exponent is the least one. *)
Lemma bounded_digits (m : positive) (e : Z) :
  bounded prec emax m e = true ->
  Zpos (digits2_pos m) <= 53 /\
  -1074 <= e /\
  (-1074 < e -> Zpos (digits2_pos m) = 53).
Proof.
  unfold bounded, canonical_mantissa, fexp, emin, prec, emax.
  intros H. apply andb_true_iff in H as [H _].
  apply Z.eqb_eq in H. lia.
Qed.

(** With a smaller exponent the magnitude is smaller. *)
Lemma magnitude_lt (m1 m2 : positive) (e1 e2 k : Z) :
  bounded prec emax m1 e1 = true ->
  bounded prec emax m2 e2 = true ->
  e1 < e2 -> 0 <= e1 + k ->
  Zpos m1 * 2 ^ (e1 + k) < Zpos m2 * 2 ^ (e2 + k).
Proof.
  intros H1 H2 He Hk.
  destruct (bounded_digits m1 e1 H1) as (Hd1 & Hmin & _).
  destruct (bounded_digits m2 e2 H2) as (_ & _ & Hd2).
  pose proof (digits2_bounds m1) as [_ Hm1].
  pose proof (digits2_bounds m2) as [Hm2 _].
  rewrite Hd2 in Hm2 by lia.
  assert (Hp1 : 2 ^ Zpos (digits2_pos m1) <= 2 ^ 53)
    by (apply Z.pow_le_mono_r; lia).
  replace (e2 + k) with ((e1 + k) + (e2 - e1)) by lia.
  rewrite (Z.pow_add_r 2 (e1 + k) (e2 - e1)) by lia.
  assert (HP : 0 < 2 ^ (e1 + k)) by (apply Z.pow_pos_nonneg; lia).
  assert (HQ : 2 ^ 1 <= 2 ^ (e2 - e1)) by (apply Z.pow_le_mono_r; lia).
  change (2 ^ 1) with 2 in HQ.
  change (2 ^ (53 - 1)) with 4503599627370496 in Hm2.
  change (2 ^ 53) with 9007199254740992 in Hp1.
  set (P := 2 ^ (e1 + k)) in *. set (Q := 2 ^ (e2 - e1)) in *.
  assert (Hm : Zpos m1 < 9007199254740992) by lia.
  assert (HA : Zpos m1 * P < 9007199254740992 * P)
    by (apply Z.mul_lt_mono_pos_r; assumption).
  assert (HC : P * 2 <= P * Q) by (apply Z.mul_le_mono_nonneg_l; lia).
  assert (HB : 4503599627370496 * (P * Q) <= Zpos m2 * (P * Q))
    by (apply Z.mul_le_mono_nonneg_r; lia).
  lia.
Qed.

(** The hundredths of [m * 2 ^ e], from the magnitude scaled by
    [2 ^ k]. *)
Lemma hundredths_scaled (m : positive) (e k : Z) :
  0 <= k -> 0 <= e + k ->
  hundredths m e = (200 * (Zpos m * 2 ^ (e + k)) + 2 ^ k) / 2 ^ (k + 1).
Proof.
  intros Hk Hek.
  assert (H2k : 0 < 2 ^ k) by (apply Z.pow_pos_nonneg; lia).
  rewrite (Z.pow_add_r 2 k 1) by lia. change (2 ^ 1) with 2.
  unfold hundredths. destruct e as [|p|p].
  - rewrite Z.add_0_l. change (2 ^ 0) with 1.
    apply (Z.div_unique_pos _ _ _ (2 ^ k)); lia.
  - rewrite (Z.pow_add_r 2 (Zpos p) k) by lia.
    assert (0 < 2 ^ Zpos p) by (apply Z.pow_pos_nonneg; lia).
    apply (Z.div_unique_pos _ _ _ (2 ^ k)); [lia | ring].
  - assert (Hj : 0 < 2 ^ Zpos p) by (apply Z.pow_pos_nonneg; lia).
    assert (Hs : 0 < 2 ^ (Zneg p + k)) by (apply Z.pow_pos_nonneg; lia).
    assert (Hsplit : 2 ^ k = 2 ^ (Zneg p + k) * 2 ^ Zpos p).
    { rewrite <- Z.pow_add_r by lia. f_equal. lia. }
    rewrite (Z.pow_add_r 2 (Zpos p) 1) by lia. change (2 ^ 1) with 2.
    rewrite Hsplit at 1 2.
    replace (200 * (Zpos m * 2 ^ (Zneg p + k)) +
             2 ^ (Zneg p + k) * 2 ^ Zpos p)
      with (2 ^ (Zneg p + k) * (200 * Zpos m + 2 ^ Zpos p)) by ring.
    replace (2 ^ (Zneg p + k) * 2 ^ Zpos p * 2)
      with (2 ^ (Zneg p + k) * (2 ^ Zpos p * 2)) by ring.
    rewrite Z.div_mul_cancel_l by lia. reflexivity.
Qed.

Lemma hundredths_mono (m1 m2 : positive) (e1 e2 k : Z) :
  0 <= k -> 0 <= e1 + k -> 0 <= e2 + k ->
  Zpos m1 * 2 ^ (e1 + k) <= Zpos m2 * 2 ^ (e2 + k) ->
  hundredths m1 e1 <= hundredths m2 e2.
Proof.
  intros Hk H1 H2 Hle.
  rewrite (hundredths_scaled m1 e1 k), (hundredths_scaled m2 e2 k)
    by assumption.
  apply Z.div_le_mono; [apply Z.pow_pos_nonneg; lia | lia].
Qed.

(** Between two valid finite numbers of the same sign, the comparison of
    numbers orders the hundredths of the magnitudes. *)
Lemma compare_magnitudes (m1 m2 : positive) (e1 e2 : Z) :
  bounded prec emax m1 e1 = true ->
  bounded prec emax m2 e2 = true ->
  match Z.compare e1 e2 with
  | Lt => Lt
  | Gt => Gt
  | Eq => Pos.compare_cont Eq m1 m2
  end <> Gt ->
  hundredths m1 e1 <= hundredths m2 e2.
Proof.
  intros H1 H2 Hc.
  set (k := Z.max 0 (Z.max (- e1) (- e2))).
  apply (hundredths_mono m1 m2 e1 e2 k); try (unfold k; lia).
  destruct (Z.compare_spec e1 e2) as [He|He|He].
  - subst e2. fold (Pos.compare m1 m2) in Hc.
    assert (Hm : (m1 <= m2)%positive) by exact Hc.
    assert (0 < 2 ^ (e1 + k)) by (apply Z.pow_pos_nonneg; unfold k; lia).
    nia.
  - apply Z.lt_le_incl, magnitude_lt; try assumption. unfold k; lia.
  - congruence.
Qed.

(** Rounding to hundredths keeps the order of valid finite numbers. *)
Lemma cents_mono (a b : number) :
  num_valid a = true -> num_valid b = true ->
  below_1e21 a = true -> below_1e21 b = true ->
  num_leb a b = true ->
  cents a <= cents b.
Proof.
  intros Va Vb Ra Rb Hle.
  destruct a as [sa|sa| |sa ma ea]; try discriminate;
    destruct b as [sb|sb| |sb mb eb]; try discriminate;
    cbn [cents].
  - destruct sb; [discriminate|].
    cbn. apply hundredths_nonneg.
  - destruct sa; [|discriminate].
    cbn. pose proof (hundredths_nonneg ma ea). lia.
  - unfold num_valid, valid_binary in Va, Vb.
    unfold num_leb, SFleb, SFcompare in Hle.
    destruct sa, sb; cbn [cond_Zopp].
    + (* both negative: the order of the magnitudes is reversed *)
      assert (hundredths mb eb <= hundredths ma ea); [|lia].
      apply compare_magnitudes; try assumption.
      destruct (Z.compare_spec ea eb) as [He|He|He].
      * subst eb. rewrite Z.compare_refl.
        change (Pos.compare_cont Eq mb ma) with (Pos.compare mb ma).
        change (Pos.compare_cont Eq ma mb) with (Pos.compare ma mb) in Hle.
        rewrite Pos.compare_antisym.
        destruct (Pos.compare ma mb); cbn in *; congruence.
      * discriminate.
      * apply Z.compare_lt_iff in He. rewrite He. discriminate.
    + pose proof (hundredths_nonneg ma ea).
      pose proof (hundredths_nonneg mb eb). lia.
    + discriminate.
    + apply compare_magnitudes; try assumption.
      destruct (Z.compare ea eb); try discriminate.
      destruct (Pos.compare_cont Eq ma mb); try discriminate; congruence.
Qed.

End FloatOrder.

(** The claim C7 as the specification states it fails.  An infinite amount
    is written without decimals, and so is an amount of [10 ^ 21] or more;
    and the results, which are strings, are not ordered as their amounts
    are: 9 is below 10 and ["9.00"] is above ["10.00"]. *)
Lemma formatCurrency_not_always_two_decimals :
  Controller.formatCurrency (VStr "Infinity") = "Infinity" /\
  Spec.two_decimals (Controller.formatCurrency (VStr "Infinity")) = false /\
  Controller.formatCurrency (VStr "1e21") = "1e+21" /\
  num_leb (num_of_Z 9) (num_of_Z 10) = true /\
  Controller.formatCurrency (VNum (num_of_Z 9)) = "9.00" /\
  Controller.formatCurrency (VNum (num_of_Z 10)) = "10.00" /\
  Spec.str_leb (Controller.formatCurrency (VNum (num_of_Z 9)))
               (Controller.formatCurrency (VNum (num_of_Z 10))) = false.
Proof. split_and!; vm_compute; reflexivity. Qed.

(** C7, amended: for an argument that does not parse to a number, or
    parses to a finite number below [10 ^ 21] in magnitude,
    [formatCurrency] writes an optional minus sign, one digit or more, a
    point and exactly two digits; it keeps the order of such numbers in the
    amounts it writes (if [a <= b] as numbers, the amount written for [a]
    is at most the amount written for [b]); [formatCurrency(5)] is
    ["5.00"] and [formatCurrency("abc")] is ["0.00"]. *)
Theorem formatCurrency_two_decimals :
  (forall v : value,
      num_isNaN (parseFloat v) = true \/
      Spec.below_1e21 (parseFloat v) = true ->
      Spec.two_decimals (Controller.formatCurrency v) = true) /\
  (forall a b : value,
      num_valid (parseFloat a) = true ->
      num_valid (parseFloat b) = true ->
      Spec.below_1e21 (parseFloat a) = true ->
      Spec.below_1e21 (parseFloat b) = true ->
      num_leb (parseFloat a) (parseFloat b) = true ->
      exists ca cb : Z,
        Spec.amount_of (Controller.formatCurrency a) = Some ca /\
        Spec.amount_of (Controller.formatCurrency b) = Some cb /\
        ca <= cb) /\
  Controller.formatCurrency (VNum (num_of_Z 5)) = "5.00" /\
  Controller.formatCurrency (VStr "abc") = "0.00".
Proof.
  split_and!.
  - intros v [Hnan|Hr].
    + unfold Controller.formatCurrency. now rewrite Hnan.
    + now apply formatCurrency_below_1e21.
  - intros a b Va Vb Ra Rb Hle.
    destruct (formatCurrency_below_1e21 a Ra) as [_ Ha].
    destruct (formatCurrency_below_1e21 b Rb) as [_ Hb].
    exists (Spec.cents (parseFloat a)), (Spec.cents (parseFloat b)).
    split_and!; [exact Ha | exact Hb | now apply cents_mono].
  - vm_compute. reflexivity.
  - vm_compute. reflexivity.
Qed.

Lemma formatCurrency_two_decimals_witness :
  Spec.two_decimals (Controller.formatCurrency (VStr "-1234.5")) = true /\
  exists ca cb : Z,
    Spec.amount_of (Controller.formatCurrency (VStr "9.995")) = Some ca /\
    Spec.amount_of (Controller.formatCurrency (VNum (num_of_Z 10)))
      = Some cb /\
    ca <= cb.
Proof.
  destruct formatCurrency_two_decimals as (H1 & H2 & _).
  split.
  - apply H1. right. vm_compute. reflexivity.
  - apply H2; vm_compute; reflexivity.
Defined.

(** What is written for the amounts of the witness. *)
Example formatCurrency_samples :
  map Controller.formatCurrency
      [VStr "-1234.5"; VStr "9.995"; VNum (num_of_Z 10); VStr "0.005";
       VStr "-0.001"; VNull; VStr "12abc"]
  = ["-1234.50"; "9.99"; "10.00"; "0.01"; "-0.00"; "0.00"; "12.00"].
Proof. vm_compute. reflexivity. Qed.

(* ===================================================================== *)
(** * Further properties *)
(* ===================================================================== *)

(** ** The connection probe *)

Section ProbeMore.
Import Controller Spec.

Variable opts : RetryOptions.
Variable pool : Pool.
Variable name : string.

Lemma releases_app (a c : list event) :
  releases (a ++ c)%list = (releases a + releases c)%nat.
Proof. induction a as [|[] a IHa]; cbn; auto. Qed.

Lemma obtained_S (from count : nat) :
  obtained pool from (S count)
  = ((if obtains (pool from) then 1 else 0) + obtained pool (S from) count)%nat.
Proof. unfold obtained. cbn. now destruct (obtains (pool from)). Qed.

(** Every client the race yields is released once, and nothing else is. *)
Lemma testConnection_loop_releases (fuel attempts : nat) (connected : bool)
    (t : list event) :
  testConnection_loop opts pool name fuel attempts = (Ok connected, t) ->
  releases t = obtained pool attempts (connections t).
Proof.
  revert attempts connected t; induction fuel as [|fuel IH];
    intros attempts connected t H.
  - cbn in H. inversion H. reflexivity.
  - destruct (Nat.ltb_spec attempts (maxRetries opts)) as [Hlt|Hge].
    2:{ cbn [testConnection_loop] in H.
        apply Nat.ltb_ge in Hge; rewrite Hge in H.
        inversion H. reflexivity. }
    destruct (testConnection_loop_returns opts pool name fuel (S attempts))
      as (b & t' & H').
    rewrite (testConnection_loop_step opts pool name fuel attempts _ _ Hlt H')
      in H.
    pose proof (IH (S attempts) b t' H') as Hrec.
    destruct (pool attempts) as [m| |m|] eqn:Hpa; inversion H; subst t;
      cbn [releases connections]; rewrite ?obtained_S, ?Hpa;
      cbn [obtains];
      destruct (S attempts <? maxRetries opts)%nat;
      cbn [app releases connections obtained]; rewrite ?Hrec;
      try reflexivity.
Qed.

(** The loop started with [attempts] failures behind it, when attempt
    number [n] is the first to answer. *)
Lemma testConnection_loop_first_answer (n : nat) :
  forall (fuel attempts : nat),
    (attempts <= n < maxRetries opts)%nat ->
    (maxRetries opts <= fuel + attempts)%nat ->
    pool n = Answers ->
    (forall k, (attempts <= k < n)%nat -> fails (pool k)) ->
    exists t,
      testConnection_loop opts pool name fuel attempts = (Ok true, t) /\
      connections t = S (n - attempts) /\
      failures t = seq (S attempts) (n - attempts).
Proof.
  intros fuel; induction fuel as [|fuel IH]; intros attempts Hn Hf Hans Hbefore;
    [lia|].
  assert (Hlt : (attempts < maxRetries opts)%nat) by lia.
  destruct (testConnection_loop_returns opts pool name fuel (S attempts))
    as (b & t' & H').
  rewrite (testConnection_loop_step opts pool name fuel attempts _ _ Hlt H').
  destruct (Nat.eq_dec attempts n) as [->|Hne].
  - rewrite Hans. eexists; split; [reflexivity|].
    replace (n - n)%nat with 0%nat by lia. split; reflexivity.
  - destruct (IH (S attempts)) as (t0 & Ht0 & Hc & Hfl);
      [lia | lia | exact Hans | intros k Hk; apply Hbefore; lia |].
    rewrite Ht0 in H'. inversion H'; subst b t'.
    assert (Hfail : fails (pool attempts)) by (apply Hbefore; lia).
    replace (n - attempts)%nat with (S (n - S attempts)) by lia.
    destruct (pool attempts) as [m| |m|] eqn:Hpa;
      try (exfalso; apply Hfail; reflexivity);
      eexists; (split; [reflexivity|]);
      destruct (S attempts <? maxRetries opts)%nat;
      cbn [app connections failures]; rewrite Hc, Hfl;
      split; reflexivity.
Qed.

End ProbeMore.

(** X1: for a pool whose attempts settle (the connection is obtained, is
    refused or loses the race against the timer, and [SELECT 1] answers or
    is rejected), [testConnection] reports the store reachable exactly when
    one of its first three attempts answers; it stops at the first attempt
    that answers, having made one attempt for each failure before it and
    no attempt after it. *)
Theorem testConnection_true_iff (pool : Controller.Pool) (name : string) :
  exists (connected : bool) (t : list Controller.event),
    Controller.testConnection pool name = (Ok connected, t) /\
    (connected = true <-> exists n, (n < 3)%nat /\ pool n = Controller.Answers) /\
    (forall n,
        (n < 3)%nat -> pool n = Controller.Answers ->
        (forall k, (k < n)%nat -> Spec.fails (pool k)) ->
        connected = true /\
        Spec.connections t = S n /\
        Spec.failures t = seq 1 n).
Proof.
  destruct (testConnection_loop_returns Controller.retryOptions pool name 3 0)
    as (connected & t & H).
  exists connected, t. split; [exact H|].
  destruct (testConnection_loop_trace Controller.retryOptions pool name
              3 0 connected t) as (_ & _ & _ & _ & _ & Hall & Hsome);
    [cbn; lia | exact H |].
  split.
  - split.
    + intros Hc. destruct (Hsome Hc) as (n & Hn & Hp).
      exists n. split; [cbn in Hn; lia | exact Hp].
    + intros (n & Hn & Hp).
      destruct connected; [reflexivity|]. exfalso.
      (* the first answering attempt makes the loop return true *)
      assert (Hfirst : exists n0, (n0 < 3)%nat /\ pool n0 = Controller.Answers /\
                                  forall k, (k < n0)%nat -> Spec.fails (pool k)).
      { clear - Hn Hp.
        destruct (pool 0%nat) eqn:H0;
          try (exists 0%nat; split_and!; [lia | exact H0 | intros k Hk; lia]).
        all: destruct (pool 1%nat) eqn:H1;
          try (exists 1%nat; split_and!; [lia | exact H1 |
               intros k Hk; assert (k = 0%nat) as -> by lia;
               unfold Spec.fails; rewrite H0; discriminate]).
        all: destruct (pool 2%nat) eqn:H2;
          try (exists 2%nat; split_and!; [lia | exact H2 |
               intros k Hk;
               assert (k = 0%nat \/ k = 1%nat) as [-> | ->] by lia;
               unfold Spec.fails; [rewrite H0 | rewrite H1]; discriminate]).
        all: exfalso;
          assert (n = 0%nat \/ n = 1%nat \/ n = 2%nat) as [-> | [-> | ->]]
            by lia; congruence. }
      destruct Hfirst as (n0 & Hn0 & Hp0 & Hb0).
      destruct (testConnection_loop_first_answer Controller.retryOptions
                  pool name n0 3 0) as (t0 & Ht0 & _);
        [cbn; lia | cbn; lia | exact Hp0 | intros k Hk; apply Hb0; lia |].
      unfold Controller.testConnection, Controller.testConnection_with in H.
      cbn [Controller.maxRetries Controller.retryOptions] in H.
      rewrite Ht0 in H. discriminate.
  - intros n Hn Hp Hb.
    destruct (testConnection_loop_first_answer Controller.retryOptions
                pool name n 3 0) as (t0 & Ht0 & Hc & Hf);
      [cbn; lia | cbn; lia | exact Hp | intros k Hk; apply Hb; lia |].
    unfold Controller.testConnection, Controller.testConnection_with in H.
    cbn [Controller.maxRetries Controller.retryOptions] in H.
    rewrite Ht0 in H. inversion H; subst connected t.
    rewrite Nat.sub_0_r in Hc, Hf. split_and!; [reflexivity | exact Hc | exact Hf].
Qed.

Lemma testConnection_true_iff_witness :
  exists t : list Controller.event,
    Controller.testConnection
      (fun n => match n with
                | 0%nat => Controller.TimerFires
                | 1%nat => Controller.QueryRejects "terminating connection"
                | _ => Controller.Answers
                end) "ledger" = (Ok true, t) /\
    Spec.connections t = 3%nat /\
    Spec.failures t = [1; 2]%nat.
Proof.
  destruct (testConnection_true_iff
              (fun n => match n with
                        | 0%nat => Controller.TimerFires
                        | 1%nat =>
                            Controller.QueryRejects "terminating connection"
                        | _ => Controller.Answers
                        end) "ledger") as (connected & t & H & _ & Hfirst).
  destruct (Hfirst 2%nat) as (Hc & Hn & Hf);
    [lia | reflexivity
    | intros [|[|k]] Hk; [discriminate | discriminate | lia] |].
  exists t. subst connected. split_and!; assumption.
Defined.

(** X2: [testConnection] releases every client it obtains, once: the number
    of releases is the number of attempts made in which the connection won
    the race, whether [SELECT 1] then answered or failed. *)
Theorem testConnection_releases_clients (pool : Controller.Pool)
    (name : string) :
  exists (connected : bool) (t : list Controller.event),
    Controller.testConnection pool name = (Ok connected, t) /\
    Spec.releases t = Spec.obtained pool 0 (Spec.connections t).
Proof.
  destruct (testConnection_loop_returns Controller.retryOptions pool name 3 0)
    as (connected & t & H).
  exists connected, t. split; [exact H|].
  exact (testConnection_loop_releases Controller.retryOptions pool name
           3 0 connected t H).
Qed.

(** ** The transaction fetcher *)

(** X3: when the two probes and the two queries settle,
    [getTransactionData] returns exactly when the account identifier is not
    empty, the ledger probe succeeds and the ledger query is fulfilled,
    whatever the probe and the query of the identity store have settled
    to.  It then returns one transaction for each row and the last four
    characters of the identifier. *)
Theorem getTransactionData_returns_iff (rt : Runtime) (w : Controller.World)
    (accountId : string) :
  ((exists r t, Controller.getTransactionData rt w accountId = (Ok r, t)) <->
   accountId <> "" /\
   (exists t1,
       Controller.testConnection (Controller.ledgerPool w) "ledger"
       = (Ok true, t1)) /\
   (exists rows,
       Controller.ledger_query w accountId = Controller.Fulfilled rows)) /\
  (forall r t rows,
      Controller.getTransactionData rt w accountId = (Ok r, t) ->
      Controller.ledger_query w accountId = Controller.Fulfilled rows ->
      length (Controller.transactions r) = length rows /\
      Controller.accountNumber r = Controller.getLastFour (VStr accountId)).
Proof.
  destruct (testConnection_returns (Controller.ledgerPool w) "ledger")
    as (lc & t1 & H1).
  destruct (testConnection_returns (Controller.accountsPool w) "accounts")
    as (ac & t2 & H2).
  split; [split|].
  - intros (r & t & H).
    destruct (getTransactionData_returned rt w accountId r t H)
      as (Hid & rows & Hrows & _).
    split; [exact Hid|]. split; [|eauto].
    rewrite (getTransactionData_run rt w accountId lc ac t1 t2 Hid H1 H2) in H.
    destruct lc; [eauto | discriminate].
  - intros (Hid & (t1' & H1') & (rows & Hrows)).
    rewrite H1' in H1. inversion H1; subst lc t1'.
    rewrite (getTransactionData_run rt w accountId true ac t1 t2 Hid H1' H2).
    rewrite Hrows. eauto.
  - intros r t rows H Hrows.
    destruct (getTransactionData_returned rt w accountId r t H)
      as (Hid & rows' & Hrows' & Htx).
    rewrite Hrows in Hrows'. inversion Hrows'; subst rows'.
    rewrite Htx, assignBalances_length, length_map. split; [reflexivity|].
    rewrite (getTransactionData_run rt w accountId lc ac t1 t2 Hid H1 H2) in H.
    destruct lc; [|discriminate]. rewrite Hrows in H.
    inversion H. reflexivity.
Qed.

(** X4: the three failures of [getTransactionData] and their messages.  An
    empty identifier is refused before any connection attempt.  An
    unreachable ledger gives the retry-later message, whatever the stores
    hold, once both probes have settled: the events are those of the two
    probes, in an order that is not stated, since the probes run
    together.  A rejected ledger query gives its message, wrapped
    twice. *)
Theorem getTransactionData_failures (rt : Runtime) (w : Controller.World)
    (accountId : string) :
  Controller.getTransactionData rt w "" =
    (Throw (Error "'accountId' is required"), []) /\
  (accountId <> "" ->
   forall t1,
     Controller.testConnection (Controller.ledgerPool w) "ledger"
       = (Ok false, t1) ->
     exists ac t2 t,
       Controller.testConnection (Controller.accountsPool w) "accounts"
         = (Ok ac, t2) /\
       Controller.getTransactionData rt w accountId =
       (Throw (Error "Database connection failed after multiple attempts. Please try again later."),
        t) /\
       Permutation t (t1 ++ t2)) /\
  (accountId <> "" ->
   forall t1 m,
     Controller.testConnection (Controller.ledgerPool w) "ledger"
       = (Ok true, t1) ->
     Controller.ledger_query w accountId = Controller.Rejected m ->
     exists t,
       Controller.getTransactionData rt w accountId =
       (Throw (Error ("Failed to retrieve transaction data: " ++
                      "Transaction query failed: " ++ m)), t)).
Proof.
  destruct (testConnection_returns (Controller.accountsPool w) "accounts")
    as (ac & t2 & H2).
  split_and!.
  - reflexivity.
  - intros Hid t1 H1.
    rewrite (getTransactionData_run rt w accountId false ac t1 t2 Hid H1 H2).
    exists ac, t2, (t1 ++ t2)%list.
    split; [exact H2|]. split; reflexivity.
  - intros Hid t1 m H1 Hq.
    rewrite (getTransactionData_run rt w accountId true ac t1 t2 Hid H1 H2).
    rewrite Hq. eexists; reflexivity.
Qed.

Section Trim.
Import Spec.











End Trim.



(** ** Redaction and the shape of a fetched transaction *)

Lemma slice_last4_length (s : string) :
  (String.length (slice_last4 s) <= 4)%nat.
Proof. unfold slice_last4. rewrite length_drop_chars. lia. Qed.

Lemma getLastFour_short_end (v : value) :
  (String.length (Controller.getLastFour v) <= 4)%nat /\
  (Controller.getLastFour v = "****" \/
   exists s front, v = VStr s /\ s = front ++ Controller.getLastFour v).
Proof.
  destruct v as [| |b|x|s|t]; try (split; [cbn; lia | now left]).
  destruct s as [|c s]; [split; [cbn; lia | now left]|].
  change (Controller.getLastFour (VStr (String c s)))
    with (slice_last4 (String c s)).
  split; [apply slice_last4_length|]. right.
  unfold slice_last4.
  destruct (drop_chars_suffix (String.length (String c s) - 4) (String c s))
    as (front & Hs & _); [lia|].
  exists (String c s), front. split; [reflexivity | exact Hs].
Qed.

(** X6: [getLastFour] never returns more than four characters, and what it
    returns for a string is the mask or an end of that string: redaction
    shows nothing but the last characters. *)
Theorem getLastFour_at_most_four (v : value) :
  (String.length (Controller.getLastFour v) <= 4)%nat /\
  (Controller.getLastFour v = "****" \/
   exists s front, v = VStr s /\ s = front ++ Controller.getLastFour v).
Proof. exact (getLastFour_short_end v). Qed.

Section Shape.
Import Controller Spec.

Variable rt : Runtime.

Lemma or_else_string (v : value) :
  or_else v (VStr "") = VStr "" \/ truthy (or_else v (VStr "")) = true.
Proof.
  unfold or_else. destruct (truthy v) eqn:E; [right; exact E | now left].
Qed.

Lemma processRow_dom (accountId : string) (r : row) :
  dom (processRow rt accountId r)
  = fetched_keys ∖ {[ "balance"; "formattedBalance" ]}.
Proof.
  unfold processRow. rewrite !dom_insert_L, dom_empty_L.
  apply set_eq. intros k. unfold fetched_keys. cbn [list_to_set].
  rewrite elem_of_difference, !elem_of_union, !elem_of_singleton,
    elem_of_empty.
  split.
  - intros H. split; [tauto|].
    intros [-> | ->];
      repeat (destruct H as [H|H]; [discriminate|]); exact H.
  - intros [H Hn]. repeat (destruct H as [H|H]; [tauto|]).
    tauto.
Qed.

End Shape.

(** X7: every transaction returned by [getTransactionData] has the same
    eleven properties and no other; its amount is a number, never [NaN]
    (an amount that does not parse counts as zero); its two account
    properties are never [null] or [undefined] (a missing account is the
    empty string); and its two redacted accounts have at most four
    characters. *)
Theorem fetched_transaction_shape (rt : Runtime) (w : Controller.World)
    (accountId : string) (r : Controller.response)
    (t : list Controller.event) (tx : obj) :
  Controller.getTransactionData rt w accountId = (Ok r, t) ->
  In tx (Controller.transactions r) ->
  dom tx = Spec.fetched_keys /\
  (exists a, get tx "amount" = VNum a /\ num_isNaN a = false) /\
  (get tx "fromAccount" = VStr "" \/ truthy (get tx "fromAccount") = true) /\
  (get tx "toAccount" = VStr "" \/ truthy (get tx "toAccount") = true) /\
  (exists s, get tx "fromAccountLastFour" = VStr s /\
             (String.length s <= 4)%nat) /\
  (exists s, get tx "toAccountLastFour" = VStr s /\
             (String.length s <= 4)%nat).
Proof.
  intros H Hin.
  destruct (getTransactionData_returned rt w accountId r t H)
    as (_ & rows & _ & Htxs).
  rewrite Htxs in Hin.
  destruct (fetched_transaction rt accountId rows tx Hin)
    as (row0 & b & _ & ->).
  split_and!.
  - rewrite !dom_insert_L, processRow_dom.
    apply set_eq. intros k. unfold Spec.fetched_keys. cbn [list_to_set].
    rewrite !elem_of_union, elem_of_difference, !elem_of_union,
      !elem_of_singleton, elem_of_empty.
    split; [|destruct (decide (k = "balance"));
             destruct (decide (k = "formattedBalance")); tauto].
    intros [Hk|[Hk|[Hk _]]]; tauto.
  - unfold get. rewrite !assigned_other by discriminate.
    destruct (processRow_fields rt accountId row0)
      as (_ & _ & _ & Ha & _). exact Ha.
  - unfold get. rewrite !assigned_other by discriminate.
    unfold Controller.processRow. simplify_map_eq. apply or_else_string.
  - unfold get. rewrite !assigned_other by discriminate.
    unfold Controller.processRow. simplify_map_eq. apply or_else_string.
  - unfold get. rewrite !assigned_other by discriminate.
    unfold Controller.processRow. simplify_map_eq.
    eexists; split; [reflexivity|]. apply getLastFour_short_end.
  - unfold get. rewrite !assigned_other by discriminate.
    unfold Controller.processRow. simplify_map_eq.
    eexists; split; [reflexivity|]. apply getLastFour_short_end.
Qed.

Lemma scenario_fetched_first :
  exists tx rest, Controller.transactions Scenario.answer = tx :: rest.
Proof.
  destruct (Controller.transactions Scenario.answer) as [|tx rest] eqn:E.
  - exfalso. apply scenario_fetched_nonempty. exact E.
  - eauto.
Qed.

Lemma fetched_transaction_shape_witness :
  exists tx : obj,
    In tx (Controller.transactions Scenario.answer) /\
    dom tx = Spec.fetched_keys /\
    (exists a, get tx "amount" = VNum a /\ num_isNaN a = false).
Proof.
  destruct scenario_fetched_first as (tx & rest & E).
  assert (Hin : In tx (Controller.transactions Scenario.answer))
    by (rewrite E; now left).
  exists tx. split; [exact Hin|].
  destruct (fetched_transaction_shape UtcHost.runtime Scenario.world "A1"
              Scenario.answer Scenario.trace tx scenario_run Hin)
    as (Hd & Ha & _).
  split; assumption.
Defined.

(** ** Dates *)

Section Dates.
Import Spec.

Lemma pad_to_digits (w : nat) (n : Z) :
  all_digits (pad_to w n) = true /\ pad_to w n <> "".
Proof.
  unfold pad_to.
  destruct (decimal_digits (Z.to_N n)) as (Hd & _ & Hl).
  split.
  - now rewrite all_digits_app, all_digits_zeros, Hd.
  - intros E. apply (f_equal String.length) in E.
    rewrite length_append, length_zeros in E. cbn in E. lia.
Qed.

Lemma digits_first_not_T (s rest : string) :
  all_digits s = true -> s <> "" -> before_T (s ++ rest) <> "".
Proof.
  intros Hd Hne. destruct s as [|c s]; [congruence|].
  cbn in Hd. apply andb_true_iff in Hd as [Hc _].
  rewrite append_cons. cbn [before_T].
  destruct (Ascii.eqb c "T") eqn:E; [|discriminate].
  apply Ascii.eqb_eq in E. subst c. discriminate.
Qed.

(** The calendar part of an ISO string is never empty. *)
Lemma toISOString_date_part (t : Z) : before_T (toISOString t) <> "".
Proof.
  unfold toISOString.
  destruct (civil_of_days (t / 86400000)) as [[y m] d].
  destruct ((0 <=? y) && (y <=? 9999)).
  - destruct (pad_to_digits 4 y) as [Hd Hne].
    now apply digits_first_not_T.
  - destruct (y <? 0).
    + change (("-" ++ pad_to 6 (Z.abs y)) ++ ?r)
        with (String "-" (pad_to 6 (Z.abs y) ++ r)).
      rewrite append_cons. discriminate.
    + rewrite append_cons. discriminate.
Qed.

End Dates.

(** X8: [formatDate] returns the empty string exactly for a missing date
    ([null], [undefined], an empty string, zero) and for a value that is
    not a valid date; for every other value it returns the calendar part of
    the ISO rendering, and it never throws. *)
Theorem formatDate_empty_iff (rt : Runtime) (date : value) :
  (Controller.formatDate rt date = "" <->
   truthy date = false \/ Date_new rt date = None) /\
  (forall t, truthy date = true -> Date_new rt date = Some t ->
             Controller.formatDate rt date = before_T (toISOString t)).
Proof.
  unfold Controller.formatDate, Date_toISOString.
  destruct (truthy date) eqn:Ht; cbn [negb].
  - destruct (Date_new rt date) as [t|] eqn:Hd.
    + split; [|intros t' _ [= <-]; reflexivity].
      split; [|intros [H|H]; discriminate].
      intros H. exfalso. exact (toISOString_date_part t H).
    + split; [|intros t' _ H; discriminate].
      split; [now right | reflexivity].
  - split; [|intros t' H; discriminate].
    split; [now left | reflexivity].
Qed.

(** Dates of the scenario, and dates that are missing or invalid. *)
Example formatDate_samples :
  map (Controller.formatDate UtcHost.runtime)
      [VDate (Some 1704153600000); VStr "2024-02-29"; VNum (num_of_Z 86400000);
       VNull; VStr ""; VDate None; VStr "yesterday"]
  = ["2024-01-02"; "2024-02-29"; "1970-01-02"; ""; ""; ""; ""].
Proof. vm_compute. reflexivity. Qed.

(** ** The filter *)

Section FilterMore.
Import Controller Engine Spec.

Variable rt : Runtime.

(** What [filter] keeps passed the test, in the order of the input. *)
Lemma filter_with_kept (keep : obj -> res bool) (l kept : list obj) :
  filter_with keep l = Ok kept ->
  Forall (fun tx => keep tx = Ok true) kept /\ sublist kept l.
Proof.
  revert kept; induction l as [|tx l IH]; intros kept H.
  - cbn in H. inversion H. split; constructor.
  - cbn in H.
    destruct (keep tx) as [k|e] eqn:Hk; [|discriminate].
    cbn in H. destruct (filter_with keep l) as [rest|e]; [|discriminate].
    cbn in H. inversion H; subst kept.
    destruct (IH rest eq_refl) as [Hall Hsub].
    destruct k.
    + split; [now constructor | now constructor].
    + split; [exact Hall | now constructor].
Qed.

Lemma filter_with_ext (keep keep' : obj -> res bool) (l : list obj) :
  (forall tx, keep tx = keep' tx) -> filter_with keep l = filter_with keep' l.
Proof.
  intros H. induction l as [|tx l IH]; [reflexivity|].
  cbn. now rewrite H, IH.
Qed.

Lemma filter_with_total (keep : obj -> res bool) (l : list obj) :
  (forall tx, In tx l -> exists k, keep tx = Ok k) ->
  exists kept, filter_with keep l = Ok kept.
Proof.
  induction l as [|tx l IH]; intros H; [now exists []|].
  destruct (H tx) as (k & Hk); [now left|].
  destruct IH as (rest & Hrest); [intros x Hx; apply H; now right|].
  cbn. rewrite Hk, Hrest. cbn. eauto.
Qed.

(** With no filter supplied every test passes. *)
Lemma keeps_without_filters (params tx : obj) :
  not_supplied params "recipient" -> not_supplied params "sender" ->
  not_supplied params "merchantName" -> not_supplied params "startDate" ->
  not_supplied params "endDate" -> not_supplied params "category" ->
  not_supplied params "transactionType" ->
  keeps rt params tx = Ok true.
Proof.
  intros Hr Hs Hm Hsd Hed Hc Ht. unfold keeps.
  unfold excluded_by_recipient, excluded_by_sender, excluded_by_category,
    excluded_by_transactionType.
  rewrite !differs_absent_param by assumption. cbn [res_bind].
  unfold excluded_by_merchantName; rewrite Hm. cbn [res_bind].
  unfold excluded_by_startDate; rewrite Hsd.
  unfold excluded_by_endDate; rewrite Hed. reflexivity.
Qed.

End FilterMore.

(** X9: what [filterTransactions] returns is a sub-list of its input, in the
    same order, and filtering it again with the same parameters returns it
    unchanged. *)
Theorem filterTransactions_idempotent (rt : Runtime)
    (transactions : list obj) (userId : string) (params : obj)
    (kept : list obj) :
  Engine.filterTransactions rt transactions userId params = Ok kept ->
  sublist kept transactions /\
  (length kept <= length transactions)%nat /\
  Engine.filterTransactions rt kept userId params = Ok kept.
Proof.
  intros H. unfold Engine.filterTransactions in *.
  destruct (filter_with_kept _ _ _ H) as [Hall Hsub].
  split; [exact Hsub|]. split; [now apply sublist_length|].
  apply filter_with_all. intros tx Hin.
  rewrite Forall_forall in Hall. apply Hall.
  now apply list_elem_of_In.
Qed.

Lemma filterTransactions_idempotent_witness :
  sublist Scenario.fetched Scenario.fetched /\
  (length Scenario.fetched <= length Scenario.fetched)%nat /\
  Engine.filterTransactions UtcHost.runtime Scenario.fetched "A1"
    Scenario.unknown_kind = Ok Scenario.fetched.
Proof.
  exact (filterTransactions_idempotent UtcHost.runtime Scenario.fetched "A1"
           Scenario.unknown_kind Scenario.fetched
           scenario_unknown_kind_filter).
Defined.

(** X10: with none of the seven filters supplied, [filterTransactions]
    returns its input whole, whatever the transactions are. *)
Theorem filterTransactions_without_filters (rt : Runtime)
    (transactions : list obj) (userId : string) (params : obj) :
  Spec.not_supplied params "recipient" ->
  Spec.not_supplied params "sender" ->
  Spec.not_supplied params "merchantName" ->
  Spec.not_supplied params "startDate" ->
  Spec.not_supplied params "endDate" ->
  Spec.not_supplied params "category" ->
  Spec.not_supplied params "transactionType" ->
  Engine.filterTransactions rt transactions userId params = Ok transactions.
Proof.
  intros. apply filter_with_all. intros tx _.
  now apply keeps_without_filters.
Qed.

Lemma filterTransactions_without_filters_witness :
  Engine.filterTransactions UtcHost.runtime
    [Scenario.params [("amount", VStr "12"); ("toAccount", VNum (num_of_Z 7))]]
    "A1" Scenario.total
  = Ok [Scenario.params
          [("amount", VStr "12"); ("toAccount", VNum (num_of_Z 7))]].
Proof.
  apply (filterTransactions_without_filters UtcHost.runtime); reflexivity.
Defined.

Section FilterTests.
Import Controller Engine Spec.

Variable rt : Runtime.

Lemma filter_with_In (keep : obj -> res bool) (l kept : list obj) (tx : obj) :
  filter_with keep l = Ok kept ->
  (In tx kept <-> In tx l /\ keep tx = Ok true).
Proof.
  revert kept; induction l as [|x l IH]; intros kept H.
  - cbn in H. inversion H. cbn. tauto.
  - cbn in H.
    destruct (keep x) as [k|e] eqn:Hk; [|discriminate].
    cbn in H. destruct (filter_with keep l) as [rest|e]; [|discriminate].
    cbn in H. inversion H; subst kept.
    specialize (IH rest eq_refl).
    destruct k; cbn [In]; rewrite IH.
    + split.
      * intros [->|[H1 H2]]; [split; [now left|exact Hk]|].
        split; [now right|exact H2].
      * intros [[->|H1] H2]; [now left|right; now split].
    + split.
      * intros [H1 H2]. split; [now right|exact H2].
      * intros [[->|H1] H2]; [congruence|now split].
Qed.

(** [keeps] looks at the arguments only through its seven tests. *)
Lemma keeps_congr (p p' tx : obj) :
  excluded_by_recipient p tx = excluded_by_recipient p' tx ->
  excluded_by_sender p tx = excluded_by_sender p' tx ->
  excluded_by_merchantName p tx = excluded_by_merchantName p' tx ->
  excluded_by_startDate rt p tx = excluded_by_startDate rt p' tx ->
  excluded_by_endDate rt p tx = excluded_by_endDate rt p' tx ->
  excluded_by_category p tx = excluded_by_category p' tx ->
  excluded_by_transactionType p tx = excluded_by_transactionType p' tx ->
  keeps rt p tx = keeps rt p' tx.
Proof. unfold keeps. now intros -> -> -> -> -> -> ->. Qed.

Lemma differs_congr (p p' : obj) (k : string) (tx : obj) (f : string) :
  get p k = get p' k -> differs p k tx f = differs p' k tx f.
Proof. unfold differs. now intros ->. Qed.

Lemma merchantName_congr (p p' tx : obj) :
  get p "merchantName" = get p' "merchantName" ->
  excluded_by_merchantName p tx = excluded_by_merchantName p' tx.
Proof. unfold excluded_by_merchantName. now intros ->. Qed.

Lemma startDate_congr (p p' tx : obj) :
  get p "startDate" = get p' "startDate" ->
  excluded_by_startDate rt p tx = excluded_by_startDate rt p' tx.
Proof. unfold excluded_by_startDate. now intros ->. Qed.

Lemma endDate_congr (p p' tx : obj) :
  get p "endDate" = get p' "endDate" ->
  excluded_by_endDate rt p tx = excluded_by_endDate rt p' tx.
Proof. unfold excluded_by_endDate. now intros ->. Qed.

(** Arguments that agree on the seven filters select the same
    transactions. *)
Lemma keeps_agree (p p' tx : obj) :
  get p "recipient" = get p' "recipient" ->
  get p "sender" = get p' "sender" ->
  get p "merchantName" = get p' "merchantName" ->
  get p "startDate" = get p' "startDate" ->
  get p "endDate" = get p' "endDate" ->
  get p "category" = get p' "category" ->
  get p "transactionType" = get p' "transactionType" ->
  keeps rt p tx = keeps rt p' tx.
Proof.
  intros. apply keeps_congr;
    first [now apply differs_congr | now apply merchantName_congr
          | now apply startDate_congr | now apply endDate_congr].
Qed.

Lemma get_insert (p : obj) (k : string) (v : value) :
  get (<[ k := v ]> p) k = v.
Proof. unfold get. now rewrite lookup_insert_eq. Qed.

Lemma get_insert_ne (p : obj) (k k' : string) (v : value) :
  k <> k' -> get (<[ k := v ]> p) k' = get p k'.
Proof. intros H. unfold get. now rewrite lookup_insert_ne. Qed.

Lemma get_delete (p : obj) (k : string) : get (delete k p) k = VUndef.
Proof. unfold get. now rewrite lookup_delete_eq. Qed.

Lemma get_delete_ne (p : obj) (k k' : string) :
  k <> k' -> get (delete k p) k' = get p k'.
Proof. intros H. unfold get. now rewrite lookup_delete_ne. Qed.

Lemma toLowerCase_empty (a b : string) :
  toLowerCase a = toLowerCase b -> String.eqb a "" = String.eqb b "".
Proof. destruct a, b; cbn; intros H; try discriminate; reflexivity. Qed.

(** Two spellings of an argument that differ in case only. *)
Lemma differs_fold (p : obj) (k : string) (a b : string) (q : string)
    (tx : obj) (f : string) :
  toLowerCase a = toLowerCase b ->
  differs (<[ k := VStr a ]> p) q tx f
  = differs (<[ k := VStr b ]> p) q tx f.
Proof.
  intros H. destruct (decide (k = q)) as [->|Hne].
  - unfold differs. rewrite !get_insert. cbn [truthy toLowerCase_of].
    rewrite (toLowerCase_empty a b H), H. reflexivity.
  - apply differs_congr. now rewrite !get_insert_ne.
Qed.

Lemma merchantName_fold (p : obj) (k : string) (a b : string) (tx : obj) :
  toLowerCase a = toLowerCase b ->
  excluded_by_merchantName (<[ k := VStr a ]> p) tx
  = excluded_by_merchantName (<[ k := VStr b ]> p) tx.
Proof.
  intros H. destruct (decide (k = "merchantName")) as [->|Hne].
  - unfold excluded_by_merchantName. rewrite !get_insert.
    cbn [truthy toLowerCase_of].
    rewrite (toLowerCase_empty a b H), H. reflexivity.
  - apply merchantName_congr. now rewrite !get_insert_ne.
Qed.

Lemma keeps_fold (p : obj) (k : string) (a b : string) (tx : obj) :
  In k text_filters ->
  toLowerCase a = toLowerCase b ->
  keeps rt (<[ k := VStr a ]> p) tx = keeps rt (<[ k := VStr b ]> p) tx.
Proof.
  intros Hk H. apply keeps_congr;
    try (now apply differs_fold); try (now apply merchantName_fold).
  - apply startDate_congr. rewrite !get_insert_ne; [reflexivity| |];
      intros ->; cbn in Hk; intuition discriminate.
  - apply endDate_congr. rewrite !get_insert_ne; [reflexivity| |];
      intros ->; cbn in Hk; intuition discriminate.
Qed.

(** A date that cannot be read excludes nothing. *)
Lemma startDate_unread (p tx : obj) :
  Date_new rt (get p "startDate") = None ->
  excluded_by_startDate rt p tx = false.
Proof.
  intros H. unfold excluded_by_startDate. rewrite H. cbn.
  destruct (truthy _); [|reflexivity].
  unfold date_lt. now destruct (Date_new rt (get tx "transactionDate")).
Qed.

Lemma endDate_unread (p tx : obj) :
  Date_new rt (get p "endDate") = None ->
  excluded_by_endDate rt p tx = false.
Proof.
  intros H. unfold excluded_by_endDate. rewrite H. cbn.
  now destruct (truthy _).
Qed.

Lemma startDate_deleted (p tx : obj) :
  excluded_by_startDate rt (delete "startDate" p) tx = false.
Proof. unfold excluded_by_startDate. now rewrite get_delete. Qed.

Lemma endDate_deleted (p tx : obj) :
  excluded_by_endDate rt (delete "endDate" p) tx = false.
Proof. unfold excluded_by_endDate. now rewrite get_delete. Qed.

Lemma tx_date_unread (p tx : obj) :
  Date_new rt (get tx "transactionDate") = None ->
  excluded_by_startDate rt p tx = false /\
  excluded_by_endDate rt p tx = false.
Proof.
  intros H. unfold excluded_by_startDate, excluded_by_endDate. rewrite H.
  split; destruct (truthy _); try reflexivity; unfold date_lt.
  now destruct (setHours _ _ _ _ _ _).
Qed.

(** The tests on text return when both sides are text. *)
Lemma differs_returns (p : obj) (k : string) (tx : obj) (f : string) :
  textual (get p k) -> textual (get tx f) ->
  exists b, differs p k tx f = Ok b.
Proof.
  intros [Hp|(a & Hp)] [Hf|(b & Hf)]; unfold differs.
  - rewrite Hp. cbn. eauto.
  - rewrite Hp. cbn. eauto.
  - rewrite Hf, andb_false_r. eauto.
  - rewrite Hp, Hf. cbn [toLowerCase_of res_bind].
    destruct (_ && _); eauto.
Qed.

Lemma mentions_returns (tx : obj) (f needle : string) :
  textual (get tx f) -> exists b, mentions tx f needle = Ok b.
Proof.
  intros [Hf|(b & Hf)]; unfold mentions; rewrite Hf.
  - eauto.
  - cbn [toLowerCase_of res_bind]. destruct (truthy _); eauto.
Qed.

Lemma merchantName_returns (p tx : obj) :
  textual (get p "merchantName") ->
  textual (get tx "fromAccount") -> textual (get tx "toAccount") ->
  exists b, excluded_by_merchantName p tx = Ok b.
Proof.
  intros [Hp|(a & Hp)] Hf Ht; unfold excluded_by_merchantName; rewrite Hp.
  - eauto.
  - destruct (truthy _); [|eauto]. cbn [toLowerCase_of res_bind].
    destruct (mentions_returns tx "fromAccount" (toLowerCase a) Hf)
      as (b1 & ->).
    destruct (mentions_returns tx "toAccount" (toLowerCase a) Ht)
      as (b2 & ->).
    cbn [res_bind]. destruct b1; eauto.
Qed.

Lemma keeps_returns (p tx : obj) :
  (forall k, In k text_filters -> textual (get p k)) ->
  textual (get tx "fromAccount") -> textual (get tx "toAccount") ->
  textual (get tx "category") -> textual (get tx "transactionType") ->
  exists b, keeps rt p tx = Ok b.
Proof.
  intros Hp Hf Ht Hc Hty. unfold keeps.
  destruct (differs_returns p "recipient" tx "toAccount") as (b1 & H1);
    [apply Hp; cbn; tauto|exact Ht|].
  destruct (differs_returns p "sender" tx "fromAccount") as (b2 & H2);
    [apply Hp; cbn; tauto|exact Hf|].
  destruct (merchantName_returns p tx) as (b3 & H3);
    [apply Hp; cbn; tauto|exact Hf|exact Ht|].
  destruct (differs_returns p "category" tx "category") as (b4 & H4);
    [apply Hp; cbn; tauto|exact Hc|].
  destruct (differs_returns p "transactionType" tx "transactionType")
    as (b5 & H5); [apply Hp; cbn; tauto|exact Hty|].
  unfold excluded_by_recipient, excluded_by_sender, excluded_by_category,
    excluded_by_transactionType.
  rewrite H1; cbn [res_bind]. destruct b1; [eauto|].
  rewrite H2; cbn [res_bind]. destruct b2; [eauto|].
  rewrite H3; cbn [res_bind]. destruct b3; [eauto|].
  destruct (excluded_by_startDate rt p tx); [eauto|].
  destruct (excluded_by_endDate rt p tx); [eauto|].
  rewrite H4; cbn [res_bind]. destruct b4; [eauto|].
  rewrite H5; cbn [res_bind]. destruct b5; eauto.
Qed.

(** A transaction with neither account. *)
Lemma keeps_no_accounts (p tx : obj) :
  truthy (get tx "fromAccount") = false ->
  truthy (get tx "toAccount") = false ->
  (forall m, get p "merchantName" = VStr m -> m <> "" ->
             keeps rt p tx = Ok false) /\
  (not_supplied p "merchantName" -> not_supplied p "startDate" ->
   not_supplied p "endDate" -> not_supplied p "category" ->
   not_supplied p "transactionType" -> keeps rt p tx = Ok true).
Proof.
  intros Hf Ht.
  assert (H1 : excluded_by_recipient p tx = Ok false).
  { unfold excluded_by_recipient, differs. now rewrite Ht, andb_false_r. }
  assert (H2 : excluded_by_sender p tx = Ok false).
  { unfold excluded_by_sender, differs. now rewrite Hf, andb_false_r. }
  split.
  - intros m Hm Hne. unfold keeps. rewrite H1, H2. cbn [res_bind].
    unfold excluded_by_merchantName, mentions. rewrite Hm, Hf, Ht.
    cbn [truthy]. destruct (String.eqb_spec m ""); [contradiction|].
    reflexivity.
  - intros Hm Hsd Hed Hc Hty. unfold keeps. rewrite H1, H2. cbn [res_bind].
    unfold excluded_by_merchantName; rewrite Hm. cbn [res_bind].
    unfold excluded_by_startDate; rewrite Hsd.
    unfold excluded_by_endDate; rewrite Hed.
    unfold excluded_by_category, excluded_by_transactionType.
    now rewrite !differs_absent_param by assumption.
Qed.

End FilterTests.

(** X11: a transaction that names neither account is treated unevenly: a
    [merchantName] filter always drops it, while the [recipient] and
    [sender] filters, on their own, always keep it. *)
Theorem transaction_without_accounts (rt : Runtime)
    (transactions : list obj) (userId : string) (params : obj)
    (kept : list obj) (tx : obj) :
  Engine.filterTransactions rt transactions userId params = Ok kept ->
  In tx transactions ->
  truthy (get tx "fromAccount") = false ->
  truthy (get tx "toAccount") = false ->
  (forall m, get params "merchantName" = VStr m -> m <> "" ->
             ~ In tx kept) /\
  (Spec.not_supplied params "merchantName" ->
   Spec.not_supplied params "startDate" ->
   Spec.not_supplied params "endDate" ->
   Spec.not_supplied params "category" ->
   Spec.not_supplied params "transactionType" -> In tx kept).
Proof.
  intros H Hin Hf Ht.
  destruct (keeps_no_accounts rt params tx Hf Ht) as [Hdrop Hkeep].
  pose proof (filter_with_In _ _ _ tx H) as Hiff.
  split.
  - intros m Hm Hne Hk. apply Hiff in Hk as [_ Hk].
    rewrite (Hdrop m Hm Hne) in Hk. discriminate.
  - intros. apply Hiff. split; [exact Hin|]. now apply Hkeep.
Qed.

Lemma transaction_without_accounts_witness :
  (forall m, get Scenario.to_bob "merchantName" = VStr m -> m <> "" ->
             ~ In Scenario.anonymous [Scenario.anonymous]) /\
  (Spec.not_supplied Scenario.to_bob "merchantName" ->
   Spec.not_supplied Scenario.to_bob "startDate" ->
   Spec.not_supplied Scenario.to_bob "endDate" ->
   Spec.not_supplied Scenario.to_bob "category" ->
   Spec.not_supplied Scenario.to_bob "transactionType" ->
   In Scenario.anonymous [Scenario.anonymous]).
Proof.
  apply (transaction_without_accounts UtcHost.runtime [Scenario.anonymous]
           "A1" Scenario.to_bob [Scenario.anonymous] Scenario.anonymous).
  - reflexivity.
  - now left.
  - reflexivity.
  - reflexivity.
Defined.

(** X12: the five text filters ignore the case of the argument: two
    spellings with the same lower-case form select the same transactions. *)
Theorem filterTransactions_case_insensitive (rt : Runtime)
    (transactions : list obj) (userId : string) (params : obj)
    (k a b : string) :
  In k Spec.text_filters ->
  toLowerCase a = toLowerCase b ->
  Engine.filterTransactions rt transactions userId (<[ k := VStr a ]> params)
  = Engine.filterTransactions rt transactions userId
      (<[ k := VStr b ]> params).
Proof.
  intros Hk H. apply filter_with_ext. intros tx. now apply keeps_fold.
Qed.

Lemma filterTransactions_case_insensitive_witness :
  Engine.filterTransactions UtcHost.runtime Scenario.fetched "A1"
    (<[ "recipient" := VStr "A1" ]> Scenario.total)
  = Engine.filterTransactions UtcHost.runtime Scenario.fetched "A1"
      (<[ "recipient" := VStr "a1" ]> Scenario.total).
Proof.
  apply (filterTransactions_case_insensitive UtcHost.runtime
           Scenario.fetched "A1" Scenario.total "recipient" "A1" "a1").
  - now left.
  - reflexivity.
Defined.

(** X13: a date that cannot be read filters nothing: with an unreadable
    [startDate] (or [endDate]) the result is the one without that argument,
    and a transaction whose own date is unreadable passes every date
    range. *)
Theorem unreadable_date_is_no_filter (rt : Runtime)
    (transactions : list obj) (userId : string) (params : obj) :
  (Date_new rt (get params "startDate") = None ->
   Engine.filterTransactions rt transactions userId params
   = Engine.filterTransactions rt transactions userId
       (delete "startDate" params)) /\
  (Date_new rt (get params "endDate") = None ->
   Engine.filterTransactions rt transactions userId params
   = Engine.filterTransactions rt transactions userId
       (delete "endDate" params)) /\
  (forall tx, Date_new rt (get tx "transactionDate") = None ->
     Engine.keeps rt params tx
     = Engine.keeps rt (delete "startDate" (delete "endDate" params)) tx).
Proof.
  split_and!.
  - intros H. apply filter_with_ext. intros tx. apply keeps_congr;
      try (apply differs_congr; now rewrite get_delete_ne);
      try (apply merchantName_congr; now rewrite get_delete_ne).
    + now rewrite startDate_unread, startDate_deleted.
    + apply endDate_congr. now rewrite get_delete_ne.
  - intros H. apply filter_with_ext. intros tx. apply keeps_congr;
      try (apply differs_congr; now rewrite get_delete_ne);
      try (apply merchantName_congr; now rewrite get_delete_ne).
    + apply startDate_congr. now rewrite get_delete_ne.
    + now rewrite endDate_unread, endDate_deleted.
  - intros tx H. apply keeps_congr;
      try (apply differs_congr; now rewrite !get_delete_ne);
      try (apply merchantName_congr; now rewrite !get_delete_ne).
    + destruct (tx_date_unread rt params tx H) as [-> _].
      now rewrite startDate_deleted.
    + destruct (tx_date_unread rt params tx H) as [_ ->].
      destruct (tx_date_unread rt
                  (delete "startDate" (delete "endDate" params)) tx H)
        as [_ ->]. reflexivity.
Qed.

(** X14: on what [getTransactionData] returns, [filterTransactions] returns,
    and does not throw, when the account columns of the rows hold text (or
    nothing) and each of the five text arguments is text (or is not
    supplied). *)
Theorem filterTransactions_returns_on_text (rt : Runtime)
    (w : Controller.World) (accountId userId : string)
    (r : Controller.response) (t : list Controller.event) (params : obj)
    (rows : list Controller.row) :
  Controller.getTransactionData rt w accountId = (Ok r, t) ->
  Controller.ledger_query w accountId = Controller.Fulfilled rows ->
  (forall row, In row rows ->
     Spec.textual (Controller.from_acct row) /\
     Spec.textual (Controller.to_acct row)) ->
  (forall k, In k Spec.text_filters -> Spec.textual (get params k)) ->
  exists kept,
    Engine.filterTransactions rt (Controller.transactions r) userId params
    = Ok kept.
Proof.
  intros H Hq Hrows Hp.
  destruct (getTransactionData_returned rt w accountId r t H)
    as (_ & rows' & Hq' & Htxs).
  rewrite Hq in Hq'. inversion Hq'; subst rows'.
  apply filter_with_total. intros tx Hin. rewrite Htxs in Hin.
  destruct (fetched_transaction rt accountId rows tx Hin)
    as (row0 & b & Hrow & ->).
  destruct (Hrows row0 Hrow) as [Hfrom Hto].
  apply keeps_returns; [exact Hp| | | |]; unfold get;
    rewrite !assigned_other by discriminate;
    unfold Controller.processRow; simplify_map_eq.
  - unfold or_else. destruct Hfrom as [->|(s & ->)].
    + right. now exists "".
    + destruct (truthy (VStr s)); right; eauto.
  - unfold or_else. destruct Hto as [->|(s & ->)].
    + right. now exists "".
    + destruct (truthy (VStr s)); right; eauto.
  - now left.
  - now left.
Qed.

Lemma filterTransactions_returns_on_text_witness :
  exists kept,
    Engine.filterTransactions UtcHost.runtime
      (Controller.transactions Scenario.answer) "A1" Scenario.by_category
    = Ok kept.
Proof.
  apply (filterTransactions_returns_on_text UtcHost.runtime Scenario.world
           "A1" "A1" Scenario.answer Scenario.trace Scenario.by_category
           Scenario.rows).
  - exact scenario_run.
  - reflexivity.
  - intros row Hin. cbn in Hin.
    destruct Hin as [<-|[<-|[]]]; split; right; eexists; reflexivity.
  - intros k Hk. cbn in Hk.
    destruct Hk as [<-|[<-|[<-|[<-|[<-|[]]]]]];
      first [left; reflexivity | right; eexists; reflexivity].
Defined.

(** A number given as [recipient] makes the filter throw. *)
Example filterTransactions_throws_on_number :
  Engine.filterTransactions UtcHost.runtime Scenario.fetched "A1"
    (<[ "recipient" := VNum (num_of_Z 7) ]> Scenario.total)
  = Throw (TypeError "toLowerCase is not a function").
Proof. vm_compute. reflexivity. Qed.

(** ** The summaries *)

Section Summaries.
Import Controller Engine Spec.

Variable rt : Runtime.

Lemma fold_left_ext {A B} (f g : A -> B -> A) (l : list B) (a : A) :
  (forall x y, f x y = g x y) -> fold_left f l a = fold_left g l a.
Proof.
  intros H. revert a; induction l as [|y l IH]; intros a; [reflexivity|].
  cbn. now rewrite H, IH.
Qed.

Lemma addAmount_congr (userId : string) (p p' : obj) (sum : number)
    (tx : obj) :
  get p "transactionType" = get p' "transactionType" ->
  addAmount userId p sum tx = addAmount userId p' sum tx.
Proof. unfold addAmount. now intros ->. Qed.

Lemma emptyMessage_congr (p p' : obj) :
  get p "category" = get p' "category" ->
  get p "merchantName" = get p' "merchantName" ->
  get p "startDate" = get p' "startDate" ->
  get p "endDate" = get p' "endDate" ->
  emptyMessage rt p = emptyMessage rt p'.
Proof. unfold emptyMessage. now intros -> -> -> ->. Qed.

Lemma formatTx_dom (tx : obj) : dom (formatTx tx) = redacted_keys.
Proof.
  unfold formatTx, redacted_keys. rewrite !dom_insert_L, dom_empty_L.
  cbn [list_to_set]. reflexivity.
Qed.

Lemma formatTx_get (tx : obj) :
  get (formatTx tx) "date" = get tx "formattedDate" /\
  get (formatTx tx) "description" = get tx "description" /\
  get (formatTx tx) "amount" = get tx "formattedAmount" /\
  get (formatTx tx) "type" = get tx "transactionType" /\
  get (formatTx tx) "from" = get tx "fromAccountLastFour" /\
  get (formatTx tx) "to" = get tx "toAccountLastFour".
Proof.
  unfold formatTx. split_and!; unfold get at 1.
  - now rewrite lookup_insert_eq.
  - rewrite lookup_insert_ne by discriminate. now rewrite lookup_insert_eq.
  - rewrite !lookup_insert_ne by discriminate. now rewrite lookup_insert_eq.
  - rewrite !lookup_insert_ne by discriminate. now rewrite lookup_insert_eq.
  - rewrite !lookup_insert_ne by discriminate. now rewrite lookup_insert_eq.
  - rewrite !lookup_insert_ne by discriminate. now rewrite lookup_insert_eq.
Qed.

Lemma length_of_map {A B} (f : A -> B) (l : list A) :
  length_of (map f l) = length_of l.
Proof. unfold length_of. now rewrite length_map. Qed.

End Summaries.

(** Two calls that agree on the eight arguments give the same answer. *)
Lemma process_agree (rt : Runtime) (transactions : list obj)
    (userId : string) (params params' : obj) :
  (forall k, In k Spec.tool_arguments -> get params k = get params' k) ->
  Engine.processTransactionDataForAI rt transactions userId params
  = Engine.processTransactionDataForAI rt transactions userId params'.
Proof.
  intros Hk.
  unfold Engine.processTransactionDataForAI, Engine.filterTransactions.
  rewrite (filter_with_ext (Engine.keeps rt params) (Engine.keeps rt params'))
    by (intros tx; apply keeps_agree; apply Hk; cbn; tauto).
  destruct (Engine.filter_with _ _) as [kept|e]; [|reflexivity].
  cbn [res_bind]. destruct kept as [|tx kept].
  - f_equal. f_equal. f_equal.
    apply emptyMessage_congr; apply Hk; cbn; tauto.
  - rewrite (Hk "summaryType") by (cbn; tauto).
    rewrite (fold_left_ext (Engine.addAmount userId params)
               (Engine.addAmount userId params'))
      by (intros; apply addAmount_congr; apply Hk; cbn; tauto).
    reflexivity.
Qed.

(** Each of the eight arguments is read: for each there is a call whose
    answer changes when that argument alone is added. *)
Lemma process_reads (rt : Runtime) (k : string) :
  In k Spec.tool_arguments ->
  exists (transactions : list obj) (userId : string) (params : obj)
         (v : value),
    Engine.processTransactionDataForAI rt transactions userId
      (<[ k := v ]> params)
    <> Engine.processTransactionDataForAI rt transactions userId params.
Proof.
  intros Hk. cbn in Hk.
  destruct Hk as [<-|[<-|[<-|[<-|[<-|[<-|[<-|[<-|[]]]]]]]]].
  - exists [∅], "A1", ∅, (VStr "count").
    intros H; apply (f_equal Spec.message_of) in H.
    vm_compute in H; discriminate.
  - exists [Scenario.params [("toAccount", VStr "x")]], "A1", ∅, (VStr "y").
    intros H; apply (f_equal Spec.message_of) in H.
    vm_compute in H; discriminate.
  - exists [Scenario.params [("fromAccount", VStr "x")]], "A1", ∅, (VStr "y").
    intros H; apply (f_equal Spec.message_of) in H.
    vm_compute in H; discriminate.
  - exists [∅], "A1", ∅, (VStr "y").
    intros H; apply (f_equal Spec.message_of) in H.
    vm_compute in H; discriminate.
  - exists [], "A1", (Scenario.params [("endDate", VStr "x")]), (VStr "y").
    intros H; apply (f_equal Spec.message_of) in H.
    vm_compute in H; discriminate.
  - exists [], "A1", (Scenario.params [("startDate", VStr "x")]), (VStr "y").
    intros H; apply (f_equal Spec.message_of) in H.
    vm_compute in H; discriminate.
  - exists [], "A1", ∅, (VStr "y").
    intros H; apply (f_equal Spec.message_of) in H.
    vm_compute in H; discriminate.
  - exists [Scenario.params [("transactionType", VStr "debit")]], "A1", ∅,
      (VStr "credit").
    intros H; apply (f_equal Spec.message_of) in H.
    vm_compute in H; discriminate.
Qed.

(** X15: [processTransactionDataForAI] reads exactly eight arguments of the
    call.  It reads no other: two calls that agree on the eight give the
    same answer, or the same exception.  It reads each of them: for each
    there is a call whose answer changes when that argument alone is
    added.  The [accountId] that the declaration of the tool requires is
    not among them. *)
Theorem processTransactionDataForAI_reads_eight (rt : Runtime) :
  (forall (transactions : list obj) (userId : string) (params params' : obj),
     (forall k, In k Spec.tool_arguments -> get params k = get params' k) ->
     Engine.processTransactionDataForAI rt transactions userId params
     = Engine.processTransactionDataForAI rt transactions userId params') /\
  (forall k, In k Spec.tool_arguments ->
     exists (transactions : list obj) (userId : string) (params : obj)
            (v : value),
       Engine.processTransactionDataForAI rt transactions userId
         (<[ k := v ]> params)
       <> Engine.processTransactionDataForAI rt transactions userId params) /\
  ~ In "accountId" Spec.tool_arguments.
Proof.
  split_and!.
  - intros transactions userId params params' Hk. now apply process_agree.
  - intros k Hk. now apply process_reads.
  - cbn. intuition discriminate.
Qed.

Lemma processTransactionDataForAI_reads_eight_witness :
  ~ In "accountId" Spec.tool_arguments /\
  Engine.processTransactionDataForAI UtcHost.runtime Scenario.fetched "A1"
    (<[ "accountId" := VStr "B" ]> Scenario.total)
  = Engine.processTransactionDataForAI UtcHost.runtime Scenario.fetched "A1"
      Scenario.total.
Proof.
  destruct (processTransactionDataForAI_reads_eight UtcHost.runtime)
    as (Hsame & _ & Hnot).
  split; [exact Hnot|]. apply Hsame.
  intros k Hk. apply get_insert_ne. intros <-. cbn in Hk.
  intuition discriminate.
Defined.

(** X16: the answers to a [count] and to a [list] request with the same
    filters fit together: when no transaction matches both have the empty
    list as result; otherwise the number is the number of items of the
    list, which has at least one; and when one throws, the other throws
    the same error. *)
Theorem count_agrees_with_list (rt : Runtime) (transactions : list obj)
    (userId : string) (params : obj) :
  Spec.count_fits_list
    (Engine.processTransactionDataForAI rt transactions userId
       (<[ "summaryType" := VStr "count" ]> params))
    (Engine.processTransactionDataForAI rt transactions userId
       (<[ "summaryType" := VStr "list" ]> params)).
Proof.
  unfold Spec.count_fits_list, Engine.processTransactionDataForAI.
  rewrite !filterTransactions_summaryType.
  destruct (Engine.filterTransactions rt transactions userId params)
    as [kept|e]; [|reflexivity].
  cbn [res_bind]. destruct kept as [|tx kept]; [reflexivity|].
  rewrite !get_insert. cbn [is_string String.eqb Ascii.eqb Bool.eqb].
  cbn -[Engine.length_of Engine.formatTx]. split; [|reflexivity].
  now rewrite <- (length_of_map Engine.formatTx (tx :: kept)).
Qed.

(** X17: what a list shows of a transaction returned by
    [getTransactionData]: six properties and no other, so no balance and
    no full account number: [from] and [to] have at most four characters
    and end the account they stand for, or are four stars; [type] and
    [description] are [undefined], since the transaction has neither
    [transactionType] nor [description]. *)
Theorem listed_transaction_is_redacted (rt : Runtime)
    (w : Controller.World) (accountId : string) (r : Controller.response)
    (t : list Controller.event) (tx : obj) :
  Controller.getTransactionData rt w accountId = (Ok r, t) ->
  In tx (Controller.transactions r) ->
  dom (Engine.formatTx tx) = Spec.redacted_keys /\
  get (Engine.formatTx tx) "type" = VUndef /\
  get (Engine.formatTx tx) "description" = VUndef /\
  get (Engine.formatTx tx) "date" = get tx "formattedDate" /\
  get (Engine.formatTx tx) "amount" = get tx "formattedAmount" /\
  (exists s, get (Engine.formatTx tx) "from" = VStr s /\
             (String.length s <= 4)%nat) /\
  (exists s, get (Engine.formatTx tx) "to" = VStr s /\
             (String.length s <= 4)%nat).
Proof.
  intros H Hin.
  destruct (getTransactionData_returned rt w accountId r t H)
    as (_ & rows & _ & Htxs).
  rewrite Htxs in Hin.
  destruct (fetched_transaction rt accountId rows tx Hin)
    as (row0 & b & _ & ->).
  split; [apply formatTx_dom|].
  destruct (formatTx_get
              (<[ "formattedBalance" := VStr (Controller.formatCurrency (VNum b)) ]>
                 (<[ "balance" := VNum b ]>
                    (Controller.processRow rt accountId row0))))
    as (-> & -> & -> & -> & -> & ->).
  split_and!; try reflexivity.
  - unfold get. rewrite !assigned_other by discriminate.
    unfold Controller.processRow. simplify_map_eq. cbn [default].
    eexists; split; [reflexivity|]. apply getLastFour_short_end.
  - unfold get. rewrite !assigned_other by discriminate.
    unfold Controller.processRow. simplify_map_eq. cbn [default].
    eexists; split; [reflexivity|]. apply getLastFour_short_end.
Qed.

Lemma listed_transaction_is_redacted_witness :
  exists tx : obj,
    In tx (Controller.transactions Scenario.answer) /\
    dom (Engine.formatTx tx) = Spec.redacted_keys /\
    get (Engine.formatTx tx) "type" = VUndef.
Proof.
  destruct scenario_fetched_first as (tx & rest & E).
  assert (Hin : In tx (Controller.transactions Scenario.answer))
    by (rewrite E; now left).
  exists tx. split; [exact Hin|].
  destruct (listed_transaction_is_redacted UtcHost.runtime Scenario.world
              "A1" Scenario.answer Scenario.trace tx scenario_run Hin)
    as (Hd & Hty & _).
  split; assumption.
Defined.

(** ** The largest transaction *)

Section Largest.
Import Engine.

(** The order of two magnitudes is decided by the exponents, then by the
    mantissas. *)
Ltac order_cases :=
  repeat match goal with
  | |- context [Z.compare ?a ?b] => destruct (Z.compare_spec a b); subst
  | |- context [Pos.compare_cont Eq ?a ?b] =>
      change (Pos.compare_cont Eq a b) with (Pos.compare a b);
      destruct (Pos.compare_spec a b); subst
  end;
  cbn; intros; try discriminate; try reflexivity; try lia.

Lemma ltb_abs_irrefl (x : number) : num_ltb (SFabs x) (SFabs x) = false.
Proof.
  destruct x as [s| s| |s m e]; try reflexivity.
  unfold num_ltb, SFltb, SFcompare, SFabs. order_cases.
Qed.

Lemma ltb_abs_trans (x y z : number) :
  num_ltb (SFabs x) (SFabs y) = true ->
  num_ltb (SFabs y) (SFabs z) = true ->
  num_ltb (SFabs x) (SFabs z) = true.
Proof.
  destruct x as [?| ?| |? m1 e1], y as [?| ?| |? m2 e2],
    z as [?| ?| |? m3 e3];
    unfold num_ltb, SFltb, SFcompare, SFabs;
    try (intros; discriminate); try (intros; reflexivity).
  order_cases.
Qed.

Lemma ltb_abs_le_lt (x y z : number) :
  num_isNaN (SFabs x) = false -> num_isNaN (SFabs y) = false ->
  num_ltb (SFabs x) (SFabs y) = false ->
  num_ltb (SFabs x) (SFabs z) = true ->
  num_ltb (SFabs y) (SFabs z) = true.
Proof.
  destruct x as [?| ?| |? m1 e1], y as [?| ?| |? m2 e2],
    z as [?| ?| |? m3 e3];
    unfold num_isNaN, num_ltb, SFltb, SFcompare, SFabs;
    try (intros; discriminate); try (intros; reflexivity).
  intros _ _. order_cases.
Qed.

Lemma larger_self (tx : obj) : larger tx tx = tx.
Proof. unfold larger. now destruct (num_ltb _ _). Qed.

(** The [reduce]: its result is the accumulator, or the first element
    greater than it that no later element exceeds. *)
Lemma fold_larger (l : list obj) (cur : obj) :
  num_isNaN (absAmount cur) = false ->
  Forall (fun tx => num_isNaN (absAmount tx) = false) l ->
  let m := fold_left larger l cur in
  (m = cur /\
   forall tx, In tx l -> num_ltb (absAmount cur) (absAmount tx) = false) \/
  (exists before after,
     l = (before ++ m :: after)%list /\
     num_ltb (absAmount cur) (absAmount m) = true /\
     (forall tx, In tx before ->
                 num_ltb (absAmount tx) (absAmount m) = true) /\
     (forall tx, In tx after ->
                 num_ltb (absAmount m) (absAmount tx) = false)).
Proof.
  revert cur; induction l as [|x l IH]; intros cur Hcur Hall; cbv zeta.
  - left. split; [reflexivity|]. intros tx [].
  - inversion Hall as [|? ? Hx Hl]; subst.
    cbn [fold_left].
    assert (Hstep : larger cur x
                    = if num_ltb (absAmount cur) (absAmount x)
                      then x else cur) by reflexivity.
    rewrite Hstep; clear Hstep.
    destruct (num_ltb (absAmount cur) (absAmount x)) eqn:Hlt.
    + destruct (IH x Hx Hl) as [[Hm Hmax]|(before & after & E & Hxm & Hb & Ha)].
      * right. exists [], l. rewrite Hm. split_and!.
        -- reflexivity.
        -- exact Hlt.
        -- intros tx [].
        -- exact Hmax.
      * right. exists (x :: before), after. split_and!.
        -- cbn. now rewrite <- E.
        -- exact (ltb_abs_trans _ _ _ Hlt Hxm).
        -- intros tx [<-|Hin]; [exact Hxm|now apply Hb].
        -- exact Ha.
    + destruct (IH cur Hcur Hl)
        as [[Hm Hmax]|(before & after & E & Hcm & Hb & Ha)].
      * left. split; [exact Hm|].
        intros tx [<-|Hin]; [exact Hlt|now apply Hmax].
      * right. exists (x :: before), after. split_and!.
        -- cbn. now rewrite <- E.
        -- exact Hcm.
        -- intros tx [<-|Hin]; [|now apply Hb].
           exact (ltb_abs_le_lt _ _ _ Hcur Hx Hlt Hcm).
        -- exact Ha.
Qed.

End Largest.

(** X18: [findLargestTransaction] returns [null] when no transaction
    matches; otherwise, when every matching amount reads as a number, the
    redacted view of the matching transaction of greatest absolute amount,
    and of the earliest one among equals: every match before it is
    strictly smaller, none after it is greater. *)
Theorem findLargestTransaction_is_largest (rt : Runtime)
    (transactions : list obj) (userId : string) (params : obj)
    (kept : list obj) :
  Engine.filterTransactions rt transactions userId params = Ok kept ->
  Forall (fun tx => num_isNaN (Engine.absAmount tx) = false) kept ->
  match kept with
  | [] =>
      Engine.findLargestTransaction rt transactions userId params
      = Ok {| Engine.largest_result := None;
              Engine.largest_message :=
                "No transactions found for the given criteria." |}
  | _ :: _ =>
      exists before m after,
        kept = (before ++ m :: after)%list /\
        Engine.findLargestTransaction rt transactions userId params
        = Ok {| Engine.largest_result := Some (Engine.formatTx m);
                Engine.largest_message := "Largest transaction found." |} /\
        (forall tx, In tx before ->
           num_ltb (Engine.absAmount tx) (Engine.absAmount m) = true) /\
        (forall tx, In tx after ->
           num_ltb (Engine.absAmount m) (Engine.absAmount tx) = false)
  end.
Proof.
  intros Hf Hall. unfold Engine.findLargestTransaction. rewrite Hf.
  cbn [res_bind]. destruct kept as [|first rest]; [reflexivity|].
  cbn [fold_left]. rewrite larger_self.
  inversion Hall as [|? ? Hfirst Hrest]; subst.
  destruct (fold_larger rest first Hfirst Hrest)
    as [[Hm Hmax]|(before & after & E & Hlt & Hb & Ha)].
  - exists [], first, rest. rewrite Hm. split_and!.
    + reflexivity.
    + reflexivity.
    + intros tx [].
    + exact Hmax.
  - exists (first :: before), (fold_left Engine.larger rest first), after.
    split_and!.
    + cbn. now rewrite <- E.
    + reflexivity.
    + intros tx [<-|Hin]; [exact Hlt|now apply Hb].
    + exact Ha.
Qed.

Lemma scenario_amounts_read :
  Forall (fun tx => num_isNaN (Engine.absAmount tx) = false) Scenario.fetched.
Proof.
  apply Forall_forall. intros tx Hin. apply list_elem_of_In in Hin.
  assert (H : forallb (fun tx => negb (num_isNaN (Engine.absAmount tx)))
                Scenario.fetched = true) by (vm_compute; reflexivity).
  rewrite forallb_forall in H. apply negb_true_iff, H, Hin.
Qed.

Lemma findLargestTransaction_is_largest_witness :
  match Scenario.fetched with
  | [] =>
      Engine.findLargestTransaction UtcHost.runtime Scenario.fetched "A1"
        Scenario.unknown_kind
      = Ok {| Engine.largest_result := None;
              Engine.largest_message :=
                "No transactions found for the given criteria." |}
  | _ :: _ =>
      exists before m after,
        Scenario.fetched = (before ++ m :: after)%list /\
        Engine.findLargestTransaction UtcHost.runtime Scenario.fetched "A1"
          Scenario.unknown_kind
        = Ok {| Engine.largest_result := Some (Engine.formatTx m);
                Engine.largest_message := "Largest transaction found." |} /\
        (forall tx, In tx before ->
           num_ltb (Engine.absAmount tx) (Engine.absAmount m) = true) /\
        (forall tx, In tx after ->
           num_ltb (Engine.absAmount m) (Engine.absAmount tx) = false)
  end.
Proof.
  exact (findLargestTransaction_is_largest UtcHost.runtime Scenario.fetched
           "A1" Scenario.unknown_kind Scenario.fetched
           scenario_unknown_kind_filter scenario_amounts_read).
Defined.

(** The larger of the two transactions of the example is the second. *)
Example scenario_largest :
  exists s,
    Engine.findLargestTransaction UtcHost.runtime Scenario.fetched "A1"
      Scenario.unknown_kind = Ok s /\
    option_map (fun v => get v "amount") (Engine.largest_result s)
    = Some (VStr "100.00").
Proof. eexists. split; [vm_compute; reflexivity | reflexivity]. Qed.

(** ** The chat endpoint *)

Section Chat.
Import Controller Engine Endpoint Spec.

Variable rt : Runtime.

Lemma nonblank_spec (v : value) (s : string) :
  nonblank v = Some s <-> v = VStr s /\ trim s <> "".
Proof.
  destruct v as [| |b|x|s'|t]; cbn; try (split; [discriminate|now intros []]).
  destruct (String.eqb_spec s' "") as [->|Hne].
  - cbn. split; [discriminate|]. intros [H Ht]. inversion H; subst.
    now contradiction Ht.
  - cbn [negb orb]. destruct (String.eqb_spec (trim s') "") as [E|E].
    + split; [discriminate|]. intros [H Ht]. inversion H; subst.
      contradiction.
    + split.
      * intros H; inversion H; subst. now split.
      * intros [H _]. now inversion H.
Qed.

Lemma append_empty_r (s : string) : s ++ "" = s.
Proof.
  induction s as [|c s IH]; [reflexivity|]. now rewrite append_cons, IH.
Qed.

Lemma append_assoc_s (a b c : string) : (a ++ b) ++ c = a ++ (b ++ c).
Proof.
  induction a as [|x a IH]; [reflexivity|]. now rewrite !append_cons, IH.
Qed.

(** Adding a text that may be empty. *)
Lemma add_text (acc text : string) :
  (if String.eqb text "" then acc else acc ++ text) = acc ++ text.
Proof.
  destruct (String.eqb_spec text "") as [->|_]; [|reflexivity].
  now rewrite append_empty_r.
Qed.

Lemma scanParts_call (before after : list part) (p : part)
    (fc : functionCall) (acc : string) :
  Forall (fun p => part_functionCall p = None) before ->
  part_functionCall p = Some fc ->
  scanParts (before ++ p :: after) acc = (Some fc, acc ++ texts before).
Proof.
  intros Hb Hp. revert acc.
  induction Hb as [|x before Hx Hb IH]; intros acc.
  - cbn. rewrite Hp. now rewrite append_empty_r.
  - cbn [app scanParts]. rewrite Hx, add_text, IH.
    cbn [texts fold_right]. now rewrite append_assoc_s.
Qed.

Lemma scanParts_text (parts : list part) (acc : string) :
  Forall (fun p => part_functionCall p = None) parts ->
  scanParts parts acc = (None, acc ++ texts parts).
Proof.
  intros Hb. revert acc.
  induction Hb as [|x parts Hx Hb IH]; intros acc.
  - cbn. now rewrite append_empty_r.
  - cbn [scanParts]. rewrite Hx, add_text, IH.
    cbn [texts fold_right]. now rewrite append_assoc_s.
Qed.

Lemma collectText_texts (parts : list part) (acc : string) :
  collectText parts acc = acc ++ texts parts.
Proof.
  revert acc. induction parts as [|x parts IH]; intros acc.
  - cbn. now rewrite append_empty_r.
  - cbn [collectText]. rewrite add_text, IH.
    cbn [texts fold_right]. now rewrite append_assoc_s.
Qed.

(** Where the loop over the parts stops. *)
Lemma scanParts_cases (parts : list part) (acc : string) :
  (fst (scanParts parts acc) = None /\
   Forall (fun p => part_functionCall p = None) parts) \/
  (exists before p after fc,
     parts = (before ++ p :: after)%list /\
     Forall (fun p => part_functionCall p = None) before /\
     part_functionCall p = Some fc /\
     fst (scanParts parts acc) = Some fc).
Proof.
  revert acc. induction parts as [|x parts IH]; intros acc.
  - left. split; [reflexivity|constructor].
  - cbn [scanParts]. destruct (part_functionCall x) as [fc|] eqn:Hx.
    + right. exists [], x, parts, fc. split_and!; try reflexivity.
      * constructor.
      * exact Hx.
    + destruct (IH (if String.eqb (part_text x) "" then acc
                    else acc ++ part_text x))
        as [[Hn Hall]|(before & p & after & fc & E & Hb & Hp & Hs)].
      * left. split; [exact Hn|now constructor].
      * right. exists (x :: before), p, after, fc. split_and!.
        -- cbn. now rewrite E.
        -- now constructor.
        -- exact Hp.
        -- exact Hs.
Qed.

(** The message of a rejected query is not hidden by what wraps it. *)
Lemma wrapped_message (m : string) :
  includes ("Failed to retrieve transaction data: " ++
            ("Transaction query failed: " ++ m))
           "Database connection failed"
  = includes m "Database connection failed".
Proof. reflexivity. Qed.

(** White space only: nothing is left once trimmed. *)
Lemma all_spaces_skip (s : string) :
  all_spaces s = true -> skip_spaces s = "".
Proof.
  induction s as [|c s IH]; [reflexivity|]. cbn.
  destruct (is_space c); [exact IH|discriminate].
Qed.

Lemma blank_nonblank (v : value) : blank v -> nonblank v = None.
Proof.
  destruct v as [| |b|x|s|t]; try reflexivity. cbn [blank nonblank].
  intros H. unfold trim. rewrite (all_spaces_skip s H).
  cbn. now rewrite orb_true_r.
Qed.

(** A character that shows is not white space, and trimming keeps it. *)
Lemma is_visible_not_space (c : ascii) :
  is_visible c = true -> is_space c = false.
Proof. unfold is_visible, is_space. lia. Qed.

Lemma has_visible_skip (s : string) :
  has_visible s = true -> has_visible (skip_spaces s) = true.
Proof.
  induction s as [|c s IH]; [discriminate|]. cbn [has_visible skip_spaces].
  destruct (is_space c) eqn:Hc; [|intros H; exact H].
  destruct (is_visible c) eqn:Hv.
  - apply is_visible_not_space in Hv. congruence.
  - exact IH.
Qed.

Lemma has_visible_onto (s acc : string) :
  has_visible (rev_string_onto s acc) = has_visible s || has_visible acc.
Proof.
  revert acc. induction s as [|c s IH]; intros acc; [reflexivity|].
  cbn [rev_string_onto has_visible]. rewrite IH. cbn [has_visible].
  destruct (is_visible c), (has_visible s), (has_visible acc); reflexivity.
Qed.

Lemma has_visible_rev (s : string) :
  has_visible (rev_string s) = has_visible s.
Proof.
  unfold rev_string. rewrite has_visible_onto. cbn. apply orb_false_r.
Qed.

Lemma has_visible_trim (s : string) :
  has_visible s = true -> trim s <> "".
Proof.
  intros H E. apply has_visible_skip in H.
  rewrite <- has_visible_rev in H. apply has_visible_skip in H.
  rewrite <- has_visible_rev in H. fold (trim s) in H.
  rewrite E in H. discriminate.
Qed.

Lemma legible_well_formed (body : obj) (u q : string) :
  legible body u q -> well_formed body u q.
Proof.
  intros (Hu & Hvu & Hq & Hvq).
  split_and!; [exact Hu | now apply has_visible_trim
              | exact Hq | now apply has_visible_trim].
Qed.

Lemma chat_well_formed (svc : Service) (body : obj) (u q : string) :
  well_formed body u q ->
  nonblank (get body "userId") = Some u /\
  nonblank (get body "question") = Some q.
Proof.
  intros (Hu & Hut & Hq & Hqt). split; apply nonblank_spec; now split.
Qed.

Lemma chat_not_well_formed (body : obj) :
  (~ exists u q, well_formed body u q) <->
  nonblank (get body "userId") = None \/
  nonblank (get body "question") = None.
Proof.
  split.
  - intros H.
    destruct (nonblank (get body "userId")) as [u|] eqn:Hu; [|now left].
    destruct (nonblank (get body "question")) as [q|] eqn:Hq; [|now right].
    exfalso. apply H. exists u, q.
    apply nonblank_spec in Hu as [Hu Hut].
    apply nonblank_spec in Hq as [Hq Hqt]. now split_and!.
  - intros H (u & q & Hu & Hut & Hq & Hqt).
    assert (Hu' : nonblank (get body "userId") = Some u)
      by (apply nonblank_spec; now split).
    assert (Hq' : nonblank (get body "question") = Some q)
      by (apply nonblank_spec; now split).
    destruct H as [H|H]; congruence.
Qed.

Lemma bind_lift_ok {A B} (a : A) (f : A -> IO B) :
  bind (lift (Ok a)) f = f a.
Proof. unfold bind, lift. now destruct (f a). Qed.

Lemma bind_ret {A B} (m : IO A) (f : A -> B) :
  bind m (fun a => ret (f a)) = outcome f m.
Proof.
  destruct m as [[a|e] t]; cbn; [|reflexivity]. now rewrite app_nil_r.
Qed.

(** The reply to a well-formed request whose first turn asks for a call:
    the tool is executed, its payload sent, and the reply made from the
    second turn; an exception at any point goes to the handler. *)
Lemma chat_call (svc : Service) (body : obj) (u q : string)
    (resp : modelResponse) (fc : functionCall) :
  well_formed body u q -> modelReady svc = true ->
  firstTurn svc q = Ok resp -> fst (extract resp) = Some fc ->
  chat rt svc body =
  match executeTool rt svc u fc with
  | (Ok payload, t) =>
      (Ok (final_reply (secondTurn svc (name fc) payload)), t)
  | (Throw e, t) =>
      (Ok (if includes (exn_message e) "Database connection failed"
           then unavailable else internal_error), t)
  end.
Proof.
  intros Hw Hm Hf He.
  destruct (chat_well_formed svc body u q Hw) as [Hu Hq].
  unfold chat. rewrite Hu, Hq, Hm. cbn [negb].
  rewrite Hf, bind_lift_ok.
  destruct (extract resp) as [call txt]. cbn in He; subst call.
  destruct (executeTool rt svc u fc) as [[payload|e] t].
  - unfold final_reply, bind, lift.
    destruct (secondTurn svc (name fc) payload) as [r2|e2].
    + destruct (String.eqb (finalText r2) ""); cbn;
        now rewrite ?app_nil_r.
    + cbn. destruct (includes _ _); cbn; now rewrite ?app_nil_r.
  - cbn. destruct (includes _ _); cbn; now rewrite ?app_nil_r.
Qed.

(** The reply to a well-formed request whose first turn asks for no
    call. *)
Lemma chat_text (svc : Service) (body : obj) (u q : string)
    (resp : modelResponse) :
  well_formed body u q -> modelReady svc = true ->
  firstTurn svc q = Ok resp -> fst (extract resp) = None ->
  chat rt svc body =
  (Ok (if String.eqb (snd (extract resp)) ""
       then Failure 500
              "Could not understand your request or retrieve relevant information."
       else Answer (snd (extract resp))), []).
Proof.
  intros Hw Hm Hf He.
  destruct (chat_well_formed svc body u q Hw) as [Hu Hq].
  unfold chat. rewrite Hu, Hq, Hm. cbn [negb].
  rewrite Hf, bind_lift_ok.
  destruct (extract resp) as [call txt]. cbn in He; subst call.
  cbn [snd]. now destruct (String.eqb txt "").
Qed.

(** The reply when the first turn throws. *)
Lemma chat_first_throws (svc : Service) (body : obj) (u q : string)
    (e : exn) :
  well_formed body u q -> modelReady svc = true ->
  firstTurn svc q = Throw e ->
  chat rt svc body =
  (Ok (if includes (exn_message e) "Database connection failed"
       then unavailable else internal_error), []).
Proof.
  intros Hw Hm Hf.
  destruct (chat_well_formed svc body u q Hw) as [Hu Hq].
  unfold chat. rewrite Hu, Hq, Hm. cbn [negb].
  rewrite Hf. cbn. now destruct (includes _ _).
Qed.

Lemma final_reply_status (r : res modelResponse) :
  In (status_of (final_reply r)) [200; 400; 500; 503]%nat.
Proof.
  unfold final_reply. destruct r as [r|e].
  - destruct (String.eqb _ _); cbn; tauto.
  - destruct (includes _ _); cbn; tauto.
Qed.

Lemma final_reply_not_400 (r : res modelResponse) :
  status_of (final_reply r) <> 400%nat.
Proof.
  unfold final_reply. destruct r as [r|e].
  - destruct (String.eqb _ _); cbn; discriminate.
  - destruct (includes _ _); cbn; discriminate.
Qed.

(** The handler replies, whatever happens. *)
Lemma chat_replies (svc : Service) (body : obj) :
  exists reply t,
    chat rt svc body = (Ok reply, t) /\
    In (status_of reply) [200; 400; 500; 503]%nat /\
    ((exists u q, well_formed body u q) -> status_of reply <> 400%nat).
Proof.
  destruct (nonblank (get body "userId")) as [u|] eqn:Hu.
  2:{ unfold chat. rewrite Hu. do 2 eexists. split; [reflexivity|].
      split; [cbn; tauto|]. intros Hw. exfalso.
      apply (proj2 (chat_not_well_formed body)); [now left|exact Hw]. }
  destruct (nonblank (get body "question")) as [q|] eqn:Hq.
  2:{ unfold chat. rewrite Hu, Hq. do 2 eexists. split; [reflexivity|].
      split; [cbn; tauto|]. intros Hw. exfalso.
      apply (proj2 (chat_not_well_formed body)); [now right|exact Hw]. }
  assert (Hw : well_formed body u q).
  { apply nonblank_spec in Hu as [Hu Hut].
    apply nonblank_spec in Hq as [Hq Hqt]. now split_and!. }
  destruct (modelReady svc) eqn:Hm.
  2:{ unfold chat. rewrite Hu, Hq, Hm. do 2 eexists.
      split; [reflexivity|]. split; [cbn; tauto|]. cbn. discriminate. }
  destruct (firstTurn svc q) as [resp|e] eqn:Hf.
  2:{ rewrite (chat_first_throws svc body u q e Hw Hm Hf).
      do 2 eexists. split; [reflexivity|].
      destruct (includes _ _); cbn; split; try tauto; discriminate. }
  destruct (fst (extract resp)) as [fc|] eqn:He.
  - rewrite (chat_call svc body u q resp fc Hw Hm Hf He).
    destruct (executeTool rt svc u fc) as [[payload|e] t].
    + do 2 eexists. split; [reflexivity|].
      split; [apply final_reply_status|]. intros _.
      apply final_reply_not_400.
    + do 2 eexists. split; [reflexivity|].
      destruct (includes _ _); cbn; split; try tauto; discriminate.
  - rewrite (chat_text svc body u q resp Hw Hm Hf He).
    do 2 eexists. split; [reflexivity|].
    destruct (String.eqb _ _); cbn; split; try tauto; discriminate.
Qed.

(** What the execution of a call does to the stores. *)
Lemma executeTool_trace (svc : Service) (u : string) (fc : functionCall) :
  snd (executeTool rt svc u fc)
  = if String.eqb (name fc) "getTransactionSummary"
    then snd (getTransactionData rt (stores svc) u) else [].
Proof.
  unfold executeTool. destruct (String.eqb _ _); [|reflexivity].
  destruct (getTransactionData rt (stores svc) u) as [[r|e] t];
    [|reflexivity].
  cbn [bind snd]. destruct (transactions r) as [|tx txs].
  - cbn. now rewrite app_nil_r.
  - destruct (processArgs rt (tx :: txs) u (args fc)); cbn;
      now rewrite app_nil_r.
Qed.

Lemma chat_call_trace (svc : Service) (body : obj) (u q : string)
    (resp : modelResponse) (fc : functionCall) :
  well_formed body u q -> modelReady svc = true ->
  firstTurn svc q = Ok resp -> fst (extract resp) = Some fc ->
  snd (chat rt svc body) = snd (executeTool rt svc u fc).
Proof.
  intros Hw Hm Hf He. rewrite (chat_call svc body u q resp fc Hw Hm Hf He).
  now destruct (executeTool rt svc u fc) as [[payload|e] t].
Qed.

(** The execution of the tool when the data cannot be fetched. *)
Lemma executeTool_throws (svc : Service) (u : string) (fc : functionCall)
    (e : exn) (t : list event) :
  name fc = "getTransactionSummary" ->
  getTransactionData rt (stores svc) u = (Throw e, t) ->
  executeTool rt svc u fc = (Throw e, t).
Proof.
  intros Hn H. unfold executeTool. rewrite Hn. cbn [String.eqb].
  change (("getTransactionSummary" =? "getTransactionSummary")%string)
    with true. cbn iota. now rewrite H.
Qed.

Lemma well_formed_id (body : obj) (u q : string) :
  well_formed body u q -> u <> "".
Proof. intros (_ & Hu & _) ->. now apply Hu. Qed.

End Chat.

(** X19: in every run of the handler of [POST /chat] in which the calls to
    the service and to the stores settle, and what they reject with is an
    error that has a message, the handler sends a reply and lets no
    exception escape, whatever the request holds and whatever the calls
    settle to; the status of the reply is 200, 400, 500 or 503. *)
Theorem chat_always_replies (rt : Runtime) (svc : Endpoint.Service)
    (body : obj) :
  exists reply t,
    Endpoint.chat rt svc body = (Ok reply, t) /\
    In (Endpoint.status_of reply) [200; 400; 500; 503]%nat.
Proof.
  destruct (chat_replies rt svc body) as (reply & t & H & Hs & _).
  now exists reply, t.
Qed.

(** X20: the handler replies 400 to every request whose [userId] or
    [question] is not a string, or is a string of ASCII white space only
    (the empty string is one): such a request gets the same reply from
    every service and touches no store.  A request whose [userId] and
    [question] are strings that each show a character of the ASCII range
    never gets 400. *)
Theorem chat_bad_request (rt : Runtime) (body : obj) :
  (Spec.blank (get body "userId") \/ Spec.blank (get body "question") ->
   exists message,
     forall svc,
       Endpoint.chat rt svc body = (Ok (Endpoint.Failure 400 message), [])) /\
  ((exists u q, Spec.legible body u q) ->
   forall svc reply t,
     Endpoint.chat rt svc body = (Ok reply, t) ->
     Endpoint.status_of reply <> 400%nat).
Proof.
  split.
  - intros H.
    assert (H' : Endpoint.nonblank (get body "userId") = None \/
                 Endpoint.nonblank (get body "question") = None).
    { destruct H as [H|H]; [left|right]; now apply blank_nonblank. }
    unfold Endpoint.chat.
    destruct (Endpoint.nonblank (get body "userId")) as [u|].
    + destruct (Endpoint.nonblank (get body "question")) as [q|].
      * destruct H'; discriminate.
      * eexists; intros svc; reflexivity.
    + eexists; intros svc; reflexivity.
  - intros (u & q & Hl) svc reply t H.
    destruct (chat_replies rt svc body) as (reply' & t' & H' & _ & Hs).
    rewrite H in H'. inversion H'; subst. apply Hs.
    exists u, q. now apply legible_well_formed.
Qed.

(** X21: when the service asks for [getTransactionSummary] and the ledger
    cannot be reached, the reply is 503; when the ledger is reached and
    its query is rejected, the reply is 500, unless the message of the
    rejection contains "Database connection failed", which makes it
    503. *)
Theorem chat_store_failures (rt : Runtime) (svc : Endpoint.Service)
    (body : obj) (u q : string) (resp : Endpoint.modelResponse)
    (fc : Endpoint.functionCall) :
  Spec.well_formed body u q ->
  Endpoint.modelReady svc = true ->
  Endpoint.firstTurn svc q = Ok resp ->
  fst (Endpoint.extract resp) = Some fc ->
  Endpoint.name fc = "getTransactionSummary" ->
  (forall t1,
     Controller.testConnection
       (Controller.ledgerPool (Endpoint.stores svc)) "ledger"
     = (Ok false, t1) ->
     exists t, Endpoint.chat rt svc body = (Ok Spec.unavailable, t)) /\
  (forall t1 m,
     Controller.testConnection
       (Controller.ledgerPool (Endpoint.stores svc)) "ledger"
     = (Ok true, t1) ->
     Controller.ledger_query (Endpoint.stores svc) u = Controller.Rejected m ->
     exists t,
       Endpoint.chat rt svc body
       = (Ok (if includes m "Database connection failed"
              then Spec.unavailable else Spec.internal_error), t)).
Proof.
  intros Hw Hm Hf He Hn.
  pose proof (well_formed_id body u q Hw) as Hid.
  destruct (testConnection_returns
              (Controller.accountsPool (Endpoint.stores svc)) "accounts")
    as (ac & t2 & H2).
  split.
  - intros t1 H1.
    rewrite (chat_call rt svc body u q resp fc Hw Hm Hf He).
    rewrite (executeTool_throws rt svc u fc _ _ Hn
               (getTransactionData_run rt (Endpoint.stores svc) u false ac
                  t1 t2 Hid H1 H2)).
    eexists; reflexivity.
  - intros t1 m H1 Hq.
    rewrite (chat_call rt svc body u q resp fc Hw Hm Hf He).
    pose proof (getTransactionData_run rt (Endpoint.stores svc) u true ac
                  t1 t2 Hid H1 H2) as Hrun.
    rewrite Hq in Hrun.
    rewrite (executeTool_throws rt svc u fc _ _ Hn Hrun).
    cbn [exn_message]. rewrite wrapped_message.
    eexists; reflexivity.
Qed.

Lemma scenario_request :
  Spec.well_formed Scenario.request "A1" "How much did I spend?".
Proof. split_and!; try reflexivity; vm_compute; discriminate. Qed.

Lemma chat_store_failures_witness :
  (forall t1,
     Controller.testConnection (Controller.ledgerPool Scenario.down) "ledger"
     = (Ok false, t1) ->
     exists t,
       Endpoint.chat UtcHost.runtime
         (Scenario.service Scenario.down
            (Scenario.summary_call (Some Scenario.total)))
         Scenario.request
       = (Ok Spec.unavailable, t)) /\
  (forall t1 m,
     Controller.testConnection (Controller.ledgerPool Scenario.down) "ledger"
     = (Ok true, t1) ->
     Controller.ledger_query Scenario.down "A1" = Controller.Rejected m ->
     exists t,
       Endpoint.chat UtcHost.runtime
         (Scenario.service Scenario.down
            (Scenario.summary_call (Some Scenario.total)))
         Scenario.request
       = (Ok (if includes m "Database connection failed"
              then Spec.unavailable else Spec.internal_error), t)).
Proof.
  apply (chat_store_failures UtcHost.runtime
           (Scenario.service Scenario.down
              (Scenario.summary_call (Some Scenario.total)))
           Scenario.request "A1" "How much did I spend?"
           (Scenario.asks (Scenario.summary_call (Some Scenario.total)))
           (Scenario.summary_call (Some Scenario.total))).
  - exact scenario_request.
  - reflexivity.
  - reflexivity.
  - reflexivity.
  - reflexivity.
Defined.

(** The ledger of the example cannot be reached: the reply is 503, after
    three attempts on each store. *)
Example scenario_unavailable :
  exists t,
    Endpoint.chat UtcHost.runtime
      (Scenario.service Scenario.down
         (Scenario.summary_call (Some Scenario.total)))
      Scenario.request
    = (Ok Spec.unavailable, t) /\
    Spec.connections t = 4%nat.
Proof. eexists. split; [vm_compute; reflexivity | reflexivity]. Qed.

(** X22: how the handler reads a response of the service.  In the first
    turn the first part with a function call wins: the parts after it and
    the other candidates are not read, and the texts before it are not
    sent.  Without a call the text is the texts of all the parts of the
    first candidate, in order, which is also how the second turn is
    read. *)
Theorem first_function_call_wins (parts : list Endpoint.part)
    (others : list Endpoint.candidate) :
  (forall before p after fc,
     parts = (before ++ p :: after)%list ->
     Forall (fun p => Endpoint.part_functionCall p = None) before ->
     Endpoint.part_functionCall p = Some fc ->
     Endpoint.extract (Spec.responding parts others)
     = (Some fc, Spec.texts before)) /\
  (Forall (fun p => Endpoint.part_functionCall p = None) parts ->
   Endpoint.extract (Spec.responding parts others)
   = (None, Spec.texts parts)) /\
  Endpoint.finalText (Spec.responding parts others) = Spec.texts parts.
Proof.
  split_and!.
  - intros before p after fc -> Hb Hp. cbn.
    now rewrite (scanParts_call before after p fc "" Hb Hp).
  - intros Hall. cbn. now rewrite (scanParts_text parts "" Hall).
  - cbn. now rewrite collectText_texts.
Qed.

(** X23: a request reaches the stores at most once, through
    [getTransactionData] for the [userId] of the request, and only when it
    is well formed, the service is ready and its first response asks for
    [getTransactionSummary]; in every other case no connection is
    attempted. *)
Theorem chat_store_access (rt : Runtime) (svc : Endpoint.Service)
    (body : obj) :
  snd (Endpoint.chat rt svc body) = [] \/
  exists u q resp fc,
    Spec.well_formed body u q /\
    Endpoint.modelReady svc = true /\
    Endpoint.firstTurn svc q = Ok resp /\
    fst (Endpoint.extract resp) = Some fc /\
    Endpoint.name fc = "getTransactionSummary" /\
    snd (Endpoint.chat rt svc body)
    = snd (Controller.getTransactionData rt (Endpoint.stores svc) u).
Proof.
  destruct (Endpoint.nonblank (get body "userId")) as [u|] eqn:Hu.
  2:{ left. unfold Endpoint.chat. now rewrite Hu. }
  destruct (Endpoint.nonblank (get body "question")) as [q|] eqn:Hq.
  2:{ left. unfold Endpoint.chat. now rewrite Hu, Hq. }
  assert (Hw : Spec.well_formed body u q).
  { apply nonblank_spec in Hu as [Hu Hut].
    apply nonblank_spec in Hq as [Hq Hqt]. unfold Spec.well_formed.
    now split_and!. }
  destruct (Endpoint.modelReady svc) eqn:Hm.
  2:{ left. unfold Endpoint.chat. now rewrite Hu, Hq, Hm. }
  destruct (Endpoint.firstTurn svc q) as [resp|e] eqn:Hf.
  2:{ left. now rewrite (chat_first_throws rt svc body u q e Hw Hm Hf). }
  destruct (fst (Endpoint.extract resp)) as [fc|] eqn:He.
  2:{ left. now rewrite (chat_text rt svc body u q resp Hw Hm Hf He). }
  rewrite (chat_call_trace rt svc body u q resp fc Hw Hm Hf He).
  rewrite executeTool_trace.
  destruct (String.eqb_spec (Endpoint.name fc) "getTransactionSummary")
    as [Hn|Hn]; [|now left].
  right. exists u, q, resp, fc. now split_and!.
Qed.

(** X24: a call of [getTransactionSummary] without arguments.  When the
    account has transactions the processing throws and the reply is the
    internal error (500), after the data was fetched; when it has none,
    the arguments are not read and the service receives the message that
    no transaction was found. *)
Theorem call_without_arguments (rt : Runtime) (svc : Endpoint.Service)
    (body : obj) (u q : string) (resp : Endpoint.modelResponse)
    (fc : Endpoint.functionCall) (r : Controller.response)
    (t : list Controller.event) :
  Spec.well_formed body u q ->
  Endpoint.modelReady svc = true ->
  Endpoint.firstTurn svc q = Ok resp ->
  fst (Endpoint.extract resp) = Some fc ->
  Endpoint.name fc = "getTransactionSummary" ->
  Endpoint.args fc = None ->
  Controller.getTransactionData rt (Endpoint.stores svc) u = (Ok r, t) ->
  Endpoint.chat rt svc body
  = (Ok match Controller.transactions r with
        | [] =>
            Spec.final_reply
              (Endpoint.secondTurn svc (Endpoint.name fc)
                 (Endpoint.NoTransactions
                    "No transactions found for your account."
                    (Controller.accountOwner r)
                    (Controller.accountNumber r)))
        | _ :: _ => Spec.internal_error
        end, t).
Proof.
  intros Hw Hm Hf He Hn Ha H.
  rewrite (chat_call rt svc body u q resp fc Hw Hm Hf He).
  unfold Endpoint.executeTool. rewrite Hn.
  change (("getTransactionSummary" =? "getTransactionSummary")%string)
    with true. cbn iota. rewrite H, Ha.
  cbv beta iota delta [Controller.bind].
  destruct (Controller.transactions r) as [|tx txs]; cbn;
    rewrite ?app_nil_r; reflexivity.
Qed.

Lemma call_without_arguments_witness :
  Endpoint.chat UtcHost.runtime
    (Scenario.service Scenario.world (Scenario.summary_call None))
    Scenario.request
  = (Ok match Controller.transactions Scenario.answer with
        | [] =>
            Spec.final_reply
              (Endpoint.secondTurn
                 (Scenario.service Scenario.world (Scenario.summary_call None))
                 (Endpoint.name (Scenario.summary_call None))
                 (Endpoint.NoTransactions
                    "No transactions found for your account."
                    (Controller.accountOwner Scenario.answer)
                    (Controller.accountNumber Scenario.answer)))
        | _ :: _ => Spec.internal_error
        end, Scenario.trace).
Proof.
  apply (call_without_arguments UtcHost.runtime
           (Scenario.service Scenario.world (Scenario.summary_call None))
           Scenario.request "A1" "How much did I spend?"
           (Scenario.asks (Scenario.summary_call None))
           (Scenario.summary_call None) Scenario.answer Scenario.trace).
  - exact scenario_request.
  - reflexivity.
  - reflexivity.
  - reflexivity.
  - reflexivity.
  - reflexivity.
  - exact scenario_run.
Defined.

(** ** The type of a transaction *)

Section TypeArgument.
Import Controller Engine Spec.

Variable rt : Runtime.

Lemma filter_with_ext_in (keep keep' : obj -> res bool) (l : list obj) :
  (forall tx, In tx l -> keep tx = keep' tx) ->
  filter_with keep l = filter_with keep' l.
Proof.
  induction l as [|tx l IH]; intros H; [reflexivity|].
  cbn. rewrite (H tx) by now left.
  rewrite IH by (intros x Hx; apply H; now right). reflexivity.
Qed.

Lemma addAmount_any (userId : string) (p p' : obj) (sum : number)
    (tx : obj) :
  addAmount userId p sum tx = addAmount userId p' sum tx.
Proof. now rewrite !addAmount_involves. Qed.

(** On a transaction without [transactionType] the argument of that name
    is never compared. *)
Lemma keeps_transactionType (p tx : obj) (v : value) :
  tx !! "transactionType" = None ->
  keeps rt (<[ "transactionType" := v ]> p) tx = keeps rt p tx.
Proof.
  intros H. apply keeps_congr;
    try (apply differs_congr; now rewrite get_insert_ne);
    try (apply merchantName_congr; now rewrite get_insert_ne);
    try (apply startDate_congr; now rewrite get_insert_ne);
    try (apply endDate_congr; now rewrite get_insert_ne).
  unfold excluded_by_transactionType.
  now rewrite !differs_absent_field.
Qed.

End TypeArgument.

(** X25: on the transactions that [getTransactionData] returns, the
    [transactionType] argument of the tool changes nothing in the answer
    of [processTransactionDataForAI]: not the transactions kept, nor the
    count, the total, the list or the message.  A total asked for debits
    is the total of debits and credits. *)
Theorem transactionType_changes_nothing (rt : Runtime)
    (w : Controller.World) (accountId userId : string)
    (r : Controller.response) (t : list Controller.event) (params : obj)
    (v : value) :
  Controller.getTransactionData rt w accountId = (Ok r, t) ->
  Engine.processTransactionDataForAI rt (Controller.transactions r) userId
    (<[ "transactionType" := v ]> params)
  = Engine.processTransactionDataForAI rt (Controller.transactions r) userId
      params.
Proof.
  intros H.
  unfold Engine.processTransactionDataForAI, Engine.filterTransactions.
  rewrite (filter_with_ext_in
             (Engine.keeps rt (<[ "transactionType" := v ]> params))
             (Engine.keeps rt params)).
  2:{ intros tx Hin. apply keeps_transactionType.
      now destruct (fetched_shape rt w accountId r t tx H Hin)
        as (_ & Hty & _). }
  destruct (Engine.filter_with _ _) as [kept|e]; [|reflexivity].
  cbn [res_bind]. destruct kept as [|tx kept].
  - f_equal. f_equal. f_equal.
    apply emptyMessage_congr; now rewrite get_insert_ne.
  - rewrite (get_insert_ne params "transactionType" "summaryType" v)
      by discriminate.
    rewrite (fold_left_ext
               (Engine.addAmount userId (<[ "transactionType" := v ]> params))
               (Engine.addAmount userId params))
      by (intros; apply addAmount_any).
    reflexivity.
Qed.

Lemma transactionType_changes_nothing_witness :
  Engine.processTransactionDataForAI UtcHost.runtime
    (Controller.transactions Scenario.answer) "A1"
    (<[ "transactionType" := VStr "debit" ]> Scenario.total)
  = Engine.processTransactionDataForAI UtcHost.runtime
      (Controller.transactions Scenario.answer) "A1" Scenario.total.
Proof.
  exact (transactionType_changes_nothing UtcHost.runtime Scenario.world
           "A1" "A1" Scenario.answer Scenario.trace Scenario.total
           (VStr "debit") scenario_run).
Defined.
